(** * Pittsfield Township property-tax appeal analysis

    A shallow embedding of the record-card parser ([rc_parser.py]), of the
    numeric part of the CSV loader ([data_loader.py]) and of the analysis
    engine ([analysis_engine.py]), with the properties of the design
    document proved or refuted against it, followed by further properties
    read off the code: errors and edge cases, invariants, and how the
    loaders, the evidence views and the statistics compose.

    Conventions of the embedding.
    - A Python [int] is an integer ([Z]).  A Python [float] is a binary64
      number, held as its exact rational value ([Q]); each float operation
      [+], [-], [*], [/] rounds its exact result to the nearest binary64
      value, ties to even ([F64.add], [F64.sub], [F64.mul], [F64.div]),
      and a decimal literal that enters arithmetic is the binary64 value
      nearest to it ([F64.fl (85 # 100)] for [0.85]).  Comparison,
      [round], [int] and the formatting of a float act on the exact value;
      doubling is exact and written as a product.  Overflow to infinity
      and NaN out of arithmetic are not modelled.  A theorem that needs an
      input to be a binary64 value says so ([F64.is_f64]).
    - A cost factor that is only compared with the bounds [0.1] and [5.0]
      of the loader is compared with 1/10 and 5: a binary64 value is at
      least the float [0.1] exactly when it is at least 1/10
      ([decimal_bound_0_1]).
    - A missing value (pandas [NaN]/[NA], Python [None]) is [None].
    - [str] is [string], a sequence of bytes of ASCII text: white space and
      letters are the ASCII ones.  Text with other characters (the
      no-break space that [str.strip] also removes, letters with accents)
      is outside the model.
    - A [dict] is an association list in insertion order; a [DataFrame] is
      a list of column names together with a list of typed rows.
    - A Python exception is the [Raise] outcome of the [result] type. *)

From Stdlib Require Import ZArith QArith Qabs Qpower Qreduction List String Ascii.
From Stdlib Require Import Bool Lia Lqa Permutation Sorted DecimalString.
From Stdlib Require Floats.SpecFloat.
Import ListNotations.

Open Scope string_scope.
Open Scope Z_scope.

(* ================================================================== *)
(** * Python and pandas primitives *)
(* ================================================================== *)

Module Py.

(** ** Exceptions *)

Inductive exn : Type :=
| KeyError (key : string)
| ValueError
| IndexError
| IndexingError
| TypeError
| OcrError.

Inductive result (A : Type) : Type :=
| Ok (a : A)
| Raise (e : exn).

Arguments Ok {A} a.
Arguments Raise {A} e.

Definition bind {A B : Type} (m : result A) (k : A -> result B) : result B :=
  match m with
  | Ok a => k a
  | Raise e => Raise e
  end.

(** [df[col]] on a frame whose column list is [cols]. *)
Definition require_col (col : string) (cols : list string) : result unit :=
  if existsb (String.eqb col) cols then Ok tt else Raise (KeyError col).

(** [for x in xs: acc = step(x, acc)], stopping at the first exception. *)
Fixpoint foldM {A S : Type} (step : A -> S -> result S) (xs : list A) (s : S)
  : result S :=
  match xs with
  | [] => Ok s
  | x :: rest => bind (step x s) (foldM step rest)
  end.

(** [[f(x) for x in xs]], stopping at the first exception. *)
Fixpoint mapM {A B : Type} (f : A -> result B) (xs : list A) : result (list B) :=
  match xs with
  | [] => Ok []
  | x :: rest =>
      match f x with
      | Ok b => match mapM f rest with
                | Ok bs => Ok (b :: bs)
                | Raise e => Raise e
                end
      | Raise e => Raise e
      end
  end.

(** ** Strings *)

Definition nl : string := String (ascii_of_nat 10) EmptyString.

Definition is_space (c : ascii) : bool :=
  let n := nat_of_ascii c in
  (((9 <=? n) && (n <=? 13)) || ((28 <=? n) && (n <=? 32)))%nat.

Definition is_lower (c : ascii) : bool :=
  let n := nat_of_ascii c in ((97 <=? n) && (n <=? 122))%nat.

Definition is_upper (c : ascii) : bool :=
  let n := nat_of_ascii c in ((65 <=? n) && (n <=? 90))%nat.

Definition upper_char (c : ascii) : ascii :=
  if is_lower c then ascii_of_nat (nat_of_ascii c - 32) else c.

Definition lower_char (c : ascii) : ascii :=
  if is_upper c then ascii_of_nat (nat_of_ascii c + 32) else c.

Fixpoint map_string (f : ascii -> ascii) (s : string) : string :=
  match s with
  | EmptyString => EmptyString
  | String c r => String (f c) (map_string f r)
  end.

(** [s.upper()], [s.lower()], [s.capitalize()] *)
Definition upper (s : string) : string := map_string upper_char s.
Definition lower (s : string) : string := map_string lower_char s.
Definition capitalize (s : string) : string :=
  match s with
  | EmptyString => EmptyString
  | String c r => String (upper_char c) (lower r)
  end.

Fixpoint lstrip_by (p : ascii -> bool) (s : string) : string :=
  match s with
  | EmptyString => EmptyString
  | String c r => if p c then lstrip_by p r else s
  end.

Fixpoint rstrip_by (p : ascii -> bool) (s : string) : string :=
  match s with
  | EmptyString => EmptyString
  | String c r =>
      match rstrip_by p r with
      | EmptyString => if p c then EmptyString else String c EmptyString
      | r' => String c r'
      end
  end.

(** [s.strip()] and [s.lstrip(chars)] for a one-character [chars]; on
    ASCII text the white space of [str.strip] is that of [is_space]. *)
Definition strip (s : string) : string := rstrip_by is_space (lstrip_by is_space s).
Definition lstrip_char (ch : ascii) (s : string) : string :=
  lstrip_by (Ascii.eqb ch) s.

(** [s.replace(a, b)] for single characters [a] and [b] *)
Definition replace_char (a b : ascii) (s : string) : string :=
  map_string (fun c => if Ascii.eqb c a then b else c) s.

(** [sub in s] *)
Fixpoint contains (sub s : string) : bool :=
  String.prefix sub s ||
  match s with
  | EmptyString => false
  | String _ r => contains sub r
  end.

(** [s[:n]] *)
Fixpoint take (n : nat) (s : string) : string :=
  match n, s with
  | O, _ => EmptyString
  | _, EmptyString => EmptyString
  | S k, String c r => String c (take k r)
  end.

(** [ch * n] *)
Fixpoint repeat_char (ch : ascii) (n : nat) : string :=
  match n with
  | O => EmptyString
  | S k => String ch (repeat_char ch k)
  end.

(** [f"{s:<w}"] (also the default for [f"{s:ws}"]) and [f"{s:>w}"] *)
Definition ljust (w : nat) (s : string) : string :=
  s ++ repeat_char " " (w - String.length s).
Definition rjust (w : nat) (s : string) : string :=
  repeat_char " " (w - String.length s) ++ s.

(** [sep.join(parts)] *)
Fixpoint join (sep : string) (parts : list string) : string :=
  match parts with
  | [] => EmptyString
  | [p] => p
  | p :: rest => p ++ sep ++ join sep rest
  end.

(** [s.split()]: the maximal runs of characters that are not white space. *)
Fixpoint split_ws_aux (s : string) (cur : string) : list string :=
  match s with
  | EmptyString => match cur with EmptyString => [] | _ => [cur] end
  | String c r =>
      if is_space c
      then match cur with
           | EmptyString => split_ws_aux r EmptyString
           | _ => cur :: split_ws_aux r EmptyString
           end
      else split_ws_aux r (cur ++ String c EmptyString)
  end.

Definition split_ws (s : string) : list string := split_ws_aux s EmptyString.

(** Truthiness of a [str]. *)
Definition nonempty (s : string) : bool :=
  match s with EmptyString => false | _ => true end.

(** ** Numbers *)

Definition Qltb (a b : Q) : bool := negb (Qle_bool b a).

(** [round(x)]: to the nearest integer, ties to the even one. *)
Definition round_half_even (q : Q) : Z :=
  let n := Qnum q in
  let d := Zpos (Qden q) in
  let f := n / d in
  let r2 := 2 * (n mod d) in
  if r2 <? d then f
  else if d <? r2 then f + 1
  else if Z.even f then f else f + 1.

(** [int(x)] of a float: truncation towards zero. *)
Definition trunc (q : Q) : Z := Z.quot (Qnum q) (Zpos (Qden q)).

(** [str(n)] of an [int]. *)
Definition str_Z (z : Z) : string := NilZero.string_of_int (Z.to_int z).

Fixpoint group3_rev (l : list ascii) : list ascii :=
  match l with
  | a :: b :: c :: ((_ :: _) as rest) => a :: b :: c :: ","%char :: group3_rev rest
  | _ => l
  end.

(** The digits of a natural number with [,] between groups of three. *)
Definition group3 (digits : string) : string :=
  string_of_list_ascii (rev (group3_rev (rev (list_ascii_of_string digits)))).

Definition zero_pad (w : nat) (s : string) : string :=
  repeat_char "0" (w - String.length s) ++ s.

(** [f"{x:[+][,].<prec>f}"]: sign, integer part (grouped when [comma]),
    and [prec] decimals of [x] rounded half-even at that place. *)
Definition fmt_f (plus comma : bool) (prec : nat) (x : Q) : string :=
  let scale := 10 ^ Z.of_nat prec in
  let scaled := round_half_even (Qabs x * inject_Z scale) in
  let ip := str_Z (scaled / scale) in
  let ip := if comma then group3 ip else ip in
  let fp := match prec with
            | O => EmptyString
            | _ => "." ++ zero_pad prec (str_Z (scaled mod scale))
            end in
  let sign := if Qltb x 0 then "-" else if plus then "+" else EmptyString in
  sign ++ ip ++ fp.

(** [f"{n:,}"] of an [int]. *)
Definition fmt_int_comma (n : Z) : string :=
  (if n <? 0 then "-" else EmptyString) ++ group3 (str_Z (Z.abs n)).

(** ** Dictionaries (insertion-ordered association lists) *)

Section Dict.
Context {K V : Type} (eqb : K -> K -> bool).

Fixpoint dict_get (k : K) (d : list (K * V)) : option V :=
  match d with
  | [] => None
  | (k', v) :: rest => if eqb k k' then Some v else dict_get k rest
  end.

(** [d[k] = v]: overwrite in place, or append a new key. *)
Fixpoint dict_set (k : K) (v : V) (d : list (K * V)) : list (K * V) :=
  match d with
  | [] => [(k, v)]
  | (k', v') :: rest =>
      if eqb k k' then (k, v) :: rest else (k', v') :: dict_set k v rest
  end.

Definition dict_mem (k : K) (d : list (K * V)) : bool :=
  match dict_get k d with Some _ => true | None => false end.
End Dict.

(** ** Sorting (stable insertion sort, used for [list.sort] and [sorted]) *)

Section Sort.
Context {A : Type} (leb : A -> A -> bool).

Fixpoint insert_sorted (x : A) (l : list A) : list A :=
  match l with
  | [] => [x]
  | y :: rest => if leb x y then x :: l else y :: insert_sorted x rest
  end.

(** Elements are inserted from the right, in front of the first element
    that is not smaller: equal keys keep their order. *)
Definition sort (l : list A) : list A := fold_right insert_sorted [] l.
End Sort.

End Py.

Import Py.

Declare Scope py_scope.
Notation "x <- m ;; k" := (bind m (fun x => k))
  (at level 61, m at next level, right associativity) : py_scope.
Open Scope py_scope.

(* ================================================================== *)
(** * Binary64 arithmetic *)
(* ================================================================== *)

(** A Python [float] is an IEEE 754 binary64 number: a mantissa of at most
    53 bits times a power of two that is at least 2^-1074.  The model keeps
    the exact rational value of a float and rounds the exact result of
    every arithmetic operation to the nearest binary64 value, the one with
    the even mantissa at a midpoint ([fl]); results below 2^-1022 are on
    the subnormal grid of 2^-1074.  Infinities and NaN are not values of
    the model: a result beyond the largest binary64 number is rounded as
    if the exponent range had no upper end. *)

Module F64.

Definition pow2 (e : Z) : Q := (2 ^ e)%Q.

(** The binary exponent of a positive rational:
    [2^(ilog2 q) <= q < 2^(ilog2 q + 1)]. *)
Definition ilog2 (q : Q) : Z :=
  let k := Z.log2 (Qnum q) - Z.log2 (Zpos (Qden q)) in
  if Qle_bool (pow2 k) q then k else k - 1.

(** The exponent of the last place of the binary64 numbers around [q]:
    52 places below the leading bit, and never below 2^-1074. *)
Definition expo (q : Q) : Z := Z.max (ilog2 q - 52) (-1074).

(** Rounding of a positive rational: the nearest multiple of
    [2^(expo q)], the even multiple at a midpoint. *)
Definition round_pos (q : Q) : Q :=
  (inject_Z (round_half_even (q / pow2 (expo q))) * pow2 (expo q))%Q.

(** Rounding to binary64, symmetric in the sign.  The result is in lowest
    terms, so that equal values are equal terms. *)
Definition fl (q : Q) : Q :=
  Qred (match (Qnum q ?= 0)%Z with
        | Eq => 0%Q
        | Gt => round_pos q
        | Lt => (- round_pos (- q))%Q
        end).

(** What [fl] is on a negative, a zero and a positive rational. *)
Inductive fl_cases (q : Q) : Prop :=
| fl_case_neg : (q < 0)%Q -> (fl q == - round_pos (- q))%Q -> fl_cases q
| fl_case_zero : (q == 0)%Q -> (fl q == 0)%Q -> fl_cases q
| fl_case_pos : (0 < q)%Q -> (fl q == round_pos q)%Q -> fl_cases q.

(** A rational that is a binary64 value. *)
Definition is_f64 (q : Q) : Prop := (fl q == q)%Q.

(** [float(z)] of an [int], and the four operations.  No divisor of the
    modelled code is zero: each is a non-zero constant or is guarded by a
    test of the source. *)
Definition of_Z (z : Z) : Q := fl (inject_Z z).
Definition add (a b : Q) : Q := fl (a + b).
Definition sub (a b : Q) : Q := fl (a - b).
Definition mul (a b : Q) : Q := fl (a * b).
Definition div (a b : Q) : Q := fl (a / b).

End F64.

(** ** The Standard Library's specification of IEEE 754 arithmetic

    [SpecFloat] specifies the operations of binary64 on mantissa and
    exponent; it serves as a second definition against which [F64] is
    run on the operations of the examples. *)

Module IEEE.

Definition to_Q (f : SpecFloat.spec_float) : option Q :=
  match f with
  | SpecFloat.S754_zero _ => Some 0%Q
  | SpecFloat.S754_finite s m e =>
      Some ((if s then -1 else 1) * inject_Z (Zpos m) * F64.pow2 e)%Q
  | _ => None
  end.

Definition of_Z (z : Z) : SpecFloat.spec_float :=
  SpecFloat.binary_normalize 53 1024 z 0 false.

Definition add := SpecFloat.SFadd 53 1024.
Definition sub := SpecFloat.SFsub 53 1024.
Definition mul := SpecFloat.SFmul 53 1024.
Definition div := SpecFloat.SFdiv 53 1024.

(** The binary64 value of the decimal [n / d]. *)
Definition lit (n d : Z) : SpecFloat.spec_float := div (of_Z n) (of_Z d).

(** The value of a [SpecFloat] number is the rational [q]. *)
Definition agrees (f : SpecFloat.spec_float) (q : Q) : Prop :=
  match to_Q f with
  | Some x => (x == q)%Q
  | None => False
  end.

End IEEE.

(* ================================================================== *)
(** * rc_parser.py: the record-card parser *)
(* ================================================================== *)

Module RcParser.

(** One row of the assessment history table. *)
Module AssessmentYear.
Record t : Type := mk {
  year : Z;
  land_value : option Z;
  building_value : option Z;
  assessed_value : option Z;
  taxable_value : option Z
}.
End AssessmentYear.

(** Parsed property data of a record card. *)
Record PropertyData : Type := mkPropertyData {
  parcel_number : string;
  address : string;
  area_code : string;
  subdivision : string;
  sev_2026 : Z;
  tcv_2026 : Z;
  land_value : Z;
  ecf : option Q;
  floor_area : Z;
  ground_area : Z;
  basement_sf : Z;
  year_built : Z;
  condition : string;
  style : string;
  effective_age : Z;
  total_base_new : Z;
  total_depr_cost : Z;
  estimated_tcv_cost : Z;
  assessment_history : list AssessmentYear.t;
  raw_text_page1 : string;
  raw_text_page2 : string
}.

(** [PropertyData()] *)
Definition default_PropertyData : PropertyData :=
  {| parcel_number := EmptyString; address := EmptyString; area_code := EmptyString; subdivision := EmptyString;
     sev_2026 := 0; tcv_2026 := 0; land_value := 0; ecf := None;
     floor_area := 0; ground_area := 0; basement_sf := 0; year_built := 0;
     condition := EmptyString; style := EmptyString; effective_age := 0; total_base_new := 0;
     total_depr_cost := 0; estimated_tcv_cost := 0; assessment_history := [];
     raw_text_page1 := EmptyString; raw_text_page2 := EmptyString |}.

(** Attribute assignment [prop.field = v], one function per field. *)
Definition set_parcel_number (v : string) (p : PropertyData) : PropertyData :=
  let '(mkPropertyData _ f2 f3 f4 f5 f6 f7 f8 f9 f10 f11
      f12 f13 f14 f15 f16 f17 f18 f19 f20 f21) := p in
  mkPropertyData v f2 f3 f4 f5 f6 f7 f8 f9 f10 f11
      f12 f13 f14 f15 f16 f17 f18 f19 f20 f21.
Definition set_address (v : string) (p : PropertyData) : PropertyData :=
  let '(mkPropertyData f1 _ f3 f4 f5 f6 f7 f8 f9 f10 f11
      f12 f13 f14 f15 f16 f17 f18 f19 f20 f21) := p in
  mkPropertyData f1 v f3 f4 f5 f6 f7 f8 f9 f10 f11
      f12 f13 f14 f15 f16 f17 f18 f19 f20 f21.
Definition set_area_code (v : string) (p : PropertyData) : PropertyData :=
  let '(mkPropertyData f1 f2 _ f4 f5 f6 f7 f8 f9 f10 f11
      f12 f13 f14 f15 f16 f17 f18 f19 f20 f21) := p in
  mkPropertyData f1 f2 v f4 f5 f6 f7 f8 f9 f10 f11
      f12 f13 f14 f15 f16 f17 f18 f19 f20 f21.
Definition set_subdivision (v : string) (p : PropertyData) : PropertyData :=
  let '(mkPropertyData f1 f2 f3 _ f5 f6 f7 f8 f9 f10 f11
      f12 f13 f14 f15 f16 f17 f18 f19 f20 f21) := p in
  mkPropertyData f1 f2 f3 v f5 f6 f7 f8 f9 f10 f11
      f12 f13 f14 f15 f16 f17 f18 f19 f20 f21.
Definition set_sev_2026 (v : Z) (p : PropertyData) : PropertyData :=
  let '(mkPropertyData f1 f2 f3 f4 _ f6 f7 f8 f9 f10 f11
      f12 f13 f14 f15 f16 f17 f18 f19 f20 f21) := p in
  mkPropertyData f1 f2 f3 f4 v f6 f7 f8 f9 f10 f11
      f12 f13 f14 f15 f16 f17 f18 f19 f20 f21.
Definition set_tcv_2026 (v : Z) (p : PropertyData) : PropertyData :=
  let '(mkPropertyData f1 f2 f3 f4 f5 _ f7 f8 f9 f10 f11
      f12 f13 f14 f15 f16 f17 f18 f19 f20 f21) := p in
  mkPropertyData f1 f2 f3 f4 f5 v f7 f8 f9 f10 f11
      f12 f13 f14 f15 f16 f17 f18 f19 f20 f21.
Definition set_land_value (v : Z) (p : PropertyData) : PropertyData :=
  let '(mkPropertyData f1 f2 f3 f4 f5 f6 _ f8 f9 f10 f11
      f12 f13 f14 f15 f16 f17 f18 f19 f20 f21) := p in
  mkPropertyData f1 f2 f3 f4 f5 f6 v f8 f9 f10 f11
      f12 f13 f14 f15 f16 f17 f18 f19 f20 f21.
Definition set_ecf (v : option Q) (p : PropertyData) : PropertyData :=
  let '(mkPropertyData f1 f2 f3 f4 f5 f6 f7 _ f9 f10 f11
      f12 f13 f14 f15 f16 f17 f18 f19 f20 f21) := p in
  mkPropertyData f1 f2 f3 f4 f5 f6 f7 v f9 f10 f11
      f12 f13 f14 f15 f16 f17 f18 f19 f20 f21.
Definition set_floor_area (v : Z) (p : PropertyData) : PropertyData :=
  let '(mkPropertyData f1 f2 f3 f4 f5 f6 f7 f8 _ f10 f11
      f12 f13 f14 f15 f16 f17 f18 f19 f20 f21) := p in
  mkPropertyData f1 f2 f3 f4 f5 f6 f7 f8 v f10 f11
      f12 f13 f14 f15 f16 f17 f18 f19 f20 f21.
Definition set_ground_area (v : Z) (p : PropertyData) : PropertyData :=
  let '(mkPropertyData f1 f2 f3 f4 f5 f6 f7 f8 f9 _ f11
      f12 f13 f14 f15 f16 f17 f18 f19 f20 f21) := p in
  mkPropertyData f1 f2 f3 f4 f5 f6 f7 f8 f9 v f11
      f12 f13 f14 f15 f16 f17 f18 f19 f20 f21.
Definition set_basement_sf (v : Z) (p : PropertyData) : PropertyData :=
  let '(mkPropertyData f1 f2 f3 f4 f5 f6 f7 f8 f9 f10 _
      f12 f13 f14 f15 f16 f17 f18 f19 f20 f21) := p in
  mkPropertyData f1 f2 f3 f4 f5 f6 f7 f8 f9 f10 v
      f12 f13 f14 f15 f16 f17 f18 f19 f20 f21.
Definition set_year_built (v : Z) (p : PropertyData) : PropertyData :=
  let '(mkPropertyData f1 f2 f3 f4 f5 f6 f7 f8 f9 f10 f11
      _ f13 f14 f15 f16 f17 f18 f19 f20 f21) := p in
  mkPropertyData f1 f2 f3 f4 f5 f6 f7 f8 f9 f10 f11
      v f13 f14 f15 f16 f17 f18 f19 f20 f21.
Definition set_condition (v : string) (p : PropertyData) : PropertyData :=
  let '(mkPropertyData f1 f2 f3 f4 f5 f6 f7 f8 f9 f10 f11
      f12 _ f14 f15 f16 f17 f18 f19 f20 f21) := p in
  mkPropertyData f1 f2 f3 f4 f5 f6 f7 f8 f9 f10 f11
      f12 v f14 f15 f16 f17 f18 f19 f20 f21.
Definition set_style (v : string) (p : PropertyData) : PropertyData :=
  let '(mkPropertyData f1 f2 f3 f4 f5 f6 f7 f8 f9 f10 f11
      f12 f13 _ f15 f16 f17 f18 f19 f20 f21) := p in
  mkPropertyData f1 f2 f3 f4 f5 f6 f7 f8 f9 f10 f11
      f12 f13 v f15 f16 f17 f18 f19 f20 f21.
Definition set_effective_age (v : Z) (p : PropertyData) : PropertyData :=
  let '(mkPropertyData f1 f2 f3 f4 f5 f6 f7 f8 f9 f10 f11
      f12 f13 f14 _ f16 f17 f18 f19 f20 f21) := p in
  mkPropertyData f1 f2 f3 f4 f5 f6 f7 f8 f9 f10 f11
      f12 f13 f14 v f16 f17 f18 f19 f20 f21.
Definition set_total_base_new (v : Z) (p : PropertyData) : PropertyData :=
  let '(mkPropertyData f1 f2 f3 f4 f5 f6 f7 f8 f9 f10 f11
      f12 f13 f14 f15 _ f17 f18 f19 f20 f21) := p in
  mkPropertyData f1 f2 f3 f4 f5 f6 f7 f8 f9 f10 f11
      f12 f13 f14 f15 v f17 f18 f19 f20 f21.
Definition set_total_depr_cost (v : Z) (p : PropertyData) : PropertyData :=
  let '(mkPropertyData f1 f2 f3 f4 f5 f6 f7 f8 f9 f10 f11
      f12 f13 f14 f15 f16 _ f18 f19 f20 f21) := p in
  mkPropertyData f1 f2 f3 f4 f5 f6 f7 f8 f9 f10 f11
      f12 f13 f14 f15 f16 v f18 f19 f20 f21.
Definition set_estimated_tcv_cost (v : Z) (p : PropertyData) : PropertyData :=
  let '(mkPropertyData f1 f2 f3 f4 f5 f6 f7 f8 f9 f10 f11
      f12 f13 f14 f15 f16 f17 _ f19 f20 f21) := p in
  mkPropertyData f1 f2 f3 f4 f5 f6 f7 f8 f9 f10 f11
      f12 f13 f14 f15 f16 f17 v f19 f20 f21.
Definition set_assessment_history (v : list AssessmentYear.t) (p : PropertyData) : PropertyData :=
  let '(mkPropertyData f1 f2 f3 f4 f5 f6 f7 f8 f9 f10 f11
      f12 f13 f14 f15 f16 f17 f18 _ f20 f21) := p in
  mkPropertyData f1 f2 f3 f4 f5 f6 f7 f8 f9 f10 f11
      f12 f13 f14 f15 f16 f17 f18 v f20 f21.
Definition set_raw_text_page1 (v : string) (p : PropertyData) : PropertyData :=
  let '(mkPropertyData f1 f2 f3 f4 f5 f6 f7 f8 f9 f10 f11
      f12 f13 f14 f15 f16 f17 f18 f19 _ f21) := p in
  mkPropertyData f1 f2 f3 f4 f5 f6 f7 f8 f9 f10 f11
      f12 f13 f14 f15 f16 f17 f18 f19 v f21.
Definition set_raw_text_page2 (v : string) (p : PropertyData) : PropertyData :=
  let '(mkPropertyData f1 f2 f3 f4 f5 f6 f7 f8 f9 f10 f11
      f12 f13 f14 f15 f16 f17 f18 f19 f20 _) := p in
  mkPropertyData f1 f2 f3 f4 f5 f6 f7 f8 f9 f10 f11
      f12 f13 f14 f15 f16 f17 f18 f19 f20 v.

(** The regular-expression engine ([re]) and the built-in number parsers
    are library code: the parser is written against this interface.  A
    match object is the list of its groups, group 0 first. *)
Inductive re_flags : Type := NoFlags | IGNORECASE.

Class PyRuntime : Type := {
  re_search : string -> string -> re_flags -> option (list string);
  re_match : string -> string -> option (list string);
  re_finditer : string -> string -> list (list string);
  re_sub : string -> string -> string -> string;
  py_int : string -> option Z;
  py_float : string -> option Q
}.

(** [m.group(i)] *)
Definition group (m : list string) (i : nat) : string := nth i m EmptyString.

(** [v or 0] *)
Definition or0 (v : option Z) : Z :=
  match v with Some z => z | None => 0 end.

(** [int(s)] outside a [try]: a [ValueError] propagates. *)
Definition int_or_raise `{PyRuntime} (s : string) : result Z :=
  match py_int s with Some z => Ok z | None => Raise ValueError end.

Section Parser.
Context `{RT : PyRuntime}.

Definition _clean_number (s : string) : option Z :=
  if negb (nonempty s) then None
  else
    let cleaned := re_sub "[,\s$]" EmptyString s in
    let cleaned := re_sub "[a-zA-Z]+$" EmptyString cleaned in
    py_int cleaned.

Definition _normalize_ocr_numbers (text : string) : string :=
  re_sub "(\d)\s*,\s*(\d)" "\1,\2" text.

Definition history_pattern : string :=
  "[|\(]?\s*(202[3-6])\s+" ++
  "([\d,]+)\s+" ++
  "([\d,]+)\s+" ++
  "([\d,]+)\s+" ++
  "([\d,]+)[cCsS]".

Definition history_step (m : list string) (prop : PropertyData)
  : result PropertyData :=
  year <- int_or_raise (group m 1) ;;
  let ay := AssessmentYear.mk year
              (_clean_number (group m 2)) (_clean_number (group m 3))
              (_clean_number (group m 4)) (_clean_number (group m 5)) in
  let prop := set_assessment_history (assessment_history prop ++ [ay]) prop in
  Ok (if year =? 2026
      then set_sev_2026 (or0 (AssessmentYear.assessed_value ay)) prop
      else prop).

Definition _parse_assessment_history (text : string) (prop : PropertyData)
  : result PropertyData :=
  let norm := _normalize_ocr_numbers text in
  prop <- foldM history_step (re_finditer history_pattern norm) prop ;;
  Ok (set_assessment_history
        (sort (fun a b => AssessmentYear.year a <=? AssessmentYear.year b)
              (assessment_history prop))
        prop).

Definition street_suffixes : string :=
  "(?:DR|LN|CT|RD|AVE|WAY|BLVD|CIR|ST|PL|TRL)".

Definition _parse_page1 (text : string) (prop : PropertyData)
  : result PropertyData :=
  (* Parcel Number *)
  let prop :=
    match re_search "Parcel Number:\s*(L\s*-[\d\s-]+)" text NoFlags with
    | Some m => set_parcel_number (re_sub "\s+" EmptyString (group m 1)) prop
    | None => prop
    end in
  (* Property Address *)
  let prop :=
    match re_search
            ("(?:Property Address|4\d{3}|[A-Z]\d{3,4})\s*\n?\s*(\d+\s+[A-Z][A-Z\s]+"
               ++ street_suffixes ++ ")") text NoFlags with
    | Some m => set_address (join " " (split_ws (group m 1))) prop
    | None =>
        match re_search ("\b(\d{3,5}\s+[A-Z][A-Z\s]+" ++ street_suffixes ++ ")\b")
                text NoFlags with
        | Some m => set_address (join " " (split_ws (group m 1))) prop
        | None => prop
        end
    end in
  (* ECF Area Code and Subdivision from Land Table *)
  let prop :=
    match re_search
            "Land\s+(?:Value\s+Estimates\s+for\s+)?Land\s+Table\s+(\S+?)\.(\S.*?)(?:\n|$)"
            text NoFlags with
    | Some m =>
        let prop := set_area_code (strip (group m 1)) prop in
        let raw_sub := strip (group m 2) in
        let raw_sub :=
          match re_match "^[A-Z0-9]+-(.+)" raw_sub with
          | Some sub_match => strip (group sub_match 1)
          | None => raw_sub
          end in
        set_subdivision
          (strip (replace_char "_" " " (replace_char "-" " " raw_sub))) prop
    | None => prop
    end in
  (* 2026 Est TCV *)
  let prop :=
    match re_search "2026\s+Est\s+TCV\s+([\d,\s]+)" text NoFlags with
    | Some m => set_tcv_2026 (or0 (_clean_number (group m 1))) prop
    | None => prop
    end in
  (* Total Est. Land value *)
  let prop :=
    match re_search "Total\s+Est\.\s+Land\s+value\s*=\s*([\d,\s]+)" text NoFlags with
    | Some m => set_land_value (or0 (_clean_number (group m 1))) prop
    | None => prop
    end in
  (* Assessment History Table *)
  _parse_assessment_history text prop.

Definition style_words : string :=
  "((?:TWO|ONE|TRI|BI|SPLIT|RANCH|CAPE|COLONIAL|BUNGALOW)[\w-]*)".

(** [m = re.search(p1, text); if not m: m = re.search(p2, text, flags)] *)
Definition search_else (m : option (list string)) (pattern text : string)
                       (flags : re_flags) : option (list string) :=
  match m with
  | Some _ => m
  | None => re_search pattern text flags
  end.

Definition _parse_page2 (text : string) (prop : PropertyData)
  : result PropertyData :=
  (* Building Style *)
  let m := re_search ("Building\s+Style:\s*" ++ style_words) text NoFlags in
  let m := search_else m ("Single\s+Family\s+" ++ style_words) text IGNORECASE in
  let prop :=
    match m with
    | Some m => set_style (upper (strip (group m 1))) prop
    | None => prop
    end in
  (* Year Built *)
  let m := re_search "(?:Blt|B[Il]t)\s+(\d{4})" text NoFlags in
  let m := search_else m "(\d{4})\s*(?:Actua|Actual)" text NoFlags in
  let m := search_else m "Yr\s+Built.*?(\d{4})" text NoFlags in
  prop <- match m with
          | Some m => y <- int_or_raise (group m 1) ;; Ok (set_year_built y prop)
          | None => Ok prop
          end ;;
  (* Condition *)
  let prop :=
    match re_search "Condition:\s*(\w+)" text NoFlags with
    | Some m => set_condition (capitalize (group m 1)) prop
    | None => prop
    end in
  (* Effective Age *)
  prop <- match re_search "Effec\.\s*Age:\s*(\d+)" text NoFlags with
          | Some m => a <- int_or_raise (group m 1) ;; Ok (set_effective_age a prop)
          | None => Ok prop
          end ;;
  (* Floor Area *)
  let prop :=
    match re_search "Floor\s+Area:\s*(\d[\d,]+)" text NoFlags with
    | Some m => set_floor_area (or0 (_clean_number (group m 1))) prop
    | None => prop
    end in
  (* Ground Area *)
  let prop :=
    match re_search "Ground\s+Area\s*=\s*(\d[\d,]+)\s*SF" text NoFlags with
    | Some m => set_ground_area (or0 (_clean_number (group m 1))) prop
    | None => prop
    end in
  (* Basement SF *)
  let prop :=
    match re_search "Basement:\s*(\d[\d,]+)\s*S\.?F\.?" text NoFlags with
    | Some m => set_basement_sf (or0 (_clean_number (group m 1))) prop
    | None => prop
    end in
  (* Total Base New *)
  let prop :=
    match re_search "Total\s+Base\s+New:\s*([\d,\s]+)" text NoFlags with
    | Some m => set_total_base_new (or0 (_clean_number (group m 1))) prop
    | None => prop
    end in
  (* Total Depr Cost *)
  let prop :=
    match re_search "Total\s+Depr\s+Cost:\s*([\d,\s]+)" text NoFlags with
    | Some m => set_total_depr_cost (or0 (_clean_number (group m 1))) prop
    | None => prop
    end in
  (* ECF: a ValueError of float() is swallowed *)
  let prop :=
    match re_search "(?:E\.?C\.?F\.?|X)\s+(0\.\d{2,4})" text NoFlags with
    | Some m =>
        match py_float (group m 1) with
        | Some x => set_ecf (Some x) prop
        | None => prop
        end
    | None => prop
    end in
  (* Estimated T.C.V. (cost approach) *)
  let prop :=
    match re_search "Estimated\s+T\.?[cC]\.?V\.?:?\s*([\d,\s]+)" text NoFlags with
    | Some m => set_estimated_tcv_cost (or0 (_clean_number (group m 1))) prop
    | None => prop
    end in
  Ok prop.

(** A PDF is represented by what the libraries make of it: [pymupdf.open]
    raises or yields the pages, and rendering a page and running Tesseract
    on it raises or yields its text. *)
Definition page : Type := result string.
Definition pdf : Type := result (list page).

Definition _ocr_page (doc : list page) (page_num : nat) : result string :=
  match nth_error doc page_num with
  | Some pg => pg
  | None => Raise IndexError
  end.

(** The last step of [parse_rc_pdf]: "If SEV wasn't found from history
    table, derive from TCV". *)
Definition derive_sev_from_tcv (prop : PropertyData) : PropertyData :=
  if (sev_2026 prop =? 0) && (tcv_2026 prop >? 0)
  then set_sev_2026 (tcv_2026 prop / 2) prop
  else prop.

Definition parse_rc_pdf (pdf_bytes : pdf) : result PropertyData :=
  let prop := default_PropertyData in
  doc <- pdf_bytes ;;
  prop <- (if (1 <=? List.length doc)%nat
           then text1 <- _ocr_page doc 0 ;;
                _parse_page1 text1 (set_raw_text_page1 text1 prop)
           else Ok prop) ;;
  prop <- (if (2 <=? List.length doc)%nat
           then text2 <- _ocr_page doc 1 ;;
                _parse_page2 text2 (set_raw_text_page2 text2 prop)
           else Ok prop) ;;
  Ok (derive_sev_from_tcv prop).

End Parser.

End RcParser.

(* ================================================================== *)
(** * Tables *)
(* ================================================================== *)

(** A [DataFrame]: the names of its columns and its rows.  The fields of a
    row that belong to a column the frame does not have are not part of
    the table; the functions below never read them. *)
Record frame (R : Type) : Type := mkFrame {
  columns : list string;
  rows : list R
}.

Arguments mkFrame {R} columns rows.
Arguments columns {R} f.
Arguments rows {R} f.

(** [col in df.columns] *)
Definition has_col {R : Type} (col : string) (df : frame R) : bool :=
  existsb (String.eqb col) (columns df).

(** [df[mask]] *)
Definition select {R : Type} (mask : R -> bool) (df : frame R) : frame R :=
  mkFrame (columns df) (filter mask (rows df)).

(** [series == value] on a string column: a missing cell compares unequal. *)
Definition cell_eqb (v : option string) (s : string) : bool :=
  match v with
  | Some x => String.eqb x s
  | None => false
  end.

(** [str(row.get(col, ''))]: the empty string when the frame has no such
    column, ["nan"] for a missing cell. *)
Definition str_get (present : bool) (v : option string) : string :=
  if present then match v with Some s => s | None => "nan" end else EmptyString.

(** Yearly tables, as [pd.read_csv] and [pd.to_numeric(..., errors="coerce")]
    deliver them: a cell of a text column is its string, a cell of a
    numeric column is the number it converts to, [None] otherwise. *)

Module Sales.
Record row : Type := mk {
  ECF_Area : option string;
  Terms_of_Sale : option string;
  Parcel_Number : option string;
  Street_Address : option string;
  Sale_Date : option string;
  Sale_Price : option Q;
  Adj_Sale : option Q;
  _year : Z
}.
End Sales.

Module EcfAnalysis.
Record row : Type := mk {
  ECF_Area_Code : option string;
  ECF_Area : option string;
  Street_Address : option string;
  Parcel_Number : option string;
  Sale_Price : option Q;
  Cost_Man : option Q;
  ECF : option Q;
  _year : Z
}.
End EcfAnalysis.

Module EcfSummaries.
Record row : Type := mk {
  ECF_Area : option string;
  Subdivision : option string;
  Ave_ECF : option Q;
  _year : Z
}.
End EcfSummaries.

Module Land.
Record row : Type := mk {
  ECF_Area : option string;
  Area_Code : option string;
  Land_Value_Prior : option Q;
  Land_Value_Current : option Q;
  _year : Z
}.
End Land.

Module LandAdj.
Record row : Type := mk {
  Area_Code : option string;
  Subdivision : option string;
  Adjust_Factor : option Q;
  _year : Z
}.
End LandAdj.

(** The dict returned by [load_all_data] (without ["all_areas"], which the
    analysis engine does not read). *)
Record Data : Type := mkData {
  sales : list (Z * frame Sales.row);
  ecf_analysis : list (Z * frame EcfAnalysis.row);
  ecf_summaries : list (Z * frame EcfSummaries.row);
  land : list (Z * frame Land.row);
  land_adj : list (Z * frame LandAdj.row)
}.

(* ================================================================== *)
(** * data_loader.py: the cost-factor tables *)
(* ================================================================== *)

Module DataLoader.

Definition YEARS : list Z := [2024; 2025; 2026].

(** [s.str.strip().str.lstrip("'")] on one cell *)
Definition normalize_area (v : option string) : option string :=
  option_map (fun s => lstrip_char "'" (strip s)) v.

(** [series.between(lo, hi)] on one cell: both ends included, a missing
    cell is outside. *)
Definition between (lo hi : Q) (v : option Q) : bool :=
  match v with
  | Some x => Qle_bool lo x && Qle_bool x hi
  | None => false
  end.

(** [df.loc[~df["ECF"].between(0.1, 5.0), "ECF"] = pd.NA] on one cell *)
Definition mask_ecf (v : option Q) : option Q :=
  if negb (between (1 # 10) 5 v) then None else v.

Definition load_ecf_row (year : Z) (norm_code mask : bool) (r : EcfAnalysis.row)
  : EcfAnalysis.row :=
  EcfAnalysis.mk
    (if norm_code then normalize_area (EcfAnalysis.ECF_Area_Code r)
     else EcfAnalysis.ECF_Area_Code r)
    (EcfAnalysis.ECF_Area r)
    (EcfAnalysis.Street_Address r)
    (EcfAnalysis.Parcel_Number r)
    (EcfAnalysis.Sale_Price r)
    (EcfAnalysis.Cost_Man r)
    (if mask then mask_ecf (EcfAnalysis.ECF r) else EcfAnalysis.ECF r)
    year.

(** The body of the loop of [_load_ecf_analysis] for one file. *)
Definition load_ecf_frame (year : Z) (df : frame EcfAnalysis.row)
  : frame EcfAnalysis.row :=
  mkFrame (if has_col "_year" df then columns df else columns df ++ ["_year"])
          (map (load_ecf_row year (has_col "ECF_Area_Code" df) (has_col "ECF" df))
               (rows df)).

(** [read_csv year] is the table of that year's file, [None] when the path
    does not exist. *)
Definition _load_ecf_analysis (read_csv : Z -> option (frame EcfAnalysis.row))
  : list (Z * frame EcfAnalysis.row) :=
  fold_left
    (fun frames year =>
       match read_csv year with
       | None => frames
       | Some df => dict_set Z.eqb year (load_ecf_frame year df) frames
       end)
    YEARS [].

(** [groupby("ECF_Area", as_index=False).agg(Subdivision=first, Ave_ECF=first)]:
    one row per area code, the codes in ascending order, rows without a
    code dropped; [first] is the first non-missing cell of the group. *)
Fixpoint first_some {A R : Type} (f : R -> option A) (l : list R) : option A :=
  match l with
  | [] => None
  | r :: rest => match f r with Some a => Some a | None => first_some f rest end
  end.

Fixpoint distinct (l : list string) : list string :=
  match l with
  | [] => []
  | s :: rest => s :: filter (fun t => negb (String.eqb s t)) (distinct rest)
  end.

Fixpoint somes {A : Type} (l : list (option A)) : list A :=
  match l with
  | [] => []
  | Some a :: rest => a :: somes rest
  | None :: rest => somes rest
  end.

Definition group_first (year : Z) (rs : list EcfSummaries.row)
  : list EcfSummaries.row :=
  map (fun code =>
         let grp := filter (fun r => cell_eqb (EcfSummaries.ECF_Area r) code) rs in
         EcfSummaries.mk (Some code)
                         (first_some EcfSummaries.Subdivision grp)
                         (first_some EcfSummaries.Ave_ECF grp)
                         year)
      (sort String.leb (distinct (somes (map EcfSummaries.ECF_Area rs)))).

(** The body of the loop of [_load_ecf_summaries] for one file. *)
Definition load_summary_frame (year : Z) (df : frame EcfSummaries.row)
  : result (frame EcfSummaries.row) :=
  _ <- require_col "ECF_Area" (columns df) ;;
  _ <- require_col "Ave_ECF" (columns df) ;;
  _ <- require_col "Subdivision" (columns df) ;;
  let rs := map (fun r => EcfSummaries.mk
                            (normalize_area (EcfSummaries.ECF_Area r))
                            (EcfSummaries.Subdivision r)
                            (EcfSummaries.Ave_ECF r)
                            (EcfSummaries._year r))
                (rows df) in
  Ok (mkFrame ["ECF_Area"; "Subdivision"; "Ave_ECF"; "_year"] (group_first year rs)).

Definition _load_ecf_summaries (read_csv : Z -> option (frame EcfSummaries.row))
  : result (list (Z * frame EcfSummaries.row)) :=
  foldM
    (fun year frames =>
       match read_csv year with
       | None => Ok frames
       | Some df =>
           df <- load_summary_frame year df ;;
           Ok (dict_set Z.eqb year df frames)
       end)
    YEARS [].

(** [df[col] = ...] for a column that may be new: a new column goes last. *)
Definition add_col (col : string) (cols : list string) : list string :=
  if existsb (String.eqb col) cols then cols else (cols ++ [col])%list.

Definition numeric_sales_columns : list string :=
  ["Sale_Price"; "Adj_Sale"; "Asd_When_Sold"; "Asd_Adj_Sale"; "Cur_Appraisal"].

(** The body of the loop of [_load_sales] for one file: the area code is
    normalised, a numeric column the file lacks is added with missing
    values in every row, and [_year] is set. *)
Definition load_sales_frame (year : Z) (df : frame Sales.row) : frame Sales.row :=
  mkFrame
    (add_col "_year"
       (fold_left (fun cols col => add_col col cols) numeric_sales_columns (columns df)))
    (map (fun r =>
            Sales.mk
              (if has_col "ECF_Area" df then normalize_area (Sales.ECF_Area r)
               else Sales.ECF_Area r)
              (Sales.Terms_of_Sale r)
              (Sales.Parcel_Number r)
              (Sales.Street_Address r)
              (Sales.Sale_Date r)
              (if has_col "Sale_Price" df then Sales.Sale_Price r else None)
              (if has_col "Adj_Sale" df then Sales.Adj_Sale r else None)
              year)
         (rows df)).

Definition _load_sales (read_csv : Z -> option (frame Sales.row))
  : list (Z * frame Sales.row) :=
  fold_left
    (fun frames year =>
       match read_csv year with
       | None => frames
       | Some df => dict_set Z.eqb year (load_sales_frame year df) frames
       end)
    YEARS [].

End DataLoader.

(* ================================================================== *)
(** * analysis_engine.py: evidence views *)
(* ================================================================== *)

Module AnalysisEngine.

(** Minimum sale price to filter out lot-only sales *)
Definition LOT_ONLY_THRESHOLD : Q := 150000.

(** [pd.notna(v)] *)
Definition notna {A : Type} (v : option A) : bool :=
  match v with Some _ => true | None => false end.

(** ** Cost-factor trend and per-property cost factors *)

(** [df["ECF_Area"]] needs the column in every table; [match.iloc[0]["Ave_ECF"]]
    needs its column in a table that has a row of the area. *)
Definition get_ecf_trend (data : Data) (area_code : string)
  : result (list (Z * option Q)) :=
  foldM
    (fun '(year, df) trend =>
       _ <- require_col "ECF_Area" (columns df) ;;
       let match_ := select (fun r => cell_eqb (EcfSummaries.ECF_Area r) area_code) df in
       match rows match_ with
       | r :: _ =>
           _ <- require_col "Ave_ECF" (columns match_) ;;
           Ok (dict_set Z.eqb year (EcfSummaries.Ave_ECF r) trend)
       | [] => Ok (dict_set Z.eqb year None trend)
       end)
    (ecf_summaries data) [].

(** One dict of the list [get_ecf_properties] returns. *)
Module EcfProperty.
Record t : Type := mk {
  year : Z;
  address : string;
  parcel : string;
  sale_price : option Q;
  cost_man : option Q;
  ecf : option Q
}.
End EcfProperty.

Definition ecf_area_cell (df : frame EcfAnalysis.row) (r : EcfAnalysis.row)
  : option string :=
  if has_col "ECF_Area_Code" df
  then EcfAnalysis.ECF_Area_Code r else EcfAnalysis.ECF_Area r.

(** [row.get(col)] of a numeric column *)
Definition num_get (present : bool) (v : option Q) : option Q :=
  if present then v else None.

Definition ecf_property (year : Z) (df : frame EcfAnalysis.row)
                        (row : EcfAnalysis.row) : EcfProperty.t :=
  EcfProperty.mk year
    (strip (str_get (has_col "Street_Address" df) (EcfAnalysis.Street_Address row)))
    (strip (str_get (has_col "Parcel_Number" df) (EcfAnalysis.Parcel_Number row)))
    (num_get (has_col "Sale_Price" df) (EcfAnalysis.Sale_Price row))
    (num_get (has_col "Cost_Man" df) (EcfAnalysis.Cost_Man row))
    (EcfAnalysis.ECF row).

Definition get_ecf_properties (data : Data) (area_code : string)
  : result (list EcfProperty.t) :=
  foldM
    (fun '(year, df) rows_ =>
       if negb (has_col "ECF_Area_Code" df || has_col "ECF_Area" df)
       then Ok rows_
       else
         let area_df := select (fun r => cell_eqb (ecf_area_cell df r) area_code) df in
         _ <- require_col "ECF" (columns area_df) ;;
         let area_df := select (fun r => notna (EcfAnalysis.ECF r)) area_df in
         Ok (rows_ ++ map (ecf_property year df) (rows area_df))%list)
    (ecf_analysis data) [].

(** ** Subdivision name *)

(** [name = str(row.get("Subdivision", '')).strip()], when
    [name and name != "nan"] *)
Definition proper_name (present : bool) (v : option string) : option string :=
  let name := strip (str_get present v) in
  if nonempty name && negb (String.eqb name "nan") then Some name else None.

(** The name a summary table gives for the area: that of the first row of
    the area, when it is a proper name. *)
Definition summary_name (area_code : string) (df : frame EcfSummaries.row)
  : result (option string) :=
  _ <- require_col "ECF_Area" (columns df) ;;
  Ok (match rows (select (fun r => cell_eqb (EcfSummaries.ECF_Area r) area_code) df) with
      | first :: _ => proper_name (has_col "Subdivision" df) (EcfSummaries.Subdivision first)
      | [] => None
      end).

Definition land_adj_name (area_code : string) (df : frame LandAdj.row)
  : result (option string) :=
  _ <- require_col "Area_Code" (columns df) ;;
  Ok (match rows (select (fun r => cell_eqb (LandAdj.Area_Code r) area_code) df) with
      | first :: _ => proper_name (has_col "Subdivision" df) (LandAdj.Subdivision first)
      | [] => None
      end).

(** [for year in years: if year in tables: ... return name]: the first
    proper name the tables of the given years give, [None] when the loop
    ends without one. *)
Fixpoint search_name {R : Type} (name_of : frame R -> result (option string))
                     (tables : list (Z * frame R)) (years : list Z)
  : result (option string) :=
  match years with
  | [] => Ok None
  | year :: rest =>
      match dict_get Z.eqb year tables with
      | Some df =>
          name <- name_of df ;;
          match name with
          | Some name => Ok (Some name)
          | None => search_name name_of tables rest
          end
      | None => search_name name_of tables rest
      end
  end.

Definition get_subdivision_name (data : Data) (area_code : string) : result string :=
  name <- search_name (summary_name area_code) (ecf_summaries data) [2026; 2025; 2024] ;;
  match name with
  | Some name => Ok name
  | None =>
      (* Try land adjustments *)
      name <- search_name (land_adj_name area_code) (land_adj data) [2026; 2025; 2024] ;;
      Ok (match name with
          | Some name => name
          | None => area_code
          end)
  end.

(** ** Comparable sales *)

(** A row of the frame [get_comparable_sales] returns. *)
Module Comparable.
Record row : Type := mk {
  Parcel_Number : option string;
  Street_Address : option string;
  Sale_Date : option string;
  Sale_Price : option Q;
  Adj_Sale : option Q;
  _year : Z
}.
End Comparable.

Definition comparable_columns : list string :=
  ["Parcel_Number"; "Street_Address"; "Sale_Date"; "Sale_Price"; "Adj_Sale"; "_year"].

Definition project (r : Sales.row) : Comparable.row :=
  Comparable.mk (Sales.Parcel_Number r) (Sales.Street_Address r)
                (Sales.Sale_Date r) (Sales.Sale_Price r) (Sales.Adj_Sale r)
                (Sales._year r).

(** [Terms_of_Sale.str.contains("ARM", na=False, case=False)] on one row *)
Definition arms_length (r : Sales.row) : bool :=
  match Sales.Terms_of_Sale r with
  | Some t => contains "ARM" (upper t)
  | None => false
  end.

(** [Adj_Sale.notna() & (Adj_Sale >= LOT_ONLY_THRESHOLD)] on one row *)
Definition above_threshold (r : Sales.row) : bool :=
  match Sales.Adj_Sale r with
  | Some p => Qle_bool LOT_ONLY_THRESHOLD p
  | None => false
  end.

(** The body of the loop over the yearly tables: the rows appended to
    [all_sales] for one year. *)
Definition year_sales (area_code : string) (df : frame Sales.row)
  : result (list Comparable.row) :=
  if negb (has_col "ECF_Area" df) then Ok []
  else
    let area_df := select (fun r => cell_eqb (Sales.ECF_Area r) area_code) df in
    let area_df :=
      if has_col "Terms_of_Sale" area_df then select arms_length area_df
      else area_df in
    _ <- require_col "Adj_Sale" (columns area_df) ;;
    let area_df := select above_threshold area_df in
    match rows area_df with
    | [] => Ok []
    | _ =>
        _ <- foldM (fun c _ => require_col c (columns area_df)) comparable_columns tt ;;
        Ok (map project (rows area_df))
    end.

(** A calendar date ([pd.Timestamp], normalised to the day). *)
Module Timestamp.
Record t : Type := mk { year : Z; month : Z; day : Z }.
End Timestamp.

Definition digit (n : Z) : ascii := ascii_of_nat (48 + Z.to_nat (n mod 10)).

Definition digits2 (n : Z) : string :=
  String (digit (n / 10)) (String (digit n) EmptyString).

Definition digits4 (n : Z) : string :=
  String (digit (n / 1000)) (String (digit (n / 100)) (digits2 n)).

(** [ts.strftime("%Y-%m-%d")]: four, two and two decimal digits, which is
    what the directives print for every date a Timestamp can hold (its
    years run from 1677 to 2262). *)
Definition strftime (ts : Timestamp.t) : string :=
  digits4 (Timestamp.year ts) ++ "-" ++ digits2 (Timestamp.month ts) ++ "-"
    ++ digits2 (Timestamp.day ts).

(** Equality of two cells of [_dedup_key]; missing keys count as equal. *)
Definition key_eqb (a b : option string) : bool :=
  match a, b with
  | Some x, Some y => String.eqb x y
  | None, None => true
  | _, _ => false
  end.

(** [drop_duplicates(subset="_dedup_key", keep="last")] on rows paired with
    their key. *)
Fixpoint drop_duplicates_last {R : Type} (l : list (option string * R))
  : list (option string * R) :=
  match l with
  | [] => []
  | (k, r) :: rest =>
      if existsb (fun kr => key_eqb k (fst kr)) rest
      then drop_duplicates_last rest
      else (k, r) :: drop_duplicates_last rest
  end.

(** The order of [sort_values("Sale_Date", ascending=False)]: the strings in
    descending order, missing dates last. *)
Definition date_desc (a b : Comparable.row) : bool :=
  match Comparable.Sale_Date a, Comparable.Sale_Date b with
  | Some x, Some y => String.leb y x
  | Some _, None => true
  | None, Some _ => false
  | None, None => true
  end.

Section ComparableSales.

(** [pd.to_datetime(s, format="mixed", dayfirst=False)] on one string:
    library code; [None] stands for the exception it raises on a string it
    cannot read. *)
Variable to_datetime : string -> option Timestamp.t.

Definition norm_date (r : Comparable.row) : result (option string) :=
  match Comparable.Sale_Date r with
  | None => Ok None
  | Some s =>
      match to_datetime s with
      | Some ts => Ok (Some (strftime ts))
      | None => Raise ValueError
      end
  end.

Definition dedup_key (r : Comparable.row) : result (option string * Comparable.row) :=
  d <- norm_date r ;;
  Ok (match Comparable.Parcel_Number r, d with
      | Some p, Some d => Some (strip p ++ "_" ++ d)
      | _, _ => None
      end, r).

(** Rows with equal [Sale_Date] keep their relative order here; pandas does
    not fix the order of such ties. *)
Definition get_comparable_sales (data : Data) (area_code : string)
  : result (frame Comparable.row) :=
  all_sales <- mapM (fun '(year, df) => year_sales area_code df) (sales data) ;;
  match List.concat all_sales with
  | [] => Ok (mkFrame [] [])
  | result_ =>
      keyed <- mapM dedup_key result_ ;;
      let result_ := map snd (drop_duplicates_last keyed) in
      Ok (mkFrame comparable_columns (sort date_desc result_))
  end.

End ComparableSales.

(** ** Sales statistics *)

Module SalesStats.
Record t : Type := mk {
  count : Z;
  mean : Q;
  median : Q;
  min : Q;
  max : Q;
  pct_below_tcv : Q;
  pct_above_tcv : Q;
  delta_from_median : Q;
  delta_pct : Q
}.
End SalesStats.

(** The dict [compute_sales_stats] returns: [{"count": 0}] alone; or, for a
    frame whose prices are all missing, a count of 0 with NaN statistics,
    [pct_below_tcv] 0, [pct_above_tcv] 100 and [delta_pct] 0; or the full
    statistics. *)
Inductive sales_stats : Type :=
| CountOnly
| AllMissing
| Stats (s : SalesStats.t).

(** [sales_stats.get("count", 0)] *)
Definition stats_count (st : sales_stats) : Z :=
  match st with
  | Stats s => SalesStats.count s
  | _ => 0
  end.

(** [sales_stats["pct_below_tcv"]] and [sales_stats["pct_above_tcv"]],
    [None] where the dict has no such key. *)
Definition stats_pct_below (st : sales_stats) : option Q :=
  match st with
  | CountOnly => None
  | AllMissing => Some 0%Q
  | Stats s => Some (SalesStats.pct_below_tcv s)
  end.

Definition stats_pct_above (st : sales_stats) : option Q :=
  match st with
  | CountOnly => None
  | AllMissing => Some (100 - 0)%Q
  | Stats s => Some (SalesStats.pct_above_tcv s)
  end.

Definition Qmin_list (first : Q) (l : list Q) : Q :=
  fold_left (fun m x => if Qltb x m then x else m) l first.

Definition Qmax_list (first : Q) (l : list Q) : Q :=
  fold_left (fun m x => if Qltb m x then x else m) l first.

(** [Series.median()]: the middle of the sorted values; for an even number
    of them the binary64 mean of the two middle values. *)
Definition median (vals : list Q) : Q :=
  let s := sort Qle_bool vals in
  let n := List.length s in
  if Nat.even n
  then F64.div (F64.add (nth (n / 2 - 1) s 0%Q) (nth (n / 2) s 0%Q)) 2
  else nth (n / 2) s 0%Q.

(** [df.empty] *)
Definition empty {R : Type} (df : frame R) : bool :=
  match rows df, columns df with
  | [], _ => true
  | _, [] => true
  | _, _ => false
  end.

Section SalesStatistics.

(** [Series.mean()] is pandas code: the binary64 sum it divides by the
    count is accumulated in an order that depends on the installed
    libraries (left to right, or pairwise), so the mean of a list of
    prices is a parameter. *)
Variable series_mean : list Q -> Q.

Definition compute_sales_stats (sales_df : frame Comparable.row) (user_tcv : Q)
  : result sales_stats :=
  if empty sales_df then Ok CountOnly
  else
    _ <- require_col "Adj_Sale" (columns sales_df) ;;
    let prices := DataLoader.somes (map Comparable.Adj_Sale (rows sales_df)) in
    match prices with
    | [] => Ok AllMissing
    | p0 :: ps =>
        let count := Z.of_nat (List.length prices) in
        let mean := series_mean prices in
        let median := median prices in
        let min_price := Qmin_list p0 ps in
        let max_price := Qmax_list p0 ps in
        let below := Z.of_nat (List.length (filter (fun p => Qltb p user_tcv) prices)) in
        let pct_below_tcv :=
          F64.mul (F64.div (F64.of_Z below) (F64.of_Z count)) 100 in
        Ok (Stats (SalesStats.mk
              count mean median min_price max_price
              pct_below_tcv
              (F64.sub 100 pct_below_tcv)
              (F64.sub user_tcv median)
              (if Qltb 0 median
               then F64.mul (F64.div (F64.sub user_tcv median) median) 100
               else 0%Q)))
    end.

End SalesStatistics.

(** ** Land-value trend *)

Module LandTrend.
Record t : Type := mk {
  year : Z;
  adjust_factor : option Q;
  prior_lv : option Q;
  current_lv : option Q
}.
End LandTrend.

Fixpoint nodup_Q (l : list Q) : list Q :=
  match l with
  | [] => []
  | x :: rest => x :: filter (fun y => negb (Qeq_bool x y)) (nodup_Q rest)
  end.

Definition occurrences (x : Q) (l : list Q) : nat :=
  List.length (filter (Qeq_bool x) l).

(** [Series.mode()]: every value of the highest frequency, in ascending
    order. *)
Definition mode (vals : list Q) : list Q :=
  let best := fold_right Nat.max 0%nat (map (fun x => occurrences x vals) vals) in
  sort Qle_bool (nodup_Q (filter (fun x => (occurrences x vals =? best)%nat) vals)).

(** [float(vals.mode().iloc[0]) if len(vals.mode()) > 0 else float(vals.median())] *)
Definition mode_or_median (vals : list Q) : Q :=
  match mode vals with
  | m :: _ => m
  | [] => median vals
  end.

(** The value reported for one land-value column: [None] unless the column
    exists and has a value for the area. *)
Definition land_value_of (present : bool) (cells : list (option Q)) : option Q :=
  if present
  then match DataLoader.somes cells with
       | [] => None
       | vals => Some (mode_or_median vals)
       end
  else None.

(** [land_df[mask]] for the rows of the area.  Without an [Area_Code] and
    without an [ECF_Area] column the mask is an empty Series, which pandas
    cannot align with a frame that has rows. *)
Definition land_area_rows (land_df : frame Land.row) (area_code : string)
  : result (frame Land.row) :=
  if has_col "Area_Code" land_df
  then Ok (select (fun r => cell_eqb (option_map strip (Land.Area_Code r)) area_code)
                  land_df)
  else if has_col "ECF_Area" land_df
  then Ok (select (fun r => cell_eqb (option_map strip (Land.ECF_Area r)) area_code)
                  land_df)
  else match rows land_df with
       | [] => Ok land_df
       | _ => Raise IndexingError
       end.

Definition land_trend_step (data : Data) (area_code : string) (year : Z)
                           (rows_ : list LandTrend.t) : result (list LandTrend.t) :=
  match dict_get Z.eqb year (land_adj data) with
  | None => Ok rows_
  | Some df =>
      _ <- require_col "Area_Code" (columns df) ;;
      let match_ := select (fun r => cell_eqb (LandAdj.Area_Code r) area_code) df in
      match rows match_ with
      | [] => Ok rows_
      | first :: _ =>
          let factor := num_get (has_col "Adjust_Factor" df) (LandAdj.Adjust_Factor first) in
          lv <- match dict_get Z.eqb year (land data) with
                | None => Ok (None, None)
                | Some land_df =>
                    land_area <- land_area_rows land_df area_code ;;
                    match rows land_area with
                    | [] => Ok (None, None)
                    | rs =>
                        Ok (land_value_of (has_col "Land_Value_Prior" land_area)
                                          (map Land.Land_Value_Prior rs),
                            land_value_of (has_col "Land_Value_Current" land_area)
                                          (map Land.Land_Value_Current rs))
                    end
                end ;;
          Ok (rows_ ++ [LandTrend.mk year factor (fst lv) (snd lv)])%list
      end
  end.

Definition get_land_value_trends (data : Data) (area_code : string)
  : result (list LandTrend.t) :=
  foldM (land_trend_step data area_code) [2024; 2025; 2026] [].

(** ** Sales-study coverage *)

Definition check_sales_coverage (data : Data) (area_code : string) : list (Z * Z) :=
  fold_left
    (fun coverage '(year, df) =>
       if negb (has_col "ECF_Area" df)
       then dict_set Z.eqb year 0 coverage
       else
         let count := List.length
                        (filter (fun r => cell_eqb (Sales.ECF_Area r) area_code) (rows df)) in
         dict_set Z.eqb year (Z.of_nat count) coverage)
    (sales data) [].

(** ** Valuation *)

Definition compute_ecf_adjusted_value (ecf : option Q) (user_tcv : Q) : option Q :=
  match ecf with
  | None => None
  | Some e => if Qle_bool e 0 then None else Some (F64.mul user_tcv e)
  end.

Definition get_overvaluation_pct (ecf : option Q) : option Q :=
  match ecf with
  | None => None
  | Some e => if Qle_bool 1 e then None else Some (F64.mul (F64.sub 1 e) 100)
  end.

(** [max(candidates)]: the first of the largest elements. *)
Definition py_max (first : Q) (rest : list Q) : Q := Qmax_list first rest.

(** [user_tcv * ecf_2026], when [ecf_2026 is not None and ecf_2026 < 1.0] *)
Definition ecf_candidate (ecf_2026 : option Q) (user_tcv : Q) : option Q :=
  match ecf_2026 with
  | Some e => if Qltb e 1 then Some (F64.mul user_tcv e) else None
  | None => None
  end.

(** The statistics, when [sales_stats.get("count", 0) > 0] *)
Definition with_sales (st : sales_stats) : option SalesStats.t :=
  match st with
  | Stats s => if 0 <? SalesStats.count s then Some s else None
  | _ => None
  end.

Definition candidates (ecf_2026 : option Q) (user_tcv : Q) (st : sales_stats)
  : list Q :=
  ((match ecf_candidate ecf_2026 user_tcv with
    | Some v => [v]
    | None => []
    end) ++
   (match with_sales st with
    | Some s => [SalesStats.median s; SalesStats.mean s]
    | None => []
    end))%list.

Definition _compute_recommended_values (ecf_2026 : option Q) (user_tcv : Q)
                                       (st : sales_stats) : Q * Q :=
  match candidates ecf_2026 user_tcv st with
  | [] => (user_tcv, user_tcv)
  | c :: cs =>
      let primary :=
        match with_sales st with
        | Some s => SalesStats.median s
        | None =>
            match ecf_candidate ecf_2026 user_tcv with
            | Some v => v
            | None => user_tcv
            end
        end in
      (primary, py_max c cs)
  end.

(** ** Petition composer *)

Import RcParser.

Local Infix "+++" := (@List.app string) (right associativity, at level 60).

(** [f"{x:,.0f}"], [f"{x:.3f}"], [f"{x:.1f}"] *)
Definition money (x : Q) : string := fmt_f false true 0 x.
Definition fmt3 (x : Q) : string := fmt_f false false 3 x.
Definition fmt1 (x : Q) : string := fmt_f false false 1 x.

Definition eq_rule : string := repeat_char "=" 70.
Definition dash_rule : string := repeat_char "-" 70.

(** The value of a float-or-None expression where it is truthy. *)
Definition truthy (v : option Q) : option Q :=
  match v with
  | Some x => if Qeq_bool x 0 then None else Some x
  | None => None
  end.

(** [prop.address], when [prop and prop.address] *)
Definition prop_address (prop : option PropertyData) : option string :=
  match prop with
  | Some p => if nonempty (address p) then Some (address p) else None
  | None => None
  end.

(** [ecf_trend.get(2026)] *)
Definition trend_get (year : Z) (ecf_trend : list (Z * option Q)) : option Q :=
  match dict_get Z.eqb year ecf_trend with
  | Some v => v
  | None => None
  end.

(** [user_tcv * ecf_2026 if ecf_2026 and ecf_2026 < 1.0 else None] *)
Definition ecf_adjusted_of (ecf_2026 : option Q) (user_tcv : Q) : option Q :=
  match truthy ecf_2026 with
  | Some e => if Qltb e 1 then Some (F64.mul user_tcv e) else None
  | None => None
  end.

(** [round(rec_low / 2 / 5000) * 5000]: two binary64 divisions, [round] to
    an [int], and an exact [int] product. *)
Definition round_to_5000 (rec_low : Q) : Z :=
  round_half_even (F64.div (F64.div rec_low 2) 5000) * 5000.

Section Composer.

Variables (area_code subdivision : string) (user_sev : Q).
Variables (ecf_trend : list (Z * option Q)) (st : sales_stats).
Variables (land_trends : list LandTrend.t).
Variables (ecf_properties : list EcfProperty.t).
Variables (sales_df : option (frame Comparable.row)) (prop : option PropertyData).

(** [user_sev * 2]: doubling a binary64 value (or an [int]) is exact. *)
Definition user_tcv : Q := (user_sev * 2)%Q.
Definition ecf_2026 : option Q := trend_get 2026 ecf_trend.
Definition ecf_adjusted : option Q := ecf_adjusted_of ecf_2026 user_tcv.
Definition rec_low : Q := fst (_compute_recommended_values ecf_2026 user_tcv st).
Definition rec_sev : Z := round_to_5000 rec_low.
Definition rec_tcv : Z := rec_sev * 2.

(** [rec_sev >= user_sev] *)
Definition no_appeal : bool := Qle_bool user_sev (inject_Z rec_sev).

(** The lines of the short form (the branch [if no_appeal:]). *)
Definition not_recommended_lines : list string :=
  [ eq_rule;
    "APPEAL ANALYSIS — NOT RECOMMENDED";
    eq_rule;
    EmptyString ] +++
  match prop_address prop with
  | Some a => ["Property:  " ++ a]
  | None => []
  end +++
  [ "Area:      " ++ area_code ++ " (" ++ subdivision ++ ")";
    "Your SEV:  $" ++ money user_sev ++ "  (TCV: $" ++ money user_tcv ++ ")";
    EmptyString;
    "Based on the available evidence, an appeal is NOT recommended";
    "for this property. The current assessment appears to be at or";
    "below market value:";
    EmptyString ] +++
  match with_sales st with
  | Some s =>
      [ "  - Median of " ++ str_Z (SalesStats.count s) ++ " comparable sales: $"
          ++ money (SalesStats.median s);
        "  - Average of " ++ str_Z (SalesStats.count s) ++ " comparable sales: $"
          ++ money (SalesStats.mean s) ]
  | None => []
  end +++
  match ecf_2026, truthy ecf_adjusted with
  | Some e, Some a =>
      [ "  - ECF-adjusted value (ECF=" ++ fmt3 e ++ "):   $" ++ money a ]
  | _, _ => []
  end +++
  [ "  - Your current TCV:                      $" ++ money user_tcv;
    EmptyString ] +++
  match with_sales st with
  | Some s =>
      if Qle_bool user_tcv (SalesStats.median s)
      then
        [ "The median sale price ($" ++ money (SalesStats.median s)
            ++ ") is at or above your";
          "TCV ($" ++ money user_tcv ++ "), meaning comparable sales support the current";
          "assessment. The Board of Review is unlikely to grant a reduction." ]
      else
        match ecf_2026, truthy ecf_adjusted with
        | Some e, Some a =>
            if Qltb a user_tcv
            then
              [ "While the ECF (" ++ fmt3 e ++ ") suggests some overvaluation, the median";
                "sale price ($" ++ money (SalesStats.median s)
                  ++ ") supports the current assessment.";
                "An ECF-only argument would be aggressive and may not succeed." ]
            else []
        | _, _ => []
        end
  | None => []
  end +++
  [ EmptyString; eq_rule ].

Definition header_lines : list string :=
  [ "PETITION TO THE BOARD OF REVIEW";
    "Pittsfield Charter Township, Washtenaw County, Michigan";
    "Tax Year 2026";
    EmptyString ].

Definition property_information_lines : list string :=
  [ eq_rule; "PROPERTY INFORMATION"; eq_rule ] +++
  match prop with
  | Some p =>
      (if nonempty (parcel_number p)
       then ["Parcel Number:    " ++ parcel_number p] else []) +++
      (if nonempty (address p)
       then ["Property Address: " ++ address p ++ ", Ypsilanti, MI 48197"] else [])
  | None => []
  end +++
  [ "Township:         Pittsfield Charter Township";
    "County:           Washtenaw";
    "School District:  Ann Arbor Public Schools";
    "Classification:   Residential (401)";
    "ECF Area:         " ++ area_code ++ " (" ++ subdivision ++ ")" ] +++
  match prop with
  | Some p =>
      let details :=
        (if nonempty (style p) then [style p] else []) +++
        (if negb (year_built p =? 0) then ["Built " ++ str_Z (year_built p)] else []) +++
        (if negb (floor_area p =? 0) then [fmt_int_comma (floor_area p) ++ " SF"] else []) in
      match details with
      | [] => []
      | _ => ["Property:         " ++ join ", " details]
      end
  | None => []
  end +++
  [ EmptyString ].

(** [taxable]: the taxable value of the first 2026 row of the history,
    when it is not zero. *)
Definition taxable_2026 : option Z :=
  match prop with
  | Some p =>
      match find (fun h => AssessmentYear.year h =? 2026) (assessment_history p) with
      | Some h2026 =>
          match AssessmentYear.taxable_value h2026 with
          | Some t => if t =? 0 then None else Some t
          | None => None
          end
      | None => None
      end
  | None => None
  end.

Definition assessment_values_lines : list string :=
  [ eq_rule; "ASSESSMENT VALUES"; eq_rule;
    ljust 30 EmptyString ++ " " ++ rjust 14 "Current 2026" ++ "  " ++ rjust 14 "Petitioner"
      ++ "  " ++ rjust 14 "Difference";
    repeat_char "-" 30 ++ " " ++ repeat_char "-" 14 ++ "  " ++ repeat_char "-" 14
      ++ "  " ++ repeat_char "-" 14;
    ljust 30 "Assessed Value (SEV)" ++ " $" ++ rjust 13 (money user_sev)
      ++ "  $" ++ rjust 13 (money (F64.of_Z rec_sev))
      ++ "  $" ++ rjust 13 (fmt_f true true 0
                           (F64.sub (F64.of_Z rec_sev) user_sev));
    ljust 30 "True Cash Value (TCV)" ++ " $" ++ rjust 13 (money user_tcv)
      ++ "  $" ++ rjust 13 (money (F64.of_Z rec_tcv))
      ++ "  $" ++ rjust 13 (fmt_f true true 0
                           (F64.sub (F64.of_Z rec_tcv) user_tcv)) ] +++
  match taxable_2026 with
  | Some taxable =>
      [ ljust 30 "Taxable Value" ++ " $" ++ rjust 13 (money (inject_Z taxable))
          ++ "  $" ++ rjust 13 (money (inject_Z taxable))
          ++ "  $" ++ rjust 13 "0" ]
  | None => []
  end +++
  [ EmptyString ].

Definition grounds_lines : list string :=
  [ eq_rule; "GROUNDS FOR APPEAL"; eq_rule;
    "The petitioner contends that the 2026 assessed value of $" ++ money user_sev;
    "(implying a True Cash Value of $" ++ money user_tcv ++ ") exceeds the usual selling";
    "price for comparable properties in the " ++ subdivision ++ " subdivision ("
      ++ area_code ++ ")";
    "and surrounding area. The petitioner requests a reduction to an assessed";
    "value of $" ++ money (F64.of_Z rec_sev) ++ " (TCV of $" ++ money (F64.of_Z rec_tcv)
      ++ "), supported by the following";
    "evidence from the township's own records and market data.";
    EmptyString ].

(** One line per year of the trend, the years in ascending order. *)
Definition trend_year_line (year : Z) : string :=
  match trend_get year ecf_trend with
  | Some val =>
      "  - " ++ str_Z year ++ " ECF: " ++ fmt3 val ++ " (cost exceeds market by "
        ++ fmt1 (F64.mul (F64.sub 1 val) 100) ++ "%)"
  | None => "  - " ++ str_Z year ++ " ECF: Not available (area not in study)"
  end.

(** EVIDENCE 1: ECF DATA.  Formatting [ecf_adjusted] when it is [None] (a
    cost factor of exactly 0) raises [TypeError]. *)
Definition ecf_evidence_lines (evidence_num : Z) : result (list string) :=
  match ecf_2026 with
  | None => Ok []
  | Some e =>
      body <-
        (if Qltb e 1
         then
           match ecf_adjusted with
           | None => Raise TypeError
           | Some a =>
               Ok ([ "The township's own Economic Condition Factor (ECF) for "
                       ++ area_code ++ " is";
                     fmt3 e ++ " (2026), meaning the cost-approach valuations used by the";
                     "assessor EXCEED actual market sale prices by approximately "
                       ++ fmt1 (F64.mul (F64.sub 1 e) 100) ++ "%.";
                     "This has been consistent across available assessment years:";
                     EmptyString ] +++
                   map trend_year_line (sort Z.leb (map fst ecf_trend)) +++
                   [ EmptyString;
                     "The ECF is calculated from the township's own analysis of actual arm's-";
                     "length sales compared to cost-approach values, confirming a systematic";
                     "pattern of over-assessment in this subdivision.";
                     EmptyString;
                     "Applying the ECF to the current assessment:";
                     "  TCV × ECF = ECF-Adjusted TCV";
                     "  $" ++ money user_tcv ++ " × " ++ fmt3 e ++ " = $" ++ money a;
                     "  Implied over-assessment: $" ++ money (F64.sub user_tcv a) ])
           end
         else
           Ok [ "The ECF for " ++ area_code ++ " is " ++ fmt3 e
                  ++ " (at or above 1.0), indicating";
                "the cost approach does not systematically overvalue properties in this";
                "area based on the township's own analysis." ]) ;;
      Ok ([ dash_rule;
            "EVIDENCE " ++ str_Z evidence_num ++ ": TOWNSHIP ECF DATA "
              ++ (if Qltb e 1 then "CONFIRMS OVER-ASSESSMENT" else "ANALYSIS");
            dash_rule ] +++ body +++ [ EmptyString ])
  end.

(** [ecf_lookup]: address (upper case) -> year -> cost factor. *)
Definition ecf_lookup : list (string * list (Z * Q)) :=
  fold_left
    (fun lookup ep =>
       let addr_key := upper (strip (EcfProperty.address ep)) in
       let lookup :=
         if dict_mem String.eqb addr_key lookup then lookup
         else dict_set String.eqb addr_key [] lookup in
       match EcfProperty.ecf ep with
       | Some e =>
           let inner := match dict_get String.eqb addr_key lookup with
                        | Some d => d
                        | None => []
                        end in
           dict_set String.eqb addr_key
                    (dict_set Z.eqb (EcfProperty.year ep) e inner) lookup
       | None => lookup
       end)
    ecf_properties [].

(** [f"{prop_ecfs[y]:.3f}" if y in prop_ecfs else "   -  "] *)
Definition ecf_cell (prop_ecfs : list (Z * Q)) (year : Z) : string :=
  match dict_get Z.eqb year prop_ecfs with
  | Some e => fmt3 e
  | None => "   -  "
  end.

(** The line of one sale in the table of individual sales; no line for a
    missing price. *)
Definition sale_line (df : frame Comparable.row) (row : Comparable.row)
  : list string :=
  let addr := strip (str_get (has_col "Street_Address" df)
                             (Comparable.Street_Address row)) in
  let addr_display := take 28 addr in
  let addr_key := upper addr in
  let price := num_get (has_col "Adj_Sale" df) (Comparable.Adj_Sale row) in
  let date := take 12 (strip (str_get (has_col "Sale_Date" df)
                                      (Comparable.Sale_Date row))) in
  match price with
  | Some price =>
      let diff := F64.sub price user_tcv in
      let diff_str := "$" ++ fmt_f true true 0 diff in
      let prop_ecfs := match dict_get String.eqb addr_key ecf_lookup with
                       | Some d => d
                       | None => []
                       end in
      let e26 := ecf_cell prop_ecfs 2026 in
      let e25 := ecf_cell prop_ecfs 2025 in
      let e24 := ecf_cell prop_ecfs 2024 in
      [ "  " ++ ljust 28 addr_display ++ " $" ++ rjust 11 (money price) ++ " "
          ++ rjust 12 date ++ " " ++ rjust 12 diff_str ++ " " ++ rjust 7 e26 ++ " "
          ++ rjust 7 e25 ++ " " ++ rjust 7 e24 ]
  | None => []
  end.

Definition sales_table_lines : list string :=
  match sales_df with
  | Some df =>
      if empty df then []
      else
        [ "  " ++ ljust 28 "Address" ++ " " ++ rjust 12 "Sale Price" ++ " "
            ++ rjust 12 "Date" ++ " " ++ rjust 12 "vs TCV" ++ " " ++ rjust 7 "ECF 26"
            ++ " " ++ rjust 7 "ECF 25" ++ " " ++ rjust 7 "ECF 24";
          "  " ++ repeat_char "-" 28 ++ " " ++ repeat_char "-" 12 ++ " "
            ++ repeat_char "-" 12 ++ " " ++ repeat_char "-" 12 ++ " "
            ++ repeat_char "-" 7 ++ " " ++ repeat_char "-" 7 ++ " "
            ++ repeat_char "-" 7 ] +++
        flat_map (sale_line df) (rows df) +++
        [ EmptyString ]
  | None => []
  end.

(** EVIDENCE 2: COMPARABLE SALES *)
Definition sales_evidence_lines (evidence_num : Z) : list string :=
  match with_sales st with
  | None => []
  | Some s =>
      let count := SalesStats.count s in
      let median := SalesStats.median s in
      let mean := SalesStats.mean s in
      let pct_below := SalesStats.pct_below_tcv s in
      let below_count := trunc (F64.div (F64.mul (F64.of_Z count) pct_below) 100) in
      let above_median := Qltb 0 (SalesStats.delta_from_median s) in
      [ dash_rule;
        "EVIDENCE " ++ str_Z evidence_num ++ ": COMPARABLE SALES ANALYSIS";
        dash_rule ] +++
      (if above_median
       then
         [ "The assessed TCV of $" ++ money user_tcv ++ " exceeds the median sale price of";
           "comparable arm's-length sales in " ++ area_code ++ ". Of " ++ str_Z count
             ++ " comparable sales";
           "identified across the 2024-2026 assessment data, " ++ str_Z below_count
             ++ " (" ++ fmt_f false false 0 pct_below ++ "%)";
           "sold BELOW the assessed TCV." ]
       else
         [ "Analysis of " ++ str_Z count ++ " arm's-length sales in " ++ area_code
             ++ " from the 2024-2026";
           "assessment data:" ]) +++
      [ EmptyString ] +++
      sales_table_lines +++
      [ "  Summary Statistics:";
        "  - Number of sales:       " ++ str_Z count;
        "  - Median sale price:     $" ++ money median;
        "  - Average sale price:    $" ++ money mean;
        "  - Price range:           $" ++ money (SalesStats.min s) ++ " - $"
          ++ money (SalesStats.max s) ] +++
      (if above_median
       then
         [ "  - Your TCV vs median:    +$" ++ money (SalesStats.delta_from_median s)
             ++ " (" ++ fmt1 (SalesStats.delta_pct s) ++ "% above)";
           "  - Sales below your TCV:  " ++ str_Z below_count ++ " of " ++ str_Z count
             ++ " (" ++ fmt_f false false 0 pct_below ++ "%)" ]
       else []) +++
      [ EmptyString ] +++
      (if above_median
       then
         [ "The average sale price of $" ++ money mean ++ " is $"
             ++ money (F64.sub user_tcv mean) ++ " below the";
           "assessed TCV of $" ++ money user_tcv ++ "." ]
       else []) +++
      [ EmptyString ]
  end.

(** The loop over [land_trends]: [first_lv], [last_lv] and the lines. *)
Definition land_step (acc : option Q * option Q * list string) (lt : LandTrend.t)
  : option Q * option Q * list string :=
  let '(first_lv, last_lv, L) := acc in
  let factor := LandTrend.adjust_factor lt in
  let current := truthy (LandTrend.current_lv lt) in
  let prior := truthy (LandTrend.prior_lv lt) in
  let first_lv := match prior, first_lv with
                  | Some p, None => Some p
                  | _, _ => first_lv
                  end in
  let last_lv := match current with
                 | Some c => Some c
                 | None => last_lv
                 end in
  let line :=
    match factor, current with
    | Some f, _ =>
        let pct := F64.mul (F64.sub f 1) 100 in
        let current_str := match current with
                           | Some c => "$" ++ money c
                           | None => "N/A"
                           end in
        [ "  - " ++ str_Z (LandTrend.year lt) ++ " Land Value: " ++ current_str
            ++ " (Adjustment Factor: " ++ fmt_f false false 4 f ++ ", "
            ++ fmt_f true false 1 pct ++ "%)" ]
    | None, Some c =>
        [ "  - " ++ str_Z (LandTrend.year lt) ++ " Land Value: $" ++ money c ]
    | None, None => []
    end in
  (first_lv, last_lv, L +++ line).

(** EVIDENCE 3: LAND VALUE TRENDS *)
Definition land_evidence_lines (evidence_num : Z) : list string :=
  match land_trends with
  | [] => []
  | _ =>
      let '(first_lv, last_lv, L) := fold_left land_step land_trends (None, None, []) in
      [ dash_rule;
        "EVIDENCE " ++ str_Z evidence_num ++ ": LAND VALUE TREND";
        dash_rule;
        "The " ++ area_code ++ " land values have changed as follows over 3 years:";
        EmptyString ] +++
      L +++
      match first_lv, last_lv with
      | Some f, Some l =>
          if Qltb 0 f
          then
            let total_pct := F64.mul (F64.div (F64.sub l f) f) 100 in
            [ EmptyString;
              "  Total land value change: $" ++ money f ++ " -> $" ++ money l ++ " ("
                ++ fmt_f true false 1 total_pct ++ "%)" ]
          else []
      | _, _ => []
      end +++
      match truthy ecf_2026 with
      | Some e =>
          if Qltb e 1
          then
            [ EmptyString;
              "  While land values have increased, the ECF data shows that building";
              "  cost valuations consistently exceed market. The combined effect";
              "  produces assessments that overstate actual market conditions." ]
          else []
      | None => []
      end +++
      [ EmptyString ]
  end.

Definition conclusion_lines : list string :=
  let arguments :=
    match truthy ecf_2026 with
    | Some e =>
        if Qltb e 1
        then [ "the township's own ECF analysis confirming systematic over-assessment "
                 ++ "in " ++ area_code ++ " (ECF = " ++ fmt3 e ++ ")" ]
        else []
    | None => []
    end +++
    match with_sales st with
    | Some s =>
        if Qltb 0 (SalesStats.delta_from_median s)
        then [ "comparable sales evidence showing a median price of $"
                 ++ money (SalesStats.median s) ++ " "
                 ++ "and an average of $" ++ money (SalesStats.mean s) ]
        else []
    | None => []
    end in
  [ eq_rule; "CONCLUSION AND REQUESTED RELIEF"; eq_rule;
    "Based on " ++ match arguments with
                   | [] => "the evidence presented above"
                   | _ => join ", " arguments
                   end ++ ",";
    "the petitioner respectfully requests that the Board of Review reduce the";
    "2026 assessed value from $" ++ money user_sev ++ " to $" ++ money (F64.of_Z rec_sev)
      ++ ", reflecting a";
    "True Cash Value of $" ++ money (F64.of_Z (rec_sev * 2)) ++ ".";
    EmptyString;
    "This value is consistent with:" ] +++
  match with_sales st with
  | Some s =>
      [ "  - The average of " ++ str_Z (SalesStats.count s)
          ++ " comparable arm's-length sales ($" ++ money (SalesStats.mean s) ++ ")" ]
  | None => []
  end +++
  match truthy ecf_adjusted with
  | Some a => [ "  - The township's own ECF-adjusted cost approach ($" ++ money a ++ ")" ]
  | None => []
  end +++
  [ "  - The sales-comparison approach, which is the most persuasive valuation";
    "    method for residential property under Michigan law";
    "    (Meadowlanes Ltd v Holland, 437 Mich 473)";
    EmptyString ].

Definition legal_basis_lines : list string :=
  [ dash_rule; "LEGAL BASIS"; dash_rule;
    "Under MCL 211.27(1), true cash value means the usual selling price.";
    "There is no presumption of validity for the assessor's value";
    "(Alhi Development Co v Orion Twp, 110 Mich App 764, 1981).";
    "The sales-comparison approach is the most persuasive valuation method";
    "for residential property (Meadowlanes Ltd v Holland, 437 Mich 473).";
    EmptyString ].

Definition petitioner_lines : list string :=
  [ eq_rule; "PETITIONER"; eq_rule;
    EmptyString;
    "Signature: ____________________________    Date: ___/___/2026";
    EmptyString ] +++
  match prop_address prop with
  | Some a =>
      [ "Printed Name: _________________________";
        "Address: " ++ a ++ ", Ypsilanti, MI 48197" ]
  | None =>
      [ "Printed Name: _________________________";
        "Address: _____________________________" ]
  end +++
  [ "Phone: ________________________________";
    "Email: ________________________________";
    EmptyString ].

Definition footer_lines : list string :=
  [ dash_rule;
    "Note: This petition is submitted pursuant to MCL 211.30 and the General";
    "Property Tax Act. The petitioner requests that the Board of Review";
    "consider this written petition in lieu of a personal appearance, per";
    "MCL 211.30(4).";
    EmptyString;
    "Data source: Pittsfield Township official assessment documents (2024-2026)";
    "Available at: pittsfield-mi.gov/2230/Property-Assessment-Data";
    EmptyString;
    "APPEAL DEADLINE: March 10, 2026 at 5:00 PM";
    "Location: 6201 W. Michigan Ave, Ann Arbor, MI 48108";
    "Phone: 734-822-3115 | Email: assessing@pittsfield-mi.gov" ].

(** The lines of the long form, with [evidence_num] counting the evidence
    sections that are present. *)
Definition petition_lines : result (list string) :=
  let evidence_num := 1 in
  ecf_ev <- ecf_evidence_lines evidence_num ;;
  let evidence_num := if notna ecf_2026 then evidence_num + 1 else evidence_num in
  let sales_ev := sales_evidence_lines evidence_num in
  let evidence_num := if notna (with_sales st) then evidence_num + 1 else evidence_num in
  let land_ev := land_evidence_lines evidence_num in
  Ok (header_lines +++ property_information_lines +++ assessment_values_lines +++
      grounds_lines +++ ecf_ev +++ sales_ev +++ land_ev +++ conclusion_lines +++
      legal_basis_lines +++ petitioner_lines +++ footer_lines).

(** The list [L] at the [return]. *)
Definition summary_lines : result (list string) :=
  if no_appeal then Ok not_recommended_lines else petition_lines.

End Composer.

(** [coverage] is a parameter of the function; its body does not mention
    it. *)
Definition generate_appeal_summary
    (area_code subdivision : string) (user_sev : Q)
    (ecf_trend : list (Z * option Q)) (sales_stats_ : sales_stats)
    (land_trends : list LandTrend.t) (coverage : list (Z * Z))
    (ecf_properties : list EcfProperty.t)
    (sales_df : option (frame Comparable.row)) (prop : option PropertyData)
  : result string :=
  L <- summary_lines area_code subdivision user_sev ecf_trend sales_stats_
         land_trends ecf_properties sales_df prop ;;
  Ok (join nl L).

End AnalysisEngine.

(* ================================================================== *)
(** * Vocabulary of the properties *)
(* ================================================================== *)

Import RcParser.
Import AnalysisEngine.

(** ** Record-card parser *)

(** The fields that only [_parse_page2] assigns. *)
Definition page2_fields (p : PropertyData) :=
  (style p, year_built p, condition p, effective_age p, floor_area p,
   ground_area p, basement_sf p, total_base_new p, total_depr_cost p,
   ecf p, estimated_tcv_cost p, raw_text_page2 p).

(** A step that keeps the page-2 fields, raised exceptions apart. *)
Definition keeps_page2 (r : result PropertyData) (p : PropertyData) : Prop :=
  match r with
  | Ok q => page2_fields q = page2_fields p
  | Raise _ => True
  end.

(** A record card on which only the figure "2026 Est TCV 400,001" was
    read: no history row, so no assessed value. *)
Definition odd_tcv_record : PropertyData :=
  set_tcv_2026 400001 default_PropertyData.

Definition even_tcv_record : PropertyData :=
  set_tcv_2026 400000 default_PropertyData.

(** ** Valuation *)

(** The candidate set of the design: the cost-factor-adjusted value (the
    binary64 product) if the latest factor exists and is below 1.0; the
    sales median and mean if the sales count is positive. *)
Definition in_candidate_set (ecf_2026 : option Q) (user_tcv : Q) (st : sales_stats)
                            (v : Q) : Prop :=
  (exists e, ecf_2026 = Some e /\ (e < 1)%Q /\ v = F64.mul user_tcv e) \/
  (0 < stats_count st /\
   exists s, st = Stats s /\ (v = SalesStats.median s \/ v = SalesStats.mean s)).

(** The primary value of the design: the sales median if any sales exist;
    else the adjusted value if the latest factor is below 1.0; else the
    true cash value itself. *)
Definition is_primary (ecf_2026 : option Q) (user_tcv : Q) (st : sales_stats)
                      (v : Q) : Prop :=
  (0 < stats_count st /\ exists s, st = Stats s /\ v = SalesStats.median s) \/
  (stats_count st <= 0 /\
   exists e, ecf_2026 = Some e /\ (e < 1)%Q /\ v = F64.mul user_tcv e) \/
  (stats_count st <= 0 /\
   (forall e, ecf_2026 = Some e -> ~ (e < 1)%Q) /\ v = user_tcv).

(** ** Petition composer *)

(** The first two lines of the short form, and the first line of the
    petition. *)
Definition short_form_header : string :=
  eq_rule ++ nl ++ "APPEAL ANALYSIS — NOT RECOMMENDED" ++ nl.

Definition petition_header : string :=
  "PETITION TO THE BOARD OF REVIEW" ++ nl.

Definition is_short_form (out : result string) : bool :=
  match out with
  | Ok s => String.prefix short_form_header s
  | Raise _ => false
  end.

Definition is_petition (out : result string) : bool :=
  match out with
  | Ok s => String.prefix petition_header s
  | Raise _ => false
  end.

(** The binary64 values of the literals 0.85, 0.88 and 0.90. *)
Definition f_085 : Q := F64.fl (85 # 100).
Definition f_088 : Q := F64.fl (88 # 100).
Definition f_090 : Q := F64.fl (90 # 100).



(** ** Sample tables *)

(** Two comparable sales of one area. *)
Definition two_sales : frame Comparable.row :=
  mkFrame comparable_columns
    [ Comparable.mk (Some "L-12-01-100-001") (Some "4101 MEADOW CT")
                    (Some "05/25/2022") (Some 380000%Q) (Some 380000%Q) 2024;
      Comparable.mk (Some "L-12-01-100-002") (Some "4105 MEADOW CT")
                    (Some "06/30/2023") (Some 420000%Q) (Some 420000%Q) 2025 ].

(** A [Series.mean()] that adds from left to right. *)
Definition mean_left_to_right (prices : list Q) : Q :=
  F64.div (fold_left F64.add prices 0%Q)
          (F64.of_Z (Z.of_nat (List.length prices))).

Definition priced (parcel : string) (price : Q) : Comparable.row :=
  Comparable.mk (Some parcel) (Some "4101 MEADOW CT") (Some "05/25/2022")
                (Some price) (Some price) 2024.

(** Six comparable sales, one of them below 400,000. *)
Definition six_sales : frame Comparable.row :=
  mkFrame comparable_columns
    [ priced "L-12-01-100-001" 380000; priced "L-12-01-100-002" 410000;
      priced "L-12-01-100-003" 420000; priced "L-12-01-100-004" 430000;
      priced "L-12-01-100-005" 440000; priced "L-12-01-100-006" 450000 ].

(** Three comparable sales at 220,394.69 each. *)
Definition p_220394_69 : Q := F64.fl (22039469 # 100).



(** ** Land-value trend *)

(** One area, one year, two land-value rows with different values: no
    value is more frequent than the other. *)
Definition tied_land_data : Data :=
  mkData [] [] []
    [ (2026,
       mkFrame ["ECF_Area"; "Area_Code"; "Land_Value_Prior"; "Land_Value_Current"; "_year"]
         [ Land.mk (Some "AR-4AR4-MEADOWS") (Some "AR-4")
                   (Some 100000%Q) (Some 110000%Q) 2026;
           Land.mk (Some "AR-4AR4-MEADOWS") (Some "AR-4")
                   (Some 200000%Q) (Some 210000%Q) 2026 ]) ]
    [ (2026,
       mkFrame ["Area_Code"; "Subdivision"; "Adjust_Factor"; "_year"]
         [ LandAdj.mk (Some "AR-4") (Some "MEADOWS OF ARBOR RIDGE")
                      (Some (105 # 100)) 2026 ]) ].

(** The years of the rows are in strictly ascending order. *)
Fixpoint ascending (l : list Z) : Prop :=
  match l with
  | [] => True
  | x :: rest => Forall (fun y => x < y) rest /\ ascending rest
  end.

(** ** Sales-study coverage *)

Definition sale_of (area parcel date : string) (price : Q) (year : Z) : Sales.row :=
  Sales.mk (Some area) (Some "03-ARM'S LENGTH") (Some parcel)
           (Some "4101 MEADOW CT") (Some date) (Some price) (Some price) year.

Definition sales_columns : list string :=
  ["ECF_Area"; "Terms_of_Sale"; "Parcel_Number"; "Street_Address"; "Sale_Date";
   "Sale_Price"; "Adj_Sale"; "_year"].

(** Five sales of area AR-4 in the 2024 study, three in 2025, none in 2026. *)
Definition dropped_area_data : Data :=
  mkData
    [ (2024, mkFrame sales_columns
         [ sale_of "AR-4" "L-12-01-100-001" "05/25/2022" 380000 2024;
           sale_of "AR-4" "L-12-01-100-002" "06/01/2022" 390000 2024;
           sale_of "ARF" "L-12-02-200-001" "06/02/2022" 410000 2024;
           sale_of "AR-4" "L-12-01-100-003" "07/11/2022" 400000 2024;
           sale_of "AR-4" "L-12-01-100-004" "08/19/2022" 385000 2024;
           sale_of "AR-4" "L-12-01-100-005" "09/02/2022" 395000 2024 ]);
      (2025, mkFrame sales_columns
         [ sale_of "AR-4" "L-12-01-100-006" "05/05/2023" 405000 2025;
           sale_of "AR-4" "L-12-01-100-007" "06/16/2023" 415000 2025;
           sale_of "AR-4" "L-12-01-100-008" "07/07/2023" 399000 2025 ]);
      (2026, mkFrame sales_columns
         [ sale_of "ARF" "L-12-02-200-002" "05/10/2024" 450000 2026;
           sale_of "ARF" "L-12-02-200-003" "06/20/2024" 460000 2026 ]) ]
    [] [] [] [].

Definition coverage_dropped : list (Z * Z) := [(2024, 5); (2025, 3); (2026, 0)].

Definition coverage_kept : list (Z * Z) := [(2024, 5); (2025, 3); (2026, 4)].

(** The number of rows of a sales table that match the area code, zero
    when the table has no area column. *)
Definition area_count (area_code : string) (df : frame Sales.row) : Z :=
  if has_col "ECF_Area" df
  then Z.of_nat (List.length
                   (filter (fun r => cell_eqb (Sales.ECF_Area r) area_code) (rows df)))
  else 0.

(** The petition for a homeowner of area AR-4 with a cost factor in each
    of the three years and no comparable sales, for a given coverage. *)
Definition petition_with_coverage (coverage : list (Z * Z)) : result string :=
  generate_appeal_summary "AR-4" "MEADOWS OF ARBOR RIDGE" 200000
    [(2024, Some f_090); (2025, Some f_088); (2026, Some f_085)]
    CountOnly [] coverage [] None None.

(** ** Cost-factor domain *)

Definition in_open_domain (v : Q) : Prop := (1 # 10 < v)%Q /\ (v < 5)%Q.

Definition in_closed_domain (v : Q) : Prop := (1 # 10 <= v)%Q /\ (v <= 5)%Q.

(** No cost factor of the trend is outside (0.1, 5.0). *)
Definition trend_in_open_domain (trend : list (Z * option Q)) : Prop :=
  forall year v, In (year, Some v) trend -> in_open_domain v.

(** No cost factor of the per-property list is outside (0.1, 5.0). *)
Definition properties_in_open_domain (props : list EcfProperty.t) : Prop :=
  forall p v, In p props -> EcfProperty.ecf p = Some v -> in_open_domain v.

Definition ecf_columns : list string :=
  ["ECF_Area_Code"; "Street_Address"; "Parcel_Number"; "Sale_Price"; "Cost_Man"; "ECF"].

(** A 2026 per-property file with the cost factors 5.0, 7.25 and 0.1. *)
Definition boundary_ecf_csv (year : Z) : option (frame EcfAnalysis.row) :=
  if year =? 2026
  then Some (mkFrame ecf_columns
         [ EcfAnalysis.mk (Some "AR-4") None (Some "4101 MEADOW CT")
                          (Some "L-12-01-100-001") (Some 400000%Q) (Some 80000%Q)
                          (Some 5%Q) 0;
           EcfAnalysis.mk (Some "AR-4") None (Some "4105 MEADOW CT")
                          (Some "L-12-01-100-002") (Some 580000%Q) (Some 80000%Q)
                          (Some (725 # 100)) 0;
           EcfAnalysis.mk (Some "AR-4") None (Some "4109 MEADOW CT")
                          (Some "L-12-01-100-003") (Some 8000%Q) (Some 80000%Q)
                          (Some (1 # 10)) 0 ])
  else None.

(** A 2026 summary file whose average cost factor for AR-4 reads 7.3. *)
Definition noisy_summary_csv (year : Z) : option (frame EcfSummaries.row) :=
  if year =? 2026
  then Some (mkFrame ["ECF_Area"; "Subdivision"; "Ave_ECF"]
         [ EcfSummaries.mk (Some "AR-4") (Some "MEADOWS OF ARBOR RIDGE")
                           (Some (73 # 10)) 0 ])
  else None.

(** The first row of the per-property list read from [boundary_ecf_csv]. *)
Definition boundary_property : EcfProperty.t :=
  EcfProperty.mk 2026 "4101 MEADOW CT" "L-12-01-100-001"
                 (Some 400000%Q) (Some 80000%Q) (Some 5%Q).

(** The dataset whose per-property cost-factor tables are loaded from the
    given files. *)
Definition with_ecf_analysis (read_csv : Z -> option (frame EcfAnalysis.row))
                             (other : Data) : Data :=
  mkData (sales other) (DataLoader._load_ecf_analysis read_csv)
         (ecf_summaries other) (land other) (land_adj other).

Definition no_data : Data := mkData [] [] [] [] [].

(** ** Comparable sales *)

(** A sample reader of dates written month/day/year, with one or two
    digits for month and day and four for the year.  On a string it reads
    it gives the date pandas gives; it refuses a day that the month does
    not have and a date outside the range of [Timestamp], as pandas does,
    and every other string, also one that pandas would read (another
    format, a first number above 12 taken as the day).  It is used to run
    examples, whose dates it reads; the theorems hold for every reader. *)
Fixpoint split_on (c : ascii) (s cur : string) : list string :=
  match s with
  | EmptyString => [cur]
  | String a r =>
      if Ascii.eqb a c then cur :: split_on c r EmptyString
      else split_on c r (cur ++ String a EmptyString)
  end.

Definition digit_value (c : ascii) : option Z :=
  let n := nat_of_ascii c in
  if ((48 <=? n) && (n <=? 57))%nat then Some (Z.of_nat (n - 48)) else None.

Fixpoint parse_digits (s : string) (acc : Z) : option Z :=
  match s with
  | EmptyString => Some acc
  | String c r =>
      match digit_value c with
      | Some d => parse_digits r (10 * acc + d)
      | None => None
      end
  end.

Definition parse_number (s : string) : option Z :=
  match s with
  | EmptyString => None
  | _ => parse_digits s 0
  end.

Definition is_leap (y : Z) : bool :=
  ((y mod 4 =? 0) && negb (y mod 100 =? 0)) || (y mod 400 =? 0).

Definition days_in_month (y m : Z) : Z :=
  if m =? 2 then (if is_leap y then 29 else 28)
  else if (m =? 4) || (m =? 6) || (m =? 9) || (m =? 11) then 30
  else 31.

(** [Timestamp.min] is in the first minutes of 1677-09-21 and
    [Timestamp.max] in the last of 2262-04-11. *)
Definition in_timestamp_range (y m d : Z) : bool :=
  ((1677 <? y) || ((y =? 1677) && ((9 <? m) || ((m =? 9) && (22 <=? d))))) &&
  ((y <? 2262) || ((y =? 2262) && ((m <? 4) || ((m =? 4) && (d <=? 11))))).

Definition short_field (s : string) : bool :=
  (String.length s <=? 2)%nat.

Definition to_datetime_mdy (s : string) : option Timestamp.t :=
  match split_on "/" (strip s) EmptyString with
  | [ms; ds; ys] =>
      match parse_number ms, parse_number ds, parse_number ys with
      | Some m, Some d, Some y =>
          if short_field ms && short_field ds && (String.length ys =? 4)%nat
             && (1 <=? m) && (m <=? 12) && (1 <=? d) && (d <=? days_in_month y m)
             && in_timestamp_range y m d
          then Some (Timestamp.mk y m d)
          else None
      | _, _, _ => None
      end
  | _ => None
  end.

(** What every Timestamp satisfies, as far as [strftime] is concerned. *)
Definition valid_timestamp (ts : Timestamp.t) : Prop :=
  0 <= Timestamp.year ts < 10000 /\
  0 <= Timestamp.month ts < 100 /\
  0 <= Timestamp.day ts < 100.

Definition timestamp_eqb (a b : Timestamp.t) : bool :=
  (Timestamp.year a =? Timestamp.year b) &&
  (Timestamp.month a =? Timestamp.month b) &&
  (Timestamp.day a =? Timestamp.day b).

Section SaleIdentity.
Variable to_datetime : string -> option Timestamp.t.

(** The identity of a sale: its trimmed parcel number and its calendar
    date; [None] when either is missing or the date cannot be read. *)
Definition sale_id (r : Comparable.row) : option (string * Timestamp.t) :=
  match Comparable.Parcel_Number r, Comparable.Sale_Date r with
  | Some p, Some s =>
      match to_datetime s with
      | Some ts => Some (strip p, ts)
      | None => None
      end
  | _, _ => None
  end.

Definition has_id (id : string * Timestamp.t) (r : Comparable.row) : bool :=
  match sale_id r with
  | Some (p, ts) => String.eqb p (fst id) && timestamp_eqb ts (snd id)
  | None => false
  end.

(** The value of [_dedup_key] for a row whose date can be read. *)
Definition key_of (r : Comparable.row) : option string :=
  match Comparable.Parcel_Number r, Comparable.Sale_Date r with
  | Some p, Some s =>
      match to_datetime s with
      | Some ts => Some (strip p ++ "_" ++ strftime ts)
      | None => None
      end
  | _, _ => None
  end.
End SaleIdentity.

(** The last element of the non-empty list [q :: qs]. *)
Fixpoint last_of {A : Type} (q : A) (qs : list A) : A :=
  match qs with
  | [] => q
  | q' :: qs' => last_of q' qs'
  end.

(** The rows that pass the filters of [get_comparable_sales], in the order
    in which they are concatenated: year by year, row by row. *)
Definition qualifying_rows (data : Data) (area_code : string) : list Comparable.row :=
  match mapM (fun '(year, df) => year_sales area_code df) (sales data) with
  | Ok all_sales => List.concat all_sales
  | Raise _ => []
  end.

(** Every row of the yearly sales tables, projected. *)
Definition input_rows (data : Data) : list Comparable.row :=
  flat_map (fun '(year, df) => map project (rows df)) (sales data).

(** The 2024 table has a terms-of-sale column, the 2025 table has none.
    The first sale appears in both, its date written in two ways. *)
Definition mixed_sales_data : Data :=
  mkData
    [ (2024, mkFrame sales_columns
         [ Sales.mk (Some "AR-4") (Some "03-ARM'S LENGTH") (Some " L-12-01-100-001")
                    (Some "4101 MEADOW CT") (Some "05/25/2022")
                    (Some 380000%Q) (Some 380000%Q) 2024;
           Sales.mk (Some "AR-4") (Some "21-NOT USED/OTHER") (Some "L-12-01-100-002")
                    (Some "4105 MEADOW CT") (Some "06/01/2022")
                    (Some 300000%Q) (Some 300000%Q) 2024;
           Sales.mk (Some "AR-4") (Some "03-arm's length") (Some "L-12-01-100-003")
                    (Some "4109 MEADOW CT") (Some "07/11/2022")
                    (Some 95000%Q) (Some 95000%Q) 2024 ]);
      (2025, mkFrame ["ECF_Area"; "Parcel_Number"; "Street_Address"; "Sale_Date";
                      "Sale_Price"; "Adj_Sale"; "_year"]
         [ Sales.mk (Some "AR-4") None (Some "L-12-01-100-001")
                    (Some "4101 MEADOW CT") (Some "5/25/2022")
                    (Some 380000%Q) (Some 381000%Q) 2025 ]) ]
    [] [] [] [].

(** The one row of the 2025 table, as it appears in the output. *)
Definition sale_2025 : Comparable.row :=
  Comparable.mk (Some "L-12-01-100-001") (Some "4101 MEADOW CT") (Some "5/25/2022")
                (Some 380000%Q) (Some 381000%Q) 2025.

(** C3 as stated: every output row has an adjusted price of at least
    150,000 and comes from a row whose terms of sale contain "ARM". *)
Definition comparable_rows_as_stated
    (to_datetime : string -> option Timestamp.t) (data : Data) (area_code : string)
  : Prop :=
  forall out, get_comparable_sales to_datetime data area_code = Ok out ->
  forall r, In r (rows out) ->
    (exists p, Comparable.Adj_Sale r = Some p /\ (150000 <= p)%Q) /\
    (exists year df s,
       In (year, df) (sales data) /\ In s (rows df) /\ project s = r /\
       has_col "Terms_of_Sale" df = true /\ arms_length s = true).

(** Two rows of another area with the same parcel and the same date. *)
Definition other_area_duplicates : Data :=
  mkData
    [ (2024, mkFrame sales_columns
         [ sale_of "ARF" "L-12-02-200-001" "05/25/2022" 410000 2024 ]);
      (2025, mkFrame sales_columns
         [ sale_of "ARF" "L-12-02-200-001" "5/25/2022" 410000 2025 ]) ]
    [] [] [] [].

Definition duplicated_id : string * Timestamp.t :=
  ("L-12-02-200-001", Timestamp.mk 2022 5 25).

(** C5 as stated: whenever two or more input rows share a trimmed parcel
    number and a calendar date, the output has exactly one row for them. *)
Definition dedup_as_stated
    (to_datetime : string -> option Timestamp.t) (data : Data) (area_code : string)
  : Prop :=
  forall id,
    (2 <= List.length (filter (has_id to_datetime id) (input_rows data)))%nat ->
    exists out,
      get_comparable_sales to_datetime data area_code = Ok out /\
      List.length (filter (has_id to_datetime id) (rows out)) = 1%nat.

(** ** Further vocabulary: comparable sales *)

(** The date of the row is missing or can be read. *)
Definition date_readable (to_datetime : string -> option Timestamp.t)
                         (r : Comparable.row) : Prop :=
  forall s, Comparable.Sale_Date r = Some s -> to_datetime s <> None.

(** Four qualifying sales of one area: the dates of three of them are in
    another order as text than as dates, the fourth has no date. *)
Definition undated (area parcel : string) (price : Q) (year : Z) : Sales.row :=
  Sales.mk (Some area) (Some "03-ARM'S LENGTH") (Some parcel)
           (Some "4101 MEADOW CT") None (Some price) (Some price) year.

Definition unordered_sales_data : Data :=
  mkData
    [ (2024, mkFrame sales_columns
         [ sale_of "AR-4" "L-12-01-100-001" "05/25/2022" 380000 2024;
           undated "AR-4" "L-12-01-100-002" 400000 2024;
           sale_of "AR-4" "L-12-01-100-003" "12/01/2021" 390000 2024 ]);
      (2025, mkFrame sales_columns
         [ sale_of "AR-4" "L-12-01-100-004" "06/30/2023" 420000 2025 ]) ]
    [] [] [] [].

Definition unordered_sales_output : list Comparable.row :=
  [ Comparable.mk (Some "L-12-01-100-003") (Some "4101 MEADOW CT")
                  (Some "12/01/2021") (Some 390000%Q) (Some 390000%Q) 2024;
    Comparable.mk (Some "L-12-01-100-004") (Some "4101 MEADOW CT")
                  (Some "06/30/2023") (Some 420000%Q) (Some 420000%Q) 2025;
    Comparable.mk (Some "L-12-01-100-001") (Some "4101 MEADOW CT")
                  (Some "05/25/2022") (Some 380000%Q) (Some 380000%Q) 2024;
    Comparable.mk (Some "L-12-01-100-002") (Some "4101 MEADOW CT")
                  None (Some 400000%Q) (Some 400000%Q) 2024 ].

(** The order of the output of [get_comparable_sales], on the date strings. *)
Definition dates_descending (a b : Comparable.row) : Prop :=
  match Comparable.Sale_Date a, Comparable.Sale_Date b with
  | Some x, Some y => String.leb y x = true
  | None, Some _ => False
  | _, None => True
  end.

(** Statistics of three sales with a median of 410,000. *)
Definition stats_410 : SalesStats.t :=
  let pct_below := F64.mul (F64.div 1 3) 100 in
  SalesStats.mk 3 395000 410000 350000 425000 pct_below (F64.sub 100 pct_below)
                (-10000) (F64.mul (F64.div (-10000) 410000) 100).

Definition stats_median_410 : sales_stats := Stats stats_410.

(** ** Further vocabulary: loaders *)

(** The average cost factor of the first row of the area, if any. *)
Definition area_ecf (area_code : string) (df : frame EcfSummaries.row) : option Q :=
  match filter (fun r => cell_eqb (EcfSummaries.ECF_Area r) area_code) (rows df) with
  | first :: _ => EcfSummaries.Ave_ECF first
  | [] => None
  end.

(** The years for which a file exists, in the order of [YEARS]. *)
Definition years_read {R : Type} (read_csv : Z -> option (frame R)) : list Z :=
  filter (fun year => match read_csv year with Some _ => true | None => false end)
         DataLoader.YEARS.

(** The first average cost factor that can be read as a number among the
    rows of the year's summary file whose normalised code is the area's. *)
Definition file_ecf (read_csv : Z -> option (frame EcfSummaries.row))
                    (area_code : string) (year : Z) : option Q :=
  match read_csv year with
  | Some df =>
      DataLoader.first_some EcfSummaries.Ave_ECF
        (filter (fun r => cell_eqb (DataLoader.normalize_area (EcfSummaries.ECF_Area r))
                                   area_code)
                (rows df))
  | None => None
  end.

(** The columns [_load_ecf_summaries] reads. *)
Definition summary_columns : list string := ["ECF_Area"; "Ave_ECF"; "Subdivision"].

(** The row [group_first] makes for one code. *)
Definition group_row (year : Z) (rs : list EcfSummaries.row) (code : string)
  : EcfSummaries.row :=
  let grp := filter (fun r => cell_eqb (EcfSummaries.ECF_Area r) code) rs in
  EcfSummaries.mk (Some code)
                  (DataLoader.first_some EcfSummaries.Subdivision grp)
                  (DataLoader.first_some EcfSummaries.Ave_ECF grp)
                  year.

(** The dataset whose sales tables are loaded from the given files. *)
Definition with_loaded_sales (read_csv : Z -> option (frame Sales.row))
                             (other : Data) : Data :=
  mkData (DataLoader._load_sales read_csv) (ecf_analysis other)
         (ecf_summaries other) (land other) (land_adj other).

(** A 2024 summary file with three rows for AR-4: the first has no
    readable average, the second reads 0.9. *)
Definition summary_csv_first_missing (year : Z) : option (frame EcfSummaries.row) :=
  if year =? 2024
  then Some (mkFrame ["ECF_Area"; "Subdivision"; "Ave_ECF"]
         [ EcfSummaries.mk (Some " 'AR-4") (Some "MEADOWS OF ARBOR RIDGE") None 0;
           EcfSummaries.mk (Some "AR-4") None (Some (9 # 10)) 0;
           EcfSummaries.mk (Some "AR-4") None (Some (7 # 10)) 0 ])
  else None.

(** A 2025 sales file without the adjusted price. *)
Definition sales_2025_no_adj : frame Sales.row :=
  mkFrame ["ECF_Area"; "Parcel_Number"; "Street_Address"; "Sale_Date"; "Sale_Price"]
    [ sale_of "AR-4" "L-12-01-100-006" "05/05/2023" 405000 0 ].

Definition sales_2024_file : frame Sales.row :=
  mkFrame ["ECF_Area"; "Terms_of_Sale"; "Parcel_Number"; "Street_Address"; "Sale_Date";
           "Sale_Price"; "Adj_Sale"]
    [ sale_of " 'AR-4" "L-12-01-100-001" "05/25/2022" 380000 0 ].

Definition sales_csv_sample (year : Z) : option (frame Sales.row) :=
  if year =? 2024 then Some sales_2024_file
  else if year =? 2025 then Some sales_2025_no_adj
  else None.

(** The one comparable sale read from [sales_csv_sample]. *)
Definition loaded_sale_2024 : Comparable.row :=
  Comparable.mk (Some "L-12-01-100-001") (Some "4101 MEADOW CT") (Some "05/25/2022")
                (Some 380000%Q) (Some 380000%Q) 2024.

Definition first_char (s : string) : option ascii :=
  match s with
  | EmptyString => None
  | String c _ => Some c
  end.

Fixpoint last_char (s : string) : option ascii :=
  match s with
  | EmptyString => None
  | String c r => match last_char r with Some d => Some d | None => Some c end
  end.

(** ** Further vocabulary: evidence views *)

(** The land-adjustment table of the year exists and has a row of the area. *)
Definition area_adjusted (data : Data) (area_code : string) (year : Z) : Prop :=
  exists df, dict_get Z.eqb year (land_adj data) = Some df /\
             existsb (fun r => cell_eqb (LandAdj.Area_Code r) area_code) (rows df) = true.

(** The trimmed subdivision cell of the first row of the area. *)
Definition first_row_name {R : Type} (code sub : R -> option string)
                          (area_code : string) (df : frame R) : option string :=
  match filter (fun r => cell_eqb (code r) area_code) (rows df) with
  | first :: _ => option_map strip (sub first)
  | [] => None
  end.

(** The trend of [tied_land_data]. *)
Definition tied_trend_rows : list LandTrend.t :=
  [LandTrend.mk 2026 (Some (105 # 100)) (Some 100000%Q) (Some 110000%Q)].

(** ** Further vocabulary: record-card parser *)

(** The fields that only [_parse_page1] assigns, and the text of page 1. *)
Definition page1_fields (p : PropertyData) :=
  (parcel_number p, address p, area_code p, subdivision p, sev_2026 p,
   tcv_2026 p, land_value p, assessment_history p, raw_text_page1 p).

(** The fields that [_parse_page2] does not assign. *)
Definition outside_page2 (p : PropertyData) := (page1_fields p, raw_text_page2 p).

(** A step that leaves [f] as it is, raised exceptions apart. *)
Definition keeps {A : Type} (f : PropertyData -> A) (r : result PropertyData)
                 (p : PropertyData) : Prop :=
  match r with
  | Ok q => f q = f p
  | Raise _ => True
  end.

Definition history_ascending (p : PropertyData) : Prop :=
  Sorted (fun a b => AssessmentYear.year a <= AssessmentYear.year b)
         (assessment_history p).

(* ================================================================== *)
(** * Properties of binary64 arithmetic *)
(* ================================================================== *)

Section F64Facts.
Import F64.

Lemma pow2_pos : forall e, (0 < pow2 e)%Q.
Proof. intros e. apply Qpower_0_lt. reflexivity. Qed.

Lemma pow2_add : forall a b, (pow2 (a + b) == pow2 a * pow2 b)%Q.
Proof. intros a b. apply Qpower_plus. discriminate. Qed.

Lemma pow2_le : forall a b, a <= b -> (pow2 a <= pow2 b)%Q.
Proof. intros a b H. apply Qpower_le_compat_l; [exact H|discriminate]. Qed.

Lemma pow2_lt : forall a b, a < b -> (pow2 a < pow2 b)%Q.
Proof. intros a b H. apply Qpower_lt_compat_l; [exact H|reflexivity]. Qed.

Lemma pow2_lt_inv : forall a b, (pow2 a < pow2 b)%Q -> a < b.
Proof. intros a b H. apply (Qpower_lt_compat_l_inv 2); [exact H|reflexivity]. Qed.

Lemma pow2_nonneg : forall n, 0 <= n -> (pow2 n == inject_Z (2 ^ n))%Q.
Proof. intros n H. unfold pow2. rewrite Zpower_Qpower; [reflexivity|exact H]. Qed.

Lemma pow2_succ : forall e, (pow2 (e + 1) == 2 * pow2 e)%Q.
Proof. intros e. rewrite pow2_add. change (pow2 1) with 2%Q. ring. Qed.

Lemma pow2_pred : forall e, (pow2 (e - 1) == pow2 e / 2)%Q.
Proof.
  intros e. replace e with ((e - 1) + 1) at 2 by ring. rewrite pow2_succ. field.
Qed.

Lemma pow2_div : forall a b, (pow2 a / pow2 b == pow2 (a - b))%Q.
Proof.
  intros a b. replace a with ((a - b) + b) at 1 by ring. rewrite pow2_add.
  field. intros H. pose proof (pow2_pos b) as Hp. rewrite H in Hp. discriminate.
Qed.

(** The integer logarithm *)

Lemma Zlog2_bounds : forall n, 0 < n ->
  (pow2 (Z.log2 n) <= inject_Z n)%Q /\ (inject_Z n < pow2 (Z.log2 n + 1))%Q.
Proof.
  intros n Hn. destruct (Z.log2_spec n Hn) as [H1 H2].
  pose proof (Z.log2_nonneg n) as H0.
  rewrite !pow2_nonneg by lia. rewrite <- Zle_Qle, <- Zlt_Qlt.
  unfold Z.succ in H2. split; assumption.
Qed.

Lemma Q_as_quotient : forall q : Q, (q == inject_Z (Qnum q) / inject_Z (Zpos (Qden q)))%Q.
Proof. intros [n d]. cbn [Qnum Qden]. rewrite Qmake_Qdiv. reflexivity. Qed.

Lemma ilog2_spec : forall q, (0 < q)%Q ->
  (pow2 (ilog2 q) <= q)%Q /\ (q < pow2 (ilog2 q + 1))%Q.
Proof.
  intros q Hq.
  assert (Hn : 0 < Qnum q).
  { destruct q as [n d]. unfold Qlt in Hq. cbn in *. lia. }
  destruct (Zlog2_bounds (Qnum q) Hn) as [N1 N2].
  destruct (Zlog2_bounds (Zpos (Qden q)) ltac:(lia)) as [D1 D2].
  set (ln := Z.log2 (Qnum q)) in *. set (ld := Z.log2 (Zpos (Qden q))) in *.
  assert (Hd : (0 < inject_Z (Zpos (Qden q)))%Q) by reflexivity.
  pose proof (Q_as_quotient q) as Eq.
  set (n := inject_Z (Qnum q)) in *. set (d := inject_Z (Zpos (Qden q))) in *.
  assert (Up : (q < pow2 (ln - ld + 1))%Q).
  { rewrite Eq. apply Qlt_shift_div_r; [exact Hd|].
    eapply Qlt_le_trans; [exact N2|].
    replace (ln + 1) with ((ln - ld + 1) + ld) by ring. rewrite pow2_add.
    apply Qmult_le_l; [apply pow2_pos|exact D1]. }
  assert (Lo : (pow2 (ln - ld - 1) <= q)%Q).
  { rewrite Eq. apply Qle_shift_div_l; [exact Hd|].
    eapply Qle_trans; [|exact N1].
    replace ln with ((ln - ld - 1) + (ld + 1)) at 2 by ring. rewrite pow2_add.
    apply Qmult_le_l; [apply pow2_pos|apply Qlt_le_weak; exact D2]. }
  unfold ilog2. fold ln ld.
  destruct (Qle_bool (pow2 (ln - ld)) q) eqn:E.
  - apply Qle_bool_iff in E. split; assumption.
  - split; [exact Lo|].
    replace (ln - ld - 1 + 1) with (ln - ld) by ring.
    apply Qnot_le_lt. intros H. apply Qle_bool_iff in H. congruence.
Qed.

Lemma ilog2_unique : forall q k,
  (pow2 k <= q)%Q -> (q < pow2 (k + 1))%Q -> ilog2 q = k.
Proof.
  intros q k H1 H2.
  assert (Hq : (0 < q)%Q) by (eapply Qlt_le_trans; [apply pow2_pos|exact H1]).
  destruct (ilog2_spec q Hq) as [S1 S2].
  assert (A : ilog2 q < k + 1).
  { apply pow2_lt_inv. eapply Qle_lt_trans; [exact S1|exact H2]. }
  assert (B : k < ilog2 q + 1).
  { apply pow2_lt_inv. eapply Qle_lt_trans; [exact H1|exact S2]. }
  lia.
Qed.

Lemma ilog2_mono : forall x y, (0 < x)%Q -> (x <= y)%Q -> ilog2 x <= ilog2 y.
Proof.
  intros x y Hx Hxy.
  assert (Hy : (0 < y)%Q) by (eapply Qlt_le_trans; eassumption).
  destruct (ilog2_spec x Hx) as [X1 _]. destruct (ilog2_spec y Hy) as [_ Y2].
  assert (A : ilog2 x < ilog2 y + 1).
  { apply pow2_lt_inv. eapply Qle_lt_trans; [exact X1|].
    eapply Qle_lt_trans; [exact Hxy|exact Y2]. }
  lia.
Qed.

Lemma ilog2_compat : forall x y, (0 < x)%Q -> (x == y)%Q -> ilog2 x = ilog2 y.
Proof.
  intros x y Hx E. destruct (ilog2_spec x Hx) as [X1 X2].
  symmetry. apply ilog2_unique; rewrite <- E; assumption.
Qed.


(** Rounding to the nearest integer *)

Lemma round_half_even_Z : forall n d,
  2 * Z.abs (Zpos d * round_half_even (n # d) - n) <= Zpos d.
Proof.
  intros n d. unfold round_half_even. cbn [Qnum Qden].
  pose proof (Z.div_mod n (Zpos d) ltac:(lia)) as Hdm.
  pose proof (Z.mod_pos_bound n (Zpos d) ltac:(lia)) as Hb.
  set (f := n / Zpos d) in *. set (r := n mod Zpos d) in *.
  destruct (2 * r <? Zpos d) eqn:E1.
  - apply Z.ltb_lt in E1. lia.
  - apply Z.ltb_ge in E1. destruct (Zpos d <? 2 * r) eqn:E2.
    + apply Z.ltb_lt in E2. lia.
    + apply Z.ltb_ge in E2. destruct (Z.even f); lia.
Qed.

Lemma round_half_even_near : forall q,
  (Qabs (inject_Z (round_half_even q) - q) <= 1 # 2)%Q.
Proof.
  intros [n d].
  pose proof (round_half_even_Z n d) as H.
  set (k := round_half_even (n # d)) in *.
  unfold Qle, Qabs, Qminus, Qplus, Qopp, inject_Z. simpl.
  rewrite Z.mul_1_r.
  replace (k * Zpos d + - n * 1) with (Zpos d * k - n) by ring. lia.
Qed.

Lemma round_half_even_compat : forall x y,
  (x == y)%Q -> round_half_even x = round_half_even y.
Proof.
  intros [n d] [n' d'] E. unfold Qeq in E. cbn [Qnum Qden] in E.
  unfold round_half_even. cbn [Qnum Qden].
  pose proof (Z.div_mod n (Zpos d) ltac:(lia)) as H1.
  pose proof (Z.mod_pos_bound n (Zpos d) ltac:(lia)) as B1.
  pose proof (Z.div_mod n' (Zpos d') ltac:(lia)) as H2.
  pose proof (Z.mod_pos_bound n' (Zpos d') ltac:(lia)) as B2.
  set (f := n / Zpos d) in *. set (r := n mod Zpos d) in *.
  set (f' := n' / Zpos d') in *. set (r' := n' mod Zpos d') in *.
  set (D := Zpos d) in *. set (D' := Zpos d') in *.
  assert (HD : 0 < D) by (unfold D; lia). assert (HD' : 0 < D') by (unfold D'; lia).
  clearbody f f' r r' D D'.
  assert (Ef : f = f').
  { assert (A : D * D' * (f - f') = r' * D - r * D') by nia.
    assert (B : - (D * D') < r' * D - r * D' < D * D') by nia.
    nia. }
  subst f'. assert (Er : r * D' = r' * D) by nia.
  assert (C1 : (2 * r <? D) = (2 * r' <? D')).
  { destruct (Z.ltb_spec (2 * r) D), (Z.ltb_spec (2 * r') D'); try reflexivity; nia. }
  assert (C2 : (D <? 2 * r) = (D' <? 2 * r')).
  { destruct (Z.ltb_spec D (2 * r)), (Z.ltb_spec D' (2 * r')); try reflexivity; nia. }
  rewrite C1, C2. reflexivity.
Qed.

Lemma round_half_even_unique : forall q n,
  (Qabs (inject_Z n - q) < 1 # 2)%Q -> round_half_even q = n.
Proof.
  intros q n H. pose proof (round_half_even_near q) as Hr.
  set (r := round_half_even q) in *.
  assert (A : (Qabs (inject_Z r - inject_Z n) < 1)%Q).
  { setoid_replace (inject_Z r - inject_Z n)%Q
      with ((inject_Z r - q) + - (inject_Z n - q))%Q by ring.
    eapply Qle_lt_trans; [apply Qabs_triangle|].
    rewrite Qabs_opp. lra. }
  unfold Qminus in A. rewrite <- inject_Z_opp, <- inject_Z_plus in A.
  apply Qabs_Qlt_condition in A. destruct A as [A1 A2].
  change (- (1))%Q with (inject_Z (-1)) in A1. change 1%Q with (inject_Z 1) in A2.
  rewrite <- Zlt_Qlt in A1, A2. lia.
Qed.

Lemma round_half_even_inject : forall n, round_half_even (inject_Z n) = n.
Proof.
  intros n. apply round_half_even_unique.
  setoid_replace (inject_Z n - inject_Z n)%Q with 0%Q by ring. reflexivity.
Qed.

Lemma round_half_even_mono : forall x y,
  (x <= y)%Q -> round_half_even x <= round_half_even y.
Proof.
  intros x y H.
  destruct (Z.le_gt_cases (round_half_even x) (round_half_even y)) as [L|G]; [exact L|].
  exfalso.
  pose proof (round_half_even_near x) as Hx. pose proof (round_half_even_near y) as Hy.
  assert (G' : (inject_Z (round_half_even y) + 1 <= inject_Z (round_half_even x))%Q).
  { change 1%Q with (inject_Z 1). rewrite <- inject_Z_plus, <- Zle_Qle. lia. }
  apply Qabs_Qle_condition in Hx. apply Qabs_Qle_condition in Hy.
  assert (E : (x == y)%Q) by lra.
  apply round_half_even_compat in E. lia.
Qed.

Lemma round_half_even_le_int : forall q n,
  (q <= inject_Z n)%Q -> round_half_even q <= n.
Proof.
  intros q n H. rewrite <- (round_half_even_inject n).
  apply round_half_even_mono. exact H.
Qed.

Lemma round_half_even_ge_int : forall q n,
  (inject_Z n <= q)%Q -> n <= round_half_even q.
Proof.
  intros q n H. rewrite <- (round_half_even_inject n) at 1.
  apply round_half_even_mono. exact H.
Qed.


(** Rounding of a positive real to binary64 *)

Lemma expo_ge : forall q, -1074 <= expo q.
Proof. intros q. unfold expo. lia. Qed.

Lemma pow2_neq_0 : forall e, ~ (pow2 e == 0)%Q.
Proof. intros e H. pose proof (pow2_pos e) as Hp. rewrite H in Hp. discriminate. Qed.

Lemma scaled_lt : forall q, (0 < q)%Q -> (q / pow2 (expo q) < inject_Z (2 ^ 53))%Q.
Proof.
  intros q Hq. destruct (ilog2_spec q Hq) as [_ H2].
  apply Qlt_shift_div_r; [apply pow2_pos|].
  rewrite <- pow2_nonneg by lia. rewrite <- pow2_add.
  eapply Qlt_le_trans; [exact H2|]. apply pow2_le. unfold expo. lia.
Qed.

Lemma scaled_ge : forall q, (0 < q)%Q -> -1074 < expo q ->
  (inject_Z (2 ^ 52) <= q / pow2 (expo q))%Q.
Proof.
  intros q Hq He. destruct (ilog2_spec q Hq) as [H1 _].
  apply Qle_shift_div_l; [apply pow2_pos|].
  rewrite <- pow2_nonneg by lia. rewrite <- pow2_add.
  eapply Qle_trans; [|exact H1]. apply pow2_le. unfold expo in *. lia.
Qed.

Lemma scaled_pos : forall q, (0 < q)%Q -> (0 < q / pow2 (expo q))%Q.
Proof.
  intros q Hq. apply Qlt_shift_div_l; [apply pow2_pos|]. rewrite Qmult_0_l. exact Hq.
Qed.

Lemma mant_le : forall q, (0 < q)%Q ->
  0 <= round_half_even (q / pow2 (expo q)) <= 2 ^ 53.
Proof.
  intros q Hq. split.
  - apply round_half_even_ge_int. apply Qlt_le_weak. apply scaled_pos. exact Hq.
  - apply round_half_even_le_int. apply Qlt_le_weak. apply scaled_lt. exact Hq.
Qed.

Lemma mant_ge : forall q, (0 < q)%Q -> -1074 < expo q ->
  2 ^ 52 <= round_half_even (q / pow2 (expo q)).
Proof.
  intros q Hq He. apply round_half_even_ge_int. apply scaled_ge; assumption.
Qed.

Lemma round_pos_nonneg : forall q, (0 < q)%Q -> (0 <= round_pos q)%Q.
Proof.
  intros q Hq. unfold round_pos. apply Qmult_le_0_compat.
  - change 0%Q with (inject_Z 0). rewrite <- Zle_Qle. apply mant_le. exact Hq.
  - apply Qlt_le_weak. apply pow2_pos.
Qed.

Lemma round_pos_error : forall q, (0 < q)%Q ->
  (Qabs (round_pos q - q) <= pow2 (expo q - 1))%Q.
Proof.
  intros q Hq. unfold round_pos. set (e := expo q). set (y := (q / pow2 e)%Q).
  pose proof (round_half_even_near y) as H.
  assert (E : (inject_Z (round_half_even y) * pow2 e - q
               == (inject_Z (round_half_even y) - y) * pow2 e)%Q).
  { unfold y. field. apply pow2_neq_0. }
  rewrite E, Qabs_Qmult, pow2_pred.
  rewrite (Qabs_pos (pow2 e)) by (apply Qlt_le_weak; apply pow2_pos).
  setoid_replace (pow2 e / 2)%Q with ((1 # 2) * pow2 e)%Q by field.
  apply Qmult_le_compat_r; [exact H|]. apply Qlt_le_weak. apply pow2_pos.
Qed.

Lemma expo_compat : forall x y, (0 < x)%Q -> (x == y)%Q -> expo x = expo y.
Proof. intros x y Hx E. unfold expo. rewrite (ilog2_compat x y Hx E). reflexivity. Qed.

Lemma round_pos_compat : forall x y, (0 < x)%Q -> (x == y)%Q -> (round_pos x == round_pos y)%Q.
Proof.
  intros x y Hx E. unfold round_pos. rewrite (expo_compat x y Hx E).
  rewrite (round_half_even_compat (x / pow2 (expo y)) (y / pow2 (expo y))).
  - reflexivity.
  - rewrite E. reflexivity.
Qed.

(** A positive number with a mantissa below 2^53 is its own rounding. *)
Lemma round_pos_rep_lt : forall q m e,
  (q == inject_Z m * pow2 e)%Q -> 0 < m < 2 ^ 53 -> -1074 <= e ->
  (round_pos q == q)%Q.
Proof.
  intros q m e Eq Hm He.
  assert (Hq : (0 < q)%Q).
  { rewrite Eq. apply Qmult_lt_0_compat; [|apply pow2_pos].
    change 0%Q with (inject_Z 0). rewrite <- Zlt_Qlt. lia. }
  destruct (ilog2_spec q Hq) as [S1 _].
  assert (Hlt : (q < pow2 (e + 53))%Q).
  { rewrite Eq, pow2_add, (Qmult_comm (pow2 e)).
    apply Qmult_lt_compat_r; [apply pow2_pos|].
    rewrite pow2_nonneg by lia. rewrite <- Zlt_Qlt. lia. }
  assert (Hi : ilog2 q < e + 53).
  { apply pow2_lt_inv. eapply Qle_lt_trans; eassumption. }
  assert (Hx : expo q <= e) by (unfold expo; lia).
  unfold round_pos. set (x := expo q) in *.
  assert (Es : (q / pow2 x == inject_Z (m * 2 ^ (e - x)))%Q).
  { rewrite Eq, inject_Z_mult, <- pow2_nonneg by lia.
    unfold Qdiv. rewrite <- Qmult_assoc. apply Qmult_comp; [reflexivity|].
    fold (pow2 e / pow2 x)%Q. apply pow2_div. }
  rewrite (round_half_even_compat _ _ Es), round_half_even_inject.
  rewrite <- Es. field. apply pow2_neq_0.
Qed.

Lemma round_pos_rep : forall q m e,
  (q == inject_Z m * pow2 e)%Q -> 0 < m <= 2 ^ 53 -> -1074 <= e ->
  (round_pos q == q)%Q.
Proof.
  intros q m e Eq Hm He.
  destruct (Z.eq_dec m (2 ^ 53)) as [->|Hne].
  - apply (round_pos_rep_lt q (2 ^ 52) (e + 1)); [|lia|lia].
    rewrite Eq, pow2_succ. change (2 ^ 53) with (2 * 2 ^ 52).
    rewrite inject_Z_mult. change (inject_Z 2) with 2%Q. ring.
  - apply (round_pos_rep_lt q m e); [exact Eq|lia|exact He].
Qed.

Lemma round_pos_mono : forall x y,
  (0 < x)%Q -> (x <= y)%Q -> (round_pos x <= round_pos y)%Q.
Proof.
  intros x y Hx Hxy.
  assert (Hy : (0 < y)%Q) by (eapply Qlt_le_trans; eassumption).
  pose proof (ilog2_mono x y Hx Hxy) as Hi.
  assert (He : expo x <= expo y) by (unfold expo; lia).
  destruct (Z.eq_dec (expo x) (expo y)) as [E|N].
  - unfold round_pos. rewrite E. apply Qmult_le_compat_r.
    + rewrite <- Zle_Qle. apply round_half_even_mono.
      apply Qmult_le_compat_r; [exact Hxy|].
      apply Qlt_le_weak. apply Qinv_lt_0_compat. apply pow2_pos.
    + apply Qlt_le_weak. apply pow2_pos.
  - assert (Hn : -1074 < expo y) by (pose proof (expo_ge x); lia).
    apply Qle_trans with (pow2 (expo y + 52)).
    + unfold round_pos.
      apply Qle_trans with (inject_Z (2 ^ 53) * pow2 (expo x))%Q.
      * apply Qmult_le_compat_r; [|apply Qlt_le_weak; apply pow2_pos].
        rewrite <- Zle_Qle. apply mant_le. exact Hx.
      * rewrite <- pow2_nonneg by lia. rewrite <- pow2_add. apply pow2_le. lia.
    + unfold round_pos. rewrite Z.add_comm, pow2_add.
      apply Qmult_le_compat_r; [|apply Qlt_le_weak; apply pow2_pos].
      rewrite pow2_nonneg by lia. rewrite <- Zle_Qle. apply mant_ge; assumption.
Qed.

(** Rounding of any real *)

Lemma Qnum_sign : forall q : Q,
  ((Qnum q ?= 0) = Gt <-> (0 < q)%Q) /\
  ((Qnum q ?= 0) = Lt <-> (q < 0)%Q) /\
  ((Qnum q ?= 0) = Eq <-> (q == 0)%Q).
Proof.
  intros [n d]. unfold Qlt, Qeq. cbn [Qnum Qden].
  rewrite Z.compare_gt_iff, Z.compare_lt_iff, Z.compare_eq_iff. lia.
Qed.

Lemma fl_pos : forall q, (0 < q)%Q -> (fl q == round_pos q)%Q.
Proof.
  intros q H. unfold fl. rewrite Qred_correct.
  apply (proj1 (Qnum_sign q)) in H. rewrite H. reflexivity.
Qed.

Lemma fl_neg : forall q, (q < 0)%Q -> (fl q == - round_pos (- q))%Q.
Proof.
  intros q H. unfold fl. rewrite Qred_correct.
  apply (proj1 (proj2 (Qnum_sign q))) in H. rewrite H. reflexivity.
Qed.

Lemma fl_zero : forall q, (q == 0)%Q -> (fl q == 0)%Q.
Proof.
  intros q H. unfold fl. rewrite Qred_correct.
  apply (proj2 (proj2 (Qnum_sign q))) in H. rewrite H. reflexivity.
Qed.

Lemma Q_sign_cases : forall q : Q, (q < 0)%Q \/ (q == 0)%Q \/ (0 < q)%Q.
Proof.
  intros q. destruct (Q_dec q 0) as [[H|H]|H]; auto.
Qed.

Lemma fl_compat : forall x y, (x == y)%Q -> fl x = fl y.
Proof.
  intros x y E. apply Qred_complete.
  destruct (Q_sign_cases x) as [H|[H|H]].
  - pose proof H as H'. rewrite E in H'.
    apply (proj1 (proj2 (Qnum_sign x))) in H. apply (proj1 (proj2 (Qnum_sign y))) in H'.
    rewrite H, H'. apply Qopp_comp. apply round_pos_compat.
    + apply (proj1 (proj2 (Qnum_sign x))) in H. lra.
    + rewrite E. reflexivity.
  - pose proof H as H'. rewrite E in H'.
    apply (proj2 (proj2 (Qnum_sign x))) in H. apply (proj2 (proj2 (Qnum_sign y))) in H'.
    rewrite H, H'. reflexivity.
  - pose proof H as H'. rewrite E in H'.
    pose proof (round_pos_compat x y H E) as R.
    apply (proj1 (Qnum_sign x)) in H. apply (proj1 (Qnum_sign y)) in H'.
    rewrite H, H'. exact R.
Qed.

Lemma fl_case : forall q, fl_cases q.
Proof.
  intros q. destruct (Q_sign_cases q) as [H|[H|H]].
  - apply fl_case_neg; [exact H|apply fl_neg; exact H].
  - apply fl_case_zero; [exact H|apply fl_zero; exact H].
  - apply fl_case_pos; [exact H|apply fl_pos; exact H].
Qed.

Lemma fl_opp : forall q, (fl (- q) == - fl q)%Q.
Proof.
  intros q. destruct (fl_case q) as [H E|H E|H E]; rewrite E.
  - rewrite fl_pos by lra. ring.
  - rewrite fl_zero; [reflexivity|]. rewrite H. reflexivity.
  - rewrite fl_neg by lra. rewrite (round_pos_compat (- - q) q); [reflexivity|lra|ring].
Qed.

Lemma fl_nonneg : forall q, (0 <= q)%Q -> (0 <= fl q)%Q.
Proof.
  intros q Hq. destruct (fl_case q) as [H E|H E|H E]; rewrite E.
  - lra.
  - apply Qle_refl.
  - apply round_pos_nonneg. exact H.
Qed.

Lemma fl_nonpos : forall q, (q <= 0)%Q -> (fl q <= 0)%Q.
Proof.
  intros q Hq. assert (H : (0 <= fl (- q))%Q) by (apply fl_nonneg; lra).
  rewrite fl_opp in H. lra.
Qed.

Lemma fl_mono : forall x y, (x <= y)%Q -> (fl x <= fl y)%Q.
Proof.
  intros x y H.
  destruct (fl_case x) as [Hx Ex|Hx Ex|Hx Ex].
  - destruct (Qlt_le_dec y 0) as [Hy|Hy].
    + rewrite Ex, (fl_neg y Hy). apply Qopp_le_compat.
      apply round_pos_mono; lra.
    + eapply Qle_trans; [apply fl_nonpos; lra|apply fl_nonneg; exact Hy].
  - rewrite Ex. apply fl_nonneg. lra.
  - rewrite Ex, (fl_pos y) by lra. apply round_pos_mono; assumption.
Qed.

Lemma fl_rep : forall q m e,
  (q == inject_Z m * pow2 e)%Q -> Z.abs m <= 2 ^ 53 -> -1074 <= e -> is_f64 q.
Proof.
  intros q m e Eq Hm He. unfold is_f64.
  destruct (Z.lt_trichotomy m 0) as [N|[Z0|P]].
  - assert (Hq : (q < 0)%Q).
    { rewrite Eq. setoid_replace (inject_Z m * pow2 e)%Q
        with (- (inject_Z (- m) * pow2 e))%Q by (rewrite inject_Z_opp; ring).
      assert (0 < inject_Z (- m) * pow2 e)%Q; [|lra].
      apply Qmult_lt_0_compat; [|apply pow2_pos].
      change 0%Q with (inject_Z 0). rewrite <- Zlt_Qlt. lia. }
    rewrite (fl_neg q Hq).
    rewrite (round_pos_rep (- q) (- m) e); [ring| |lia|exact He].
    rewrite Eq, inject_Z_opp. ring.
  - subst m. assert (Hq : (q == 0)%Q) by (rewrite Eq; ring).
    rewrite (fl_zero q Hq). symmetry. exact Hq.
  - assert (Hq : (0 < q)%Q).
    { rewrite Eq. apply Qmult_lt_0_compat; [|apply pow2_pos].
      change 0%Q with (inject_Z 0). rewrite <- Zlt_Qlt. lia. }
    rewrite (fl_pos q Hq). apply (round_pos_rep q m e); [exact Eq|lia|exact He].
Qed.

(** Every binary64 number is a mantissa of at most 53 bits times a power
    of two that is at least 2^-1074. *)
Lemma fl_is_rep : forall q, exists m e,
  (fl q == inject_Z m * pow2 e)%Q /\ Z.abs m <= 2 ^ 53 /\ -1074 <= e.
Proof.
  intros q. destruct (fl_case q) as [H E|H E|H E].
  - exists (- round_half_even (- q / pow2 (expo (- q)))), (expo (- q)).
    assert (Hq : (0 < - q)%Q) by lra. pose proof (mant_le _ Hq) as Hm.
    split; [|split; [lia|apply expo_ge]].
    rewrite E. unfold round_pos. rewrite inject_Z_opp. ring.
  - exists 0, 0. split; [|split; [cbn; lia|lia]]. rewrite E. reflexivity.
  - exists (round_half_even (q / pow2 (expo q))), (expo q).
    pose proof (mant_le _ H) as Hm.
    split; [|split; [lia|apply expo_ge]]. rewrite E. reflexivity.
Qed.

Lemma fl_idem : forall q, is_f64 (fl q).
Proof.
  intros q. destruct (fl_is_rep q) as [m [e [E [Hm He]]]].
  exact (fl_rep _ m e E Hm He).
Qed.

Lemma is_f64_rep : forall q, is_f64 q -> exists m e,
  (q == inject_Z m * pow2 e)%Q /\ Z.abs m <= 2 ^ 53 /\ -1074 <= e.
Proof.
  intros q H. destruct (fl_is_rep q) as [m [e [E R]]].
  exists m, e. split; [|exact R]. unfold is_f64 in H. rewrite <- H. exact E.
Qed.

Lemma is_f64_Z : forall n, Z.abs n <= 2 ^ 53 -> is_f64 (inject_Z n).
Proof.
  intros n H. apply (fl_rep _ n 0); [|exact H|lia].
  change (pow2 0) with 1%Q. ring.
Qed.

Lemma is_f64_compat : forall x y, (x == y)%Q -> is_f64 x -> is_f64 y.
Proof.
  intros x y E H. unfold is_f64 in *. rewrite <- (fl_compat x y E), H. exact E.
Qed.

Lemma fl_le_f64 : forall x b, is_f64 b -> (x <= b)%Q -> (fl x <= b)%Q.
Proof. intros x b Hb H. unfold is_f64 in Hb. rewrite <- Hb. apply fl_mono. exact H. Qed.

Lemma fl_ge_f64 : forall x a, is_f64 a -> (a <= x)%Q -> (a <= fl x)%Q.
Proof. intros x a Ha H. unfold is_f64 in Ha. rewrite <- Ha at 1. apply fl_mono. exact H. Qed.

(** The rounding error below 2^k is at most half a unit in the last place. *)
Lemma fl_error : forall q k,
  (Qabs q < pow2 k)%Q -> -1074 <= k - 53 ->
  (Qabs (fl q - q) <= pow2 (k - 54))%Q.
Proof.
  intros q k Hk Hr.
  assert (P : forall p, (0 < p)%Q -> (p < pow2 k)%Q ->
                        (Qabs (round_pos p - p) <= pow2 (k - 54))%Q).
  { intros p Hp Hpk. eapply Qle_trans; [apply round_pos_error; exact Hp|].
    apply pow2_le. destruct (ilog2_spec p Hp) as [S1 _].
    assert (ilog2 p < k).
    { apply pow2_lt_inv. eapply Qle_lt_trans; eassumption. }
    unfold expo. lia. }
  destruct (fl_case q) as [H E|H E|H E]; rewrite E.
  - rewrite (Qabs_neg q) in Hk by lra.
    specialize (P (- q)%Q ltac:(lra) Hk).
    setoid_replace (- round_pos (- q) - q)%Q with (- (round_pos (- q) - - q))%Q by ring.
    rewrite Qabs_opp. exact P.
  - setoid_replace (0 - q)%Q with 0%Q by (rewrite H; ring).
    apply Qlt_le_weak. apply pow2_pos.
  - rewrite (Qabs_pos q) in Hk by lra. apply P; assumption.
Qed.



(** Doubling and halving *)

Lemma is_f64_double : forall x, is_f64 x -> is_f64 (2 * x).
Proof.
  intros x H. destruct (is_f64_rep x H) as [m [e [E [Hm He]]]].
  apply (fl_rep _ m (e + 1)); [|exact Hm|lia].
  rewrite E, pow2_succ. ring.
Qed.


Lemma expo_normal : forall x, (pow2 (-1022) <= x)%Q -> expo x = ilog2 x - 52.
Proof.
  intros x H.
  assert (Hx : (0 < x)%Q) by (eapply Qlt_le_trans; [apply pow2_pos|exact H]).
  destruct (ilog2_spec x Hx) as [_ S2].
  assert (-1022 < ilog2 x + 1).
  { apply pow2_lt_inv. eapply Qle_lt_trans; eassumption. }
  unfold expo. lia.
Qed.


(** ** [round(x / 2 / 5000)] *)

Section RoundDiv.
Variable x : Q.
Hypothesis x_f64 : is_f64 x.
Hypothesis x_lo : (0 <= x)%Q.
Hypothesis x_hi : (x <= inject_Z (2 ^ 53))%Q.

Let a : Q := div x 2.
Let q : Q := div a 5000.











End RoundDiv.

(** ** Ties go to the even integer *)

Lemma round_half_even_tie_Z : forall n d,
  2 * Z.abs (Zpos d * round_half_even (n # d) - n) = Zpos d ->
  Z.even (round_half_even (n # d)) = true.
Proof.
  intros n d. unfold round_half_even. cbn [Qnum Qden].
  pose proof (Z.div_mod n (Zpos d) ltac:(lia)) as Hdm.
  pose proof (Z.mod_pos_bound n (Zpos d) ltac:(lia)) as Hb.
  set (f := n / Zpos d) in *. set (r := n mod Zpos d) in *.
  destruct (2 * r <? Zpos d) eqn:E1.
  - apply Z.ltb_lt in E1. lia.
  - apply Z.ltb_ge in E1. destruct (Zpos d <? 2 * r) eqn:E2.
    + apply Z.ltb_lt in E2. lia.
    + destruct (Z.even f) eqn:Ev; [intros _; exact Ev|].
      intros _. rewrite Z.add_1_r, Z.even_succ, <- Z.negb_even, Ev. reflexivity.
Qed.

Lemma round_half_even_even_near : forall q n, Z.even n = true ->
  (Qabs (inject_Z n - q) <= 1 # 2)%Q -> round_half_even q = n.
Proof.
  intros [m d] n Ev H.
  pose proof (round_half_even_Z m d) as Hr.
  pose proof (round_half_even_tie_Z m d) as Ht.
  set (r := round_half_even (m # d)) in *.
  assert (Hn : 2 * Z.abs (Zpos d * n - m) <= Zpos d).
  { unfold Qle, Qabs, Qminus, Qplus, Qopp, inject_Z in H. simpl in H.
    rewrite Z.mul_1_r in H.
    replace (n * Zpos d + - m * 1) with (Zpos d * n - m) in H by ring. lia. }
  assert (C : r = n \/ r = n + 1 \/ r = n - 1) by nia.
  destruct C as [C|[C|C]]; [exact C| |].
  - assert (T : Z.even r = true) by (apply Ht; nia).
    rewrite C, Z.add_1_r, Z.even_succ, <- Z.negb_even, Ev in T. discriminate.
  - assert (T : Z.even r = true) by (apply Ht; nia).
    rewrite C, Z.sub_1_r, Z.even_pred, <- Z.negb_even, Ev in T. discriminate.
Qed.




(** ** A percentage and its complement *)

Lemma complement_sum : forall pb, (0 <= pb)%Q -> (pb <= 100)%Q ->
  (add pb (sub 100 pb) == 100)%Q.
Proof.
  intros pb H0 H1. unfold add, sub. set (pa := fl (100 - pb)).
  assert (Err : (Qabs (pa - (100 - pb)) <= pow2 (-47))%Q).
  { unfold pa. apply (fl_error (100 - pb) 7); [|lia].
    apply Qabs_Qlt_condition. change (pow2 7) with 128%Q. split; lra. }
  change (pow2 (-47)) with (1 # 140737488355328)%Q in Err.
  apply Qabs_Qle_condition in Err. destruct Err as [E1 E2].
  set (s := (pb + pa)%Q) in *.
  assert (Hs : (0 < s)%Q) by (unfold s; lra).
  assert (Il : ilog2 s = 6).
  { apply ilog2_unique.
    - change (pow2 6) with 64%Q. unfold s. lra.
    - change (pow2 (6 + 1)) with 128%Q. unfold s. lra. }
  rewrite (fl_pos s Hs). unfold round_pos, expo. rewrite Il.
  change (Z.max (6 - 52) (-1074)) with (-46).
  change (pow2 (-46)) with (1 # 70368744177664)%Q.
  rewrite (round_half_even_even_near _ 7036874417766400).
  - reflexivity.
  - reflexivity.
  - apply Qabs_Qle_condition.
    change (inject_Z 7036874417766400) with 7036874417766400%Q.
    unfold s. unfold Qdiv. change (/ (1 # 70368744177664))%Q with 70368744177664%Q.
    split; lra.
Qed.

End F64Facts.

(** ** Decimal bounds *)

(** On binary64 values, being at least the float [0.1] is being at least
    1/10. *)
Lemma decimal_bound_0_1 : forall x, F64.is_f64 x ->
  ((1 # 10 <= x)%Q <-> (F64.fl (1 # 10) <= x)%Q).
Proof.
  intros x Hx. split; intros H.
  - apply fl_mono in H. unfold F64.is_f64 in Hx. rewrite Hx in H. exact H.
  - apply Qle_trans with (F64.fl (1 # 10)); [|exact H]. vm_compute. discriminate.
Qed.

(** ** Agreement with the Standard Library's specification *)

(** Literals, products, quotients, differences and sums of the examples,
    and a product in the subnormal range, computed by [SpecFloat] and by
    [F64]. *)
Lemma f64_agrees_with_SpecFloat :
  IEEE.agrees (IEEE.lit 85 100) f_085 /\
  IEEE.agrees (IEEE.lit 575 1000) (F64.fl (575 # 1000)) /\
  IEEE.agrees (IEEE.mul (IEEE.of_Z 400000) (IEEE.lit 85 100))
              (F64.mul 400000 f_085) /\
  IEEE.agrees (IEEE.mul (IEEE.of_Z 200000) (IEEE.lit 575 1000))
              (F64.mul 200000 (F64.fl (575 # 1000))) /\
  IEEE.agrees (IEEE.mul (IEEE.of_Z 200000) (IEEE.lit 975 1000))
              (F64.mul 200000 (F64.fl (975 # 1000))) /\
  IEEE.agrees (IEEE.div (IEEE.div (IEEE.mul (IEEE.of_Z 200000) (IEEE.lit 575 1000))
                                  (IEEE.of_Z 2)) (IEEE.of_Z 5000))
              (F64.div (F64.div (F64.mul 200000 (F64.fl (575 # 1000))) 2) 5000) /\
  IEEE.agrees (IEEE.mul (IEEE.sub (IEEE.of_Z 1) (IEEE.lit 85 100)) (IEEE.of_Z 100))
              (F64.mul (F64.sub 1 f_085) 100) /\
  IEEE.agrees (IEEE.mul (IEEE.div (IEEE.of_Z 1) (IEEE.of_Z 6)) (IEEE.of_Z 100))
              (F64.mul (F64.div (F64.of_Z 1) (F64.of_Z 6)) 100) /\
  IEEE.agrees (IEEE.sub (IEEE.of_Z 100)
                 (IEEE.mul (IEEE.div (IEEE.of_Z 1) (IEEE.of_Z 6)) (IEEE.of_Z 100)))
              (F64.sub 100 (F64.mul (F64.div (F64.of_Z 1) (F64.of_Z 6)) 100)) /\
  IEEE.agrees (IEEE.div (IEEE.add (IEEE.add (IEEE.lit 22039469 100)
                                            (IEEE.lit 22039469 100))
                                  (IEEE.lit 22039469 100)) (IEEE.of_Z 3))
              (F64.div (F64.add (F64.add p_220394_69 p_220394_69) p_220394_69) 3) /\
  (let tiny := IEEE.div (IEEE.of_Z 1) (IEEE.of_Z (2 ^ 537)) in
   let tiny' := F64.div 1 (inject_Z (2 ^ 537)) in
   IEEE.agrees (IEEE.mul (IEEE.div (IEEE.of_Z 5) (IEEE.of_Z 3)) (IEEE.mul tiny tiny))
               (F64.mul (F64.div 5 3) (F64.mul tiny' tiny'))).
Proof.
  repeat match goal with |- _ /\ _ => split end; vm_compute; reflexivity.
Qed.

(* ================================================================== *)
(** * Properties of the record-card parser *)
(* ================================================================== *)

Section ParserFacts.
Context `{RT : PyRuntime}.

Ltac setter := let p := fresh "p" in intros ? p; destruct p; reflexivity.

Lemma page2_set_parcel_number : forall v p,
  page2_fields (set_parcel_number v p) = page2_fields p.
Proof. setter. Qed.

Lemma page2_set_address : forall v p,
  page2_fields (set_address v p) = page2_fields p.
Proof. setter. Qed.

Lemma page2_set_area_code : forall v p,
  page2_fields (set_area_code v p) = page2_fields p.
Proof. setter. Qed.

Lemma page2_set_subdivision : forall v p,
  page2_fields (set_subdivision v p) = page2_fields p.
Proof. setter. Qed.

Lemma page2_set_sev_2026 : forall v p,
  page2_fields (set_sev_2026 v p) = page2_fields p.
Proof. setter. Qed.

Lemma page2_set_tcv_2026 : forall v p,
  page2_fields (set_tcv_2026 v p) = page2_fields p.
Proof. setter. Qed.

Lemma page2_set_land_value : forall v p,
  page2_fields (set_land_value v p) = page2_fields p.
Proof. setter. Qed.

Lemma page2_set_assessment_history : forall v p,
  page2_fields (set_assessment_history v p) = page2_fields p.
Proof. setter. Qed.

Lemma page2_set_raw_text_page1 : forall v p,
  page2_fields (set_raw_text_page1 v p) = page2_fields p.
Proof. setter. Qed.

Create Rewrite HintDb page2.
#[local] Hint Rewrite page2_set_parcel_number page2_set_address page2_set_area_code
  page2_set_subdivision page2_set_sev_2026 page2_set_tcv_2026
  page2_set_land_value page2_set_assessment_history page2_set_raw_text_page1
  : page2.

Lemma page2_derive_sev_from_tcv : forall p,
  page2_fields (derive_sev_from_tcv p) = page2_fields p.
Proof.
  intros p. unfold derive_sev_from_tcv.
  destruct ((sev_2026 p =? 0) && (tcv_2026 p >? 0)); autorewrite with page2; reflexivity.
Qed.

Lemma history_step_page2 : forall m p, keeps_page2 (history_step m p) p.
Proof.
  intros m p. unfold history_step, int_or_raise.
  destruct (py_int (group m 1)) as [y|]; simpl; [|exact I].
  destruct (y =? 2026); autorewrite with page2; reflexivity.
Qed.

Lemma foldM_history_page2 : forall ms p, keeps_page2 (foldM history_step ms p) p.
Proof.
  induction ms as [|m ms IH]; intros p; simpl; [reflexivity|].
  pose proof (history_step_page2 m p) as Hm.
  destruct (history_step m p) as [q|e]; simpl in *; [|exact I].
  specialize (IH q). unfold keeps_page2 in *.
  destruct (foldM history_step ms q); [congruence|exact I].
Qed.

Lemma parse_history_page2 : forall text p,
  keeps_page2 (_parse_assessment_history text p) p.
Proof.
  intros text p. unfold _parse_assessment_history.
  pose proof (foldM_history_page2
                (re_finditer history_pattern (_normalize_ocr_numbers text)) p) as H.
  destruct (foldM history_step _ p) as [q|e]; simpl in *; [|exact I].
  autorewrite with page2. exact H.
Qed.

Lemma parse_page1_page2 : forall text p, keeps_page2 (_parse_page1 text p) p.
Proof.
  intros text p. unfold _parse_page1.
  match goal with
  | |- keeps_page2 (_parse_assessment_history _ ?q) _ =>
      pose proof (parse_history_page2 text q) as H;
      assert (Hq : page2_fields q = page2_fields p)
  end.
  { repeat match goal with
           | |- context [match ?x with _ => _ end] => destruct x
           end; autorewrite with page2; reflexivity. }
  unfold keeps_page2 in *.
  destruct (_parse_assessment_history text _); [congruence|exact I].
Qed.

(** With no second page, the parse is the parse of the first page followed
    by the derivation of the assessed value. *)
Lemma parse_rc_pdf_one_page : forall pg,
  parse_rc_pdf (Ok [pg]) =
  (text1 <- pg ;;
   prop <- _parse_page1 text1 (set_raw_text_page1 text1 default_PropertyData) ;;
   Ok (derive_sev_from_tcv prop)).
Proof.
  intros pg. unfold parse_rc_pdf. simpl.
  destruct pg as [text|e]; simpl; [|reflexivity].
  destruct (_parse_page1 text _); reflexivity.
Qed.

Lemma parse_rc_pdf_ignores_later_pages : forall p1 p2 more,
  parse_rc_pdf (Ok (p1 :: p2 :: more)) = parse_rc_pdf (Ok [p1; p2]).
Proof. intros. reflexivity. Qed.

(** C10. A document with no page yields the default [PropertyData] and no
    exception; for a document with one page every field that page 2
    provides (style, year built, condition, effective age, areas,
    cost-approach totals, cost factor, the page-2 text) is still the
    default in whatever is returned; and a document with more than two
    pages is parsed as its first two pages. *)
Theorem C10_page_count_handling :
  parse_rc_pdf (Ok []) = Ok default_PropertyData /\
  (forall pg, match parse_rc_pdf (Ok [pg]) with
              | Ok prop => page2_fields prop = page2_fields default_PropertyData
              | Raise _ => True
              end) /\
  (forall text1,
     parse_rc_pdf (Ok [Ok text1]) =
     (prop <- _parse_page1 text1 (set_raw_text_page1 text1 default_PropertyData) ;;
      Ok (derive_sev_from_tcv prop))) /\
  (forall p1 p2 more,
     parse_rc_pdf (Ok (p1 :: p2 :: more)) = parse_rc_pdf (Ok [p1; p2])).
Proof.
  split; [reflexivity|]. split; [|split].
  - intros pg. rewrite parse_rc_pdf_one_page.
    destruct pg as [text|e]; simpl; [|exact I].
    pose proof (parse_page1_page2 text (set_raw_text_page1 text default_PropertyData)) as H.
    destruct (_parse_page1 text _) as [q|e]; simpl in *; [|exact I].
    rewrite page2_derive_sev_from_tcv, H. reflexivity.
  - intros text1. rewrite parse_rc_pdf_one_page. reflexivity.
  - apply parse_rc_pdf_ignores_later_pages.
Qed.

End ParserFacts.

Lemma derive_sev_from_tcv_spec : forall prop,
  sev_2026 prop = 0 -> 0 < tcv_2026 prop ->
  tcv_2026 (derive_sev_from_tcv prop) = tcv_2026 prop /\
  sev_2026 (derive_sev_from_tcv prop) = tcv_2026 prop / 2.
Proof.
  intros prop Hs Ht. unfold derive_sev_from_tcv.
  rewrite Hs. simpl.
  assert (Hgt : (tcv_2026 prop >? 0) = true) by (apply Z.gtb_lt; lia).
  rewrite Hgt. destruct prop; simpl. split; reflexivity.
Qed.

(** C6, as stated, fails on the fallback of [parse_rc_pdf]: from a true
    cash value of 400,001 and no assessed value the parser derives an
    assessed value of 200,000, and 400,001 is not twice 200,000. *)
Lemma C6_counterexample_odd_tcv :
  sev_2026 odd_tcv_record = 0 /\
  tcv_2026 (derive_sev_from_tcv odd_tcv_record) = 400001 /\
  sev_2026 (derive_sev_from_tcv odd_tcv_record) = 200000 /\
  tcv_2026 (derive_sev_from_tcv odd_tcv_record)
    <> 2 * sev_2026 (derive_sev_from_tcv odd_tcv_record).
Proof. repeat split; try reflexivity. discriminate. Qed.

(** C6, amended. In [generate_appeal_summary] the homeowner's true cash
    value is exactly twice the assessed value, and so is the recommended
    pair. The fallback of [parse_rc_pdf] (no assessed value, a true cash
    value read) keeps the true cash value and sets the assessed value to
    its half rounded down: the true cash value is twice the assessed value
    plus the remainder, hence exactly twice when it is even. *)
Theorem C6_tcv_is_twice_sev :
  (forall user_sev, (user_tcv user_sev == 2 * user_sev)%Q) /\
  (forall user_sev ecf_trend st,
     rec_tcv user_sev ecf_trend st = 2 * rec_sev user_sev ecf_trend st) /\
  (forall prop,
     sev_2026 prop = 0 -> 0 < tcv_2026 prop ->
     tcv_2026 (derive_sev_from_tcv prop) = tcv_2026 prop /\
     sev_2026 (derive_sev_from_tcv prop) = tcv_2026 prop / 2 /\
     tcv_2026 (derive_sev_from_tcv prop)
       = 2 * sev_2026 (derive_sev_from_tcv prop) + tcv_2026 prop mod 2 /\
     (Z.even (tcv_2026 prop) = true ->
      tcv_2026 (derive_sev_from_tcv prop) = 2 * sev_2026 (derive_sev_from_tcv prop))).
Proof.
  split; [|split].
  - intros user_sev. unfold user_tcv. ring.
  - intros. unfold rec_tcv. ring.
  - intros prop Hs Ht.
    destruct (derive_sev_from_tcv_spec prop Hs Ht) as [H1 H2].
    rewrite H1, H2. repeat split.
    + apply Z.div_mod. lia.
    + intros Hev. pose proof (Z.div_mod (tcv_2026 prop) 2 ltac:(lia)) as Hdm.
      rewrite Zmod_even, Hev in Hdm. lia.
Qed.

Lemma C6_witness_even_tcv :
  sev_2026 even_tcv_record = 0 /\ 0 < tcv_2026 even_tcv_record /\
  tcv_2026 (derive_sev_from_tcv even_tcv_record)
    = 2 * sev_2026 (derive_sev_from_tcv even_tcv_record).
Proof.
  split; [reflexivity|]. split; [reflexivity|].
  destruct C6_tcv_is_twice_sev as [_ [_ H]].
  destruct (H even_tcv_record eq_refl eq_refl) as [_ [_ [_ Hev]]].
  apply Hev. reflexivity.
Defined.

(* ================================================================== *)
(** * Properties of the valuation engine *)
(* ================================================================== *)

Lemma Qltb_lt : forall a b, Qltb a b = true <-> (a < b)%Q.
Proof.
  intros a b. unfold Qltb. rewrite negb_true_iff.
  split; intros H.
  - apply Qnot_le_lt. intros Hle. apply Qle_bool_iff in Hle. congruence.
  - destruct (Qle_bool b a) eqn:E; [|reflexivity].
    apply Qle_bool_iff in E. exfalso. exact (Qlt_not_le _ _ H E).
Qed.

Lemma Qltb_ge : forall a b, Qltb a b = false <-> (b <= a)%Q.
Proof.
  intros a b. unfold Qltb. rewrite negb_false_iff. apply Qle_bool_iff.
Qed.

(** [max(...)] returns an element that no element exceeds. *)
Lemma Qmax_list_In : forall l first,
  In (Qmax_list first l) (first :: l).
Proof.
  induction l as [|x l IH]; intros first; simpl; [left; reflexivity|].
  destruct (Qltb first x).
  - destruct (IH x) as [H|H]; [right; left; exact H|right; right; exact H].
  - destruct (IH first) as [H|H]; [left; exact H|right; right; exact H].
Qed.

Lemma Qmax_list_ge_first : forall l first, (first <= Qmax_list first l)%Q.
Proof.
  induction l as [|x l IH]; intros first; simpl; [apply Qle_refl|].
  destruct (Qltb first x) eqn:E.
  - apply Qltb_lt in E. eapply Qle_trans; [apply Qlt_le_weak; exact E|apply IH].
  - apply IH.
Qed.

Lemma Qmax_list_upper : forall l first v,
  In v (first :: l) -> (v <= Qmax_list first l)%Q.
Proof.
  induction l as [|x l IH]; intros first v Hin; simpl in *.
  - destruct Hin as [->|[]]. apply Qle_refl.
  - destruct Hin as [->|[->|Hin]].
    + destruct (Qltb v x) eqn:E.
      * apply Qltb_lt in E.
        eapply Qle_trans; [apply Qlt_le_weak; exact E|apply Qmax_list_ge_first].
      * apply Qmax_list_ge_first.
    + destruct (Qltb first v) eqn:E.
      * apply Qmax_list_ge_first.
      * apply Qltb_ge in E. eapply Qle_trans; [exact E|apply Qmax_list_ge_first].
    + destruct (Qltb first x); apply IH; right; exact Hin.
Qed.

Lemma with_sales_Some : forall st s,
  with_sales st = Some s <-> st = Stats s /\ 0 < stats_count st.
Proof.
  intros st s. unfold with_sales, stats_count. split.
  - destruct st as [| |s']; try discriminate.
    destruct (0 <? SalesStats.count s') eqn:E; [|discriminate].
    intros H. injection H as ->. apply Z.ltb_lt in E. split; [reflexivity|exact E].
  - intros [-> H]. apply Z.ltb_lt in H. rewrite H. reflexivity.
Qed.

Lemma with_sales_None : forall st,
  with_sales st = None <-> stats_count st <= 0.
Proof.
  intros st. unfold with_sales, stats_count.
  destruct st as [| |s]; try (split; [lia|reflexivity]).
  destruct (0 <? SalesStats.count s) eqn:E.
  - apply Z.ltb_lt in E. split; [discriminate|lia].
  - apply Z.ltb_ge in E. split; [lia|reflexivity].
Qed.

Lemma ecf_candidate_Some : forall ecf tcv v,
  ecf_candidate ecf tcv = Some v <->
  exists e, ecf = Some e /\ (e < 1)%Q /\ v = F64.mul tcv e.
Proof.
  intros ecf tcv v. unfold ecf_candidate. split.
  - destruct ecf as [e|]; [|discriminate].
    destruct (Qltb e 1) eqn:E; [|discriminate].
    intros H. injection H as <-. exists e. apply Qltb_lt in E. auto.
  - intros [e [-> [He ->]]]. apply Qltb_lt in He. rewrite He. reflexivity.
Qed.

Lemma ecf_candidate_None : forall ecf tcv,
  ecf_candidate ecf tcv = None <-> forall e, ecf = Some e -> ~ (e < 1)%Q.
Proof.
  intros ecf tcv. unfold ecf_candidate. split.
  - destruct ecf as [e|]; [|discriminate].
    destruct (Qltb e 1) eqn:E; [discriminate|].
    intros _ e' H. injection H as <-. apply Qltb_ge in E.
    intros Hlt. exact (Qlt_not_le _ _ Hlt E).
  - intros H. destruct ecf as [e|]; [|reflexivity].
    destruct (Qltb e 1) eqn:E; [|reflexivity].
    apply Qltb_lt in E. exfalso. exact (H e eq_refl E).
Qed.

Lemma candidates_spec : forall ecf tcv st v,
  In v (candidates ecf tcv st) <-> in_candidate_set ecf tcv st v.
Proof.
  intros ecf tcv st v. unfold candidates, in_candidate_set.
  rewrite in_app_iff. split.
  - intros [H|H].
    + left. destruct (ecf_candidate ecf tcv) as [c|] eqn:E; [|destruct H].
      destruct H as [<-|[]]. apply ecf_candidate_Some. exact E.
    + right. destruct (with_sales st) as [s|] eqn:E; [|destruct H].
      apply with_sales_Some in E. destruct E as [-> Hc].
      split; [exact Hc|]. exists s. split; [reflexivity|].
      destruct H as [<-|[<-|[]]]; auto.
  - intros [H|[Hc [s [-> H]]]].
    + left. apply ecf_candidate_Some in H. rewrite H. left. reflexivity.
    + right. assert (E : with_sales (Stats s) = Some s)
        by (apply with_sales_Some; auto).
      rewrite E. destruct H as [->| ->]; simpl; auto.
Qed.

Lemma primary_spec : forall ecf tcv st,
  is_primary ecf tcv st
    (match with_sales st with
     | Some s => SalesStats.median s
     | None => match ecf_candidate ecf tcv with
               | Some v => v
               | None => tcv
               end
     end).
Proof.
  intros ecf tcv st. unfold is_primary.
  destruct (with_sales st) as [s|] eqn:Es.
  - apply with_sales_Some in Es. destruct Es as [-> Hc].
    left. split; [exact Hc|]. exists s. auto.
  - apply with_sales_None in Es. right.
    destruct (ecf_candidate ecf tcv) as [v|] eqn:Ee.
    + left. split; [exact Es|]. apply ecf_candidate_Some. exact Ee.
    + right. split; [exact Es|]. split; [|reflexivity].
      apply (ecf_candidate_None ecf tcv). exact Ee.
Qed.

(** C2. The candidate list of [_compute_recommended_values] is the
    candidate set of the design. When that set is empty the function
    returns (true cash value, true cash value). Otherwise its first
    component is the primary value (sales median if the count is positive,
    else the adjusted value if the latest factor is below 1.0, else the
    true cash value) and its second component is the maximum of the
    candidate set: a candidate that no candidate exceeds. *)
Theorem C2_recommended_values : forall ecf_2026 user_tcv st,
  (forall v, In v (candidates ecf_2026 user_tcv st)
             <-> in_candidate_set ecf_2026 user_tcv st v) /\
  ((forall v, ~ in_candidate_set ecf_2026 user_tcv st v) ->
   _compute_recommended_values ecf_2026 user_tcv st = (user_tcv, user_tcv)) /\
  ((exists v, in_candidate_set ecf_2026 user_tcv st v) ->
   is_primary ecf_2026 user_tcv st
     (fst (_compute_recommended_values ecf_2026 user_tcv st)) /\
   in_candidate_set ecf_2026 user_tcv st
     (snd (_compute_recommended_values ecf_2026 user_tcv st)) /\
   forall v, in_candidate_set ecf_2026 user_tcv st v ->
             (v <= snd (_compute_recommended_values ecf_2026 user_tcv st))%Q).
Proof.
  intros ecf tcv st. split; [apply candidates_spec|]. split.
  - intros Hnone. unfold _compute_recommended_values.
    destruct (candidates ecf tcv st) as [|c cs] eqn:E; [reflexivity|].
    exfalso. apply (Hnone c). apply candidates_spec. rewrite E. left. reflexivity.
  - intros [v0 Hv0]. apply candidates_spec in Hv0.
    unfold _compute_recommended_values.
    destruct (candidates ecf tcv st) as [|c cs] eqn:E; [destruct Hv0|].
    simpl. split; [apply primary_spec|]. split.
    + apply candidates_spec. rewrite E. apply Qmax_list_In.
    + intros v Hv. apply candidates_spec in Hv. rewrite E in Hv.
      apply Qmax_list_upper. exact Hv.
Qed.

Lemma C2_witness_cost_factor_only :
  (exists v, in_candidate_set (Some f_085) 400000 CountOnly v) /\
  is_primary (Some f_085) 400000 CountOnly
    (fst (_compute_recommended_values (Some f_085) 400000 CountOnly)).
Proof.
  assert (H : exists v, in_candidate_set (Some f_085) 400000 CountOnly v).
  { exists (F64.mul 400000 f_085). left. exists f_085.
    split; [reflexivity|]. split; [reflexivity|reflexivity]. }
  split; [exact H|].
  destruct (C2_recommended_values (Some f_085) 400000 CountOnly) as [_ [_ Hc]].
  destruct (Hc H) as [Hp _]. exact Hp.
Defined.

(* ================================================================== *)
(** * Properties of the petition composer: the appeal gate *)
(* ================================================================== *)




Section Gate.

Variables (area_code subdivision : string) (user_sev : Q).
Variables (ecf_trend : list (Z * option Q)) (st : sales_stats).
Variables (land_trends : list LandTrend.t) (coverage : list (Z * Z)).
Variables (ecf_properties : list EcfProperty.t).
Variables (sales_df : option (frame Comparable.row)) (prop : option PropertyData).

Let out : result string :=
  generate_appeal_summary area_code subdivision user_sev ecf_trend st
    land_trends coverage ecf_properties sales_df prop.

Lemma no_appeal_short_form :
  no_appeal user_sev ecf_trend st = true ->
  out = Ok (join nl (not_recommended_lines area_code subdivision user_sev
                                           ecf_trend st prop)) /\
  is_short_form out = true /\ is_petition out = false.
Proof.
  intros H. unfold out, generate_appeal_summary, summary_lines. rewrite H. simpl.
  split; [reflexivity|]. split; reflexivity.
Qed.



End Gate.



(** The primary value is a binary64 value when the assessed value, the
    latest factor's product and the sales median are. *)
Lemma rec_low_is_f64 : forall user_sev ecf_trend st,
  F64.is_f64 user_sev ->
  (forall s, st = Stats s -> F64.is_f64 (SalesStats.median s)) ->
  F64.is_f64 (rec_low user_sev ecf_trend st).
Proof.
  intros user_sev ecf_trend st Hs Hm.
  assert (Ht : F64.is_f64 (user_tcv user_sev)).
  { unfold user_tcv. apply (is_f64_compat (2 * user_sev)%Q); [ring|].
    apply is_f64_double. exact Hs. }
  unfold rec_low, _compute_recommended_values.
  destruct (candidates _ _ _) as [|c cs]; [exact Ht|]. cbn [fst].
  destruct (with_sales st) as [s|] eqn:Es.
  - apply with_sales_Some in Es. destruct Es as [Es _]. apply Hm. exact Es.
  - unfold ecf_candidate. destruct (ecf_2026 ecf_trend) as [e|]; [|exact Ht].
    destruct (Qltb e 1); [|exact Ht]. apply fl_idem.
Qed.



(* ================================================================== *)
(** * Properties of the sales statistics *)
(* ================================================================== *)

Lemma pct_bounds : forall below count,
  0 <= below <= count -> 0 < count ->
  (0 <= F64.mul (F64.div (F64.of_Z below) (F64.of_Z count)) 100)%Q /\
  (F64.mul (F64.div (F64.of_Z below) (F64.of_Z count)) 100 <= 100)%Q.
Proof.
  intros below count Hb Hc. unfold F64.of_Z.
  assert (A0 : (0 <= F64.fl (inject_Z below))%Q).
  { apply fl_nonneg. change 0%Q with (inject_Z 0). rewrite <- Zle_Qle. lia. }
  assert (AB : (F64.fl (inject_Z below) <= F64.fl (inject_Z count))%Q).
  { apply fl_mono. rewrite <- Zle_Qle. lia. }
  assert (B1 : (1 <= F64.fl (inject_Z count))%Q).
  { apply fl_ge_f64; [apply (is_f64_Z 1); vm_compute; discriminate|].
    change 1%Q with (inject_Z 1). rewrite <- Zle_Qle. lia. }
  set (a := F64.fl (inject_Z below)) in *. set (b := F64.fl (inject_Z count)) in *.
  assert (R0 : (0 <= a / b)%Q) by (apply Qle_shift_div_l; lra).
  assert (R1 : (a / b <= 1)%Q) by (apply Qle_shift_div_r; lra).
  assert (D0 : (0 <= F64.div a b)%Q) by (apply fl_nonneg; exact R0).
  assert (D1 : (F64.div a b <= 1)%Q).
  { apply fl_le_f64; [apply (is_f64_Z 1); vm_compute; discriminate|exact R1]. }
  unfold F64.mul. split.
  - apply fl_nonneg. lra.
  - apply fl_le_f64; [apply (is_f64_Z 100); vm_compute; discriminate|lra].
Qed.

(** The binary64 difference [100 - pb] is within 2^-47 of the exact one. *)
Lemma complement_error : forall pb, (0 <= pb)%Q -> (pb <= 100)%Q ->
  (Qabs (pb + F64.sub 100 pb - 100) <= 1 # 140737488355328)%Q.
Proof.
  intros pb H0 H1. unfold F64.sub.
  setoid_replace (pb + F64.fl (100 - pb) - 100)%Q
    with (F64.fl (100 - pb) - (100 - pb))%Q by ring.
  change (1 # 140737488355328)%Q with (F64.pow2 (7 - 54)).
  apply fl_error; [|lia].
  apply Qabs_Qlt_condition. change (F64.pow2 7) with 128%Q. split; lra.
Qed.

Lemma filter_length_le : forall (A : Type) (f : A -> bool) (l : list A),
  (List.length (filter f l) <= List.length l)%nat.
Proof.
  induction l as [|x l IH]; simpl; [lia|].
  destruct (f x); simpl; lia.
Qed.

(** C9, as stated, fails: with one of six prices below the true cash
    value the two percentages are the binary64 values 16.666666666666664
    and 83.33333333333334, and their sum is not 100. *)
Lemma C9_counterexample_one_of_six :
  exists st below above,
    compute_sales_stats mean_left_to_right six_sales 400000 = Ok st /\
    stats_pct_below st = Some below /\
    stats_pct_above st = Some above /\
    ~ (below + above == 100)%Q.
Proof.
  eexists (Stats _), _, _. split; [vm_compute; reflexivity|].
  split; [reflexivity|]. split; [reflexivity|].
  vm_compute. discriminate.
Qed.

(** C9, amended. For a frame of comparable sales that is not empty,
    [compute_sales_stats] returns statistics whose [pct_below_tcv] is
    between 0 and 100 and whose [pct_above_tcv] is the binary64 difference
    100 - [pct_below_tcv]: the binary64 sum of the two is exactly 100, and
    their exact sum is within 2^-47 of 100. *)
Theorem C9_percentages_sum_to_100 : forall series_mean sales_df user_tcv,
  empty sales_df = false ->
  has_col "Adj_Sale" sales_df = true ->
  exists st below above,
    compute_sales_stats series_mean sales_df user_tcv = Ok st /\
    stats_pct_below st = Some below /\
    stats_pct_above st = Some above /\
    (above == F64.sub 100 below)%Q /\
    (F64.add below above == 100)%Q /\
    (Qabs (below + above - 100) <= 1 # 140737488355328)%Q /\
    (0 <= below)%Q /\ (below <= 100)%Q.
Proof.
  intros mean df tcv Hne Hcol. unfold compute_sales_stats. rewrite Hne.
  unfold require_col. unfold has_col in Hcol. rewrite Hcol. simpl.
  destruct (DataLoader.somes (map Comparable.Adj_Sale (rows df))) as [|p0 ps] eqn:E.
  - exists AllMissing, 0%Q, (100 - 0)%Q. cbn [stats_pct_below stats_pct_above].
    repeat split; try reflexivity; vm_compute; discriminate.
  - set (prices := p0 :: ps).
    set (below := Z.of_nat (List.length (filter (fun p => Qltb p tcv) prices))).
    set (count := Z.of_nat (List.length prices)).
    assert (Hb : 0 <= below <= count).
    { unfold below, count. pose proof (filter_length_le _ (fun p => Qltb p tcv) prices). lia. }
    assert (Hc : 0 < count) by (unfold count, prices; simpl; lia).
    destruct (pct_bounds below count Hb Hc) as [H0 H100].
    eexists (Stats _), _, _. split; [reflexivity|].
    cbn [stats_pct_below stats_pct_above SalesStats.pct_below_tcv
         SalesStats.pct_above_tcv].
    split; [reflexivity|]. split; [reflexivity|].
    split; [reflexivity|].
    split; [apply complement_sum; assumption|].
    split; [apply complement_error; assumption|].
    split; assumption.
Qed.

Lemma C9_witness_six_sales :
  exists st below above,
    compute_sales_stats mean_left_to_right six_sales 400000 = Ok st /\
    stats_pct_below st = Some below /\
    stats_pct_above st = Some above /\
    (above == F64.sub 100 below)%Q /\
    (F64.add below above == 100)%Q /\
    (Qabs (below + above - 100) <= 1 # 140737488355328)%Q /\
    (0 <= below)%Q /\ (below <= 100)%Q.
Proof.
  apply (C9_percentages_sum_to_100 mean_left_to_right six_sales 400000); reflexivity.
Defined.

(* ================================================================== *)
(** * Sorting and dictionaries *)
(* ================================================================== *)

Section SortFacts.
Context {A : Type} (leb : A -> A -> bool).

Lemma insert_sorted_perm : forall a l,
  Permutation (insert_sorted leb a l) (a :: l).
Proof.
  induction l as [|y l IH]; simpl; [apply Permutation_refl|].
  destruct (leb a y); [apply Permutation_refl|].
  eapply Permutation_trans; [apply perm_skip; exact IH|apply perm_swap].
Qed.

Lemma sort_perm : forall l, Permutation (sort leb l) l.
Proof.
  induction l as [|a l IH]; simpl; [apply perm_nil|].
  eapply Permutation_trans; [apply insert_sorted_perm|apply perm_skip; exact IH].
Qed.

Lemma sort_In : forall l x, In x (sort leb l) <-> In x l.
Proof.
  intros l x. split; apply Permutation_in;
    [apply sort_perm|apply Permutation_sym; apply sort_perm].
Qed.

End SortFacts.

Lemma filter_perm : forall (A : Type) (f : A -> bool) (l l' : list A),
  Permutation l l' -> Permutation (filter f l) (filter f l').
Proof.
  intros A f l l' H. induction H; simpl.
  - apply perm_nil.
  - destruct (f x); [apply perm_skip|]; assumption.
  - destruct (f x), (f y); try apply Permutation_refl. apply perm_swap.
  - eapply Permutation_trans; eassumption.
Qed.

Lemma dict_set_fresh : forall (V : Type) (k : Z) (v : V) d,
  ~ In k (map fst d) -> dict_set Z.eqb k v d = (d ++ [(k, v)])%list.
Proof.
  induction d as [|[k' v'] d IH]; simpl; intros H; [reflexivity|].
  destruct (k =? k') eqn:E.
  - apply Z.eqb_eq in E. exfalso. apply H. left. symmetry. exact E.
  - rewrite IH; [reflexivity|]. intros Hin. apply H. right. exact Hin.
Qed.

(** Filling a dict from a list of distinct keys lists them in order. *)
Lemma fold_dict_set_map : forall (F V : Type) (g : F -> V) (l : list (Z * F)) acc,
  NoDup (map fst acc ++ map fst l) ->
  fold_left (fun d '(k, f) => dict_set Z.eqb k (g f) d) l acc
  = (acc ++ map (fun '(k, f) => (k, g f)) l)%list.
Proof.
  induction l as [|[k f] l IH]; intros acc Hnd; simpl.
  - rewrite app_nil_r. reflexivity.
  - assert (Hfresh : ~ In k (map fst acc)).
    { intros Hin. apply NoDup_remove_2 in Hnd. apply Hnd.
      apply in_or_app. left. exact Hin. }
    rewrite dict_set_fresh by exact Hfresh.
    rewrite IH.
    + rewrite <- app_assoc. reflexivity.
    + rewrite map_app. simpl. rewrite <- app_assoc. exact Hnd.
Qed.

(* ================================================================== *)
(** * Properties of the land-value trend *)
(* ================================================================== *)

Lemma fold_max_In : forall l n,
  In (fold_right Nat.max 0%nat (n :: l)) (n :: l).
Proof.
  induction l as [|m l IH]; intros n.
  - simpl. left. symmetry. apply Nat.max_0_r.
  - change (fold_right Nat.max 0%nat (n :: m :: l))
      with (Nat.max n (fold_right Nat.max 0%nat (m :: l))).
    destruct (Nat.max_dec n (fold_right Nat.max 0%nat (m :: l))) as [E|E]; rewrite E.
    + left. reflexivity.
    + right. apply IH.
Qed.

Lemma nodup_Q_nonempty : forall l, l <> [] -> nodup_Q l <> [].
Proof. intros [|x l] H; [congruence|]. simpl. discriminate. Qed.

(** A series with at least one value always has a mode. *)
Lemma mode_nonempty : forall v vals, mode (v :: vals) <> [].
Proof.
  intros v vals. unfold mode.
  set (l := v :: vals).
  set (best := fold_right Nat.max 0%nat (map (fun x => occurrences x l) l)).
  assert (Hbest : In best (map (fun x => occurrences x l) l))
    by (unfold best, l; simpl map; apply fold_max_In).
  apply in_map_iff in Hbest. destruct Hbest as [x [Hx Hin]].
  assert (Hf : In x (filter (fun x => (occurrences x l =? best)%nat) l)).
  { apply filter_In. split; [exact Hin|]. apply Nat.eqb_eq. exact Hx. }
  intros Hsort.
  assert (Hnd : nodup_Q (filter (fun x => (occurrences x l =? best)%nat) l) <> []).
  { apply nodup_Q_nonempty. intros E. rewrite E in Hf. destruct Hf. }
  destruct (nodup_Q (filter (fun x => (occurrences x l =? best)%nat) l)) as [|y ys] eqn:E;
    [congruence|].
  assert (Hy : In y (sort Qle_bool (y :: ys))) by (apply sort_In; left; reflexivity).
  rewrite Hsort in Hy. destruct Hy.
Qed.

Lemma land_trend_step_year : forall data area year rows_ rows',
  land_trend_step data area year rows_ = Ok rows' ->
  rows' = rows_ \/ exists t, rows' = (rows_ ++ [t])%list /\ LandTrend.year t = year.
Proof.
  intros data area year rows_ rows' H. unfold land_trend_step in H.
  destruct (dict_get Z.eqb year (land_adj data)) as [df|];
    [|injection H as <-; left; reflexivity].
  destruct (require_col "Area_Code" (columns df)); simpl in H; [|discriminate].
  destruct (filter _ (rows df)) as [|first rest];
    [injection H as <-; left; reflexivity|].
  match type of H with
  | bind ?m _ = _ => destruct m as [lv|e]; simpl in H; [|discriminate]
  end.
  injection H as <-. right. eexists. split; reflexivity.
Qed.

(** The rows of the trend are those of 2024, 2025 and 2026, in that order. *)
Lemma land_trend_years_ascending : forall data area rows_,
  get_land_value_trends data area = Ok rows_ ->
  ascending (map LandTrend.year rows_) /\
  forall t, In t rows_ -> In (LandTrend.year t) [2024; 2025; 2026].
Proof.
  intros data area rows_ H. unfold get_land_value_trends in H. simpl in H.
  destruct (land_trend_step data area 2024 []) as [r1|] eqn:E1; simpl in H; [|discriminate].
  destruct (land_trend_step data area 2025 r1) as [r2|] eqn:E2; simpl in H; [|discriminate].
  destruct (land_trend_step data area 2026 r2) as [r3|] eqn:E3; simpl in H; [|discriminate].
  injection H as <-.
  apply land_trend_step_year in E1, E2, E3.
  destruct E1 as [->|[t1 [-> Y1]]], E2 as [->|[t2 [-> Y2]]], E3 as [->|[t3 [-> Y3]]];
    simpl; rewrite ?Y1, ?Y2, ?Y3;
    (split; [repeat constructor; lia|]);
    intros t Ht; simpl in Ht;
    repeat (destruct Ht as [<-|Ht]; [rewrite ?Y1, ?Y2, ?Y3; simpl; tauto|]);
    destruct Ht.
Qed.

(** With an [Area_Code] column the land rows are matched on it, whatever
    the [ECF_Area] column holds. *)
Lemma land_area_prefers_Area_Code : forall land_df area,
  has_col "Area_Code" land_df = true ->
  land_area_rows land_df area =
  Ok (select (fun r => cell_eqb (option_map strip (Land.Area_Code r)) area) land_df).
Proof. intros land_df area H. unfold land_area_rows. rewrite H. reflexivity. Qed.

(** C8, evaluated on the code. The fallback to the median is never taken:
    whenever a land-value column has a value for the area, the reported
    value is the first (smallest) of the most frequent values. For two
    rows with the prior values 100,000 and 200,000 (no unique mode) the
    trend reports 100,000, whereas the median is 150,000. *)
Theorem C8_tied_mode_reports_smallest :
  (forall v vals, exists m more,
     mode (v :: vals) = m :: more /\ mode_or_median (v :: vals) = m) /\
  get_land_value_trends tied_land_data "AR-4"
    = Ok [LandTrend.mk 2026 (Some (105 # 100)) (Some 100000%Q) (Some 110000%Q)] /\
  mode [100000%Q; 200000%Q] = [100000%Q; 200000%Q] /\
  (median [100000%Q; 200000%Q] == 150000)%Q.
Proof.
  split.
  - intros v vals. pose proof (mode_nonempty v vals) as H.
    unfold mode_or_median. destruct (mode (v :: vals)) as [|m more]; [congruence|].
    exists m, more. split; reflexivity.
  - split; [reflexivity|]. split; reflexivity.
Qed.

(* ================================================================== *)
(** * Properties of the sales-study coverage *)
(* ================================================================== *)

Lemma fold_left_pointwise : forall (A B : Type) (f g : A -> B -> A) l a,
  (forall a b, f a b = g a b) -> fold_left f l a = fold_left g l a.
Proof.
  induction l as [|b l IH]; intros a H; simpl; [reflexivity|].
  rewrite H. apply IH. exact H.
Qed.

(** For a dict of yearly tables (distinct years), the coverage lists every
    year with the number of its rows that match the area code, zero when
    the table has no area column. *)
Lemma check_sales_coverage_counts : forall data area,
  NoDup (map fst (sales data)) ->
  check_sales_coverage data area
  = map (fun '(year, df) => (year, area_count area df)) (sales data).
Proof.
  intros data area Hnd. unfold check_sales_coverage.
  rewrite (fold_left_pointwise _ _ _
             (fun d '(k, f) => dict_set Z.eqb k (area_count area f) d)).
  - apply (fold_dict_set_map _ _ (area_count area) (sales data) []). exact Hnd.
  - intros coverage [year df]. unfold area_count.
    destruct (has_col "ECF_Area" df); reflexivity.
Qed.

Lemma check_sales_coverage_lookup : forall data area year df,
  NoDup (map fst (sales data)) ->
  In (year, df) (sales data) ->
  In (year, area_count area df) (check_sales_coverage data area).
Proof.
  intros data area year df Hnd Hin. rewrite check_sales_coverage_counts by exact Hnd.
  apply in_map_iff. exists (year, df). split; [reflexivity|exact Hin].
Qed.

(** The petition does not depend on the coverage it is given. *)
Lemma summary_ignores_coverage :
  forall ac sd user_sev ecf_trend st land_trends coverage1 coverage2 ep sdf pr,
    generate_appeal_summary ac sd user_sev ecf_trend st land_trends coverage1 ep sdf pr
    = generate_appeal_summary ac sd user_sev ecf_trend st land_trends coverage2 ep sdf pr.
Proof. reflexivity. Qed.

(** C7, evaluated on the code. The coverage view reports 5, 3 and 0 sales
    for the three years of the sample tables. The petition composed for
    that coverage is the petition composed for a coverage in which 2026
    has four sales; it contains neither "dropped" nor "not in study" nor
    "coverage": the year without sales is not flagged. *)
Theorem C7_dropped_year_not_flagged :
  check_sales_coverage dropped_area_data "AR-4" = coverage_dropped /\
  petition_with_coverage coverage_dropped = petition_with_coverage coverage_kept /\
  exists text,
    petition_with_coverage coverage_dropped = Ok text /\
    is_petition (Ok text) = true /\
    contains "dropped" text = false /\
    contains "not in study" text = false /\
    contains "coverage" text = false.
Proof.
  split; [reflexivity|]. split; [reflexivity|].
  destruct (petition_with_coverage coverage_dropped) as [text|e] eqn:E.
  - exists text. split; [reflexivity|].
    vm_compute in E. injection E as <-. vm_compute. repeat split.
  - vm_compute in E. discriminate.
Qed.

(* ================================================================== *)
(** * Properties of the cost-factor tables *)
(* ================================================================== *)

Lemma mask_ecf_discards : forall v,
  DataLoader.mask_ecf v = v \/ DataLoader.mask_ecf v = None.
Proof.
  intros v. unfold DataLoader.mask_ecf.
  destruct (negb (DataLoader.between (1 # 10) 5 v)); auto.
Qed.

Lemma mask_ecf_Some : forall v x,
  DataLoader.mask_ecf v = Some x -> v = Some x /\ in_closed_domain x.
Proof.
  intros v x. unfold DataLoader.mask_ecf, DataLoader.between, in_closed_domain.
  destruct v as [y|]; simpl; [|discriminate].
  destruct (Qle_bool (1 # 10) y) eqn:E1; simpl; [|discriminate].
  destruct (Qle_bool y 5) eqn:E2; simpl; [|discriminate].
  intros H. injection H as ->. apply Qle_bool_iff in E1, E2. auto.
Qed.

Lemma loaded_ecf_frames : forall read_csv year f,
  In (year, f) (DataLoader._load_ecf_analysis read_csv) ->
  exists df, read_csv year = Some df /\ f = DataLoader.load_ecf_frame year df.
Proof.
  intros read_csv year f. unfold DataLoader._load_ecf_analysis, DataLoader.YEARS.
  simpl fold_left.
  destruct (read_csv 2024) as [d24|] eqn:E24;
    destruct (read_csv 2025) as [d25|] eqn:E25;
    destruct (read_csv 2026) as [d26|] eqn:E26; simpl; intros H;
    repeat (destruct H as [H|H]; [injection H as <- <-; eauto|]); destruct H.
Qed.

Lemma has_col_ECF_loaded : forall year df,
  has_col "ECF" (DataLoader.load_ecf_frame year df) = has_col "ECF" df.
Proof.
  intros year df. unfold DataLoader.load_ecf_frame, has_col. cbn [columns].
  destruct (existsb (String.eqb "_year") (columns df)); [reflexivity|].
  rewrite existsb_app. cbn [existsb].
  change (String.eqb "ECF" "_year") with false. rewrite !orb_false_r. reflexivity.
Qed.

(** Every property of the list comes from a row of one of the tables that
    has a cost factor. *)
Lemma ecf_properties_origin : forall area l acc props,
  foldM
    (fun '(year, df) rows_ =>
       if negb (has_col "ECF_Area_Code" df || has_col "ECF_Area" df)
       then Ok rows_
       else
         let area_df := select (fun r => cell_eqb (ecf_area_cell df r) area) df in
         _ <- require_col "ECF" (columns area_df) ;;
         let area_df := select (fun r => notna (EcfAnalysis.ECF r)) area_df in
         Ok (rows_ ++ map (ecf_property year df) (rows area_df))%list)
    l acc = Ok props ->
  forall p, In p props ->
    In p acc \/
    exists year df r,
      In (year, df) l /\ In r (rows df) /\ has_col "ECF" df = true /\
      p = ecf_property year df r.
Proof.
  induction l as [|[year df] l IH]; intros acc props H p Hp; cbn [foldM] in H.
  - injection H as <-. left. exact Hp.
  - destruct (negb (has_col "ECF_Area_Code" df || has_col "ECF_Area" df)).
    + cbn [bind] in H. destruct (IH _ _ H p Hp) as [Hacc|[y [d [r [Hin Hr]]]]];
        [left; exact Hacc|right; exists y, d, r; split; [right; exact Hin|exact Hr]].
    + unfold require_col in H. cbn [select columns] in H.
      destruct (existsb (String.eqb "ECF") (columns df)) eqn:Ecol; cbn [bind] in H;
        [|discriminate].
      destruct (IH _ _ H p Hp) as [Hacc|[y [d [r [Hin Hr]]]]].
      * apply in_app_or in Hacc. destruct Hacc as [Hacc|Hnew]; [left; exact Hacc|].
        right. apply in_map_iff in Hnew. destruct Hnew as [r [<- Hr]].
        apply filter_In in Hr. destruct Hr as [Hr _].
        apply filter_In in Hr. destruct Hr as [Hr _].
        exists year, df, r. split; [left; reflexivity|].
        split; [exact Hr|]. split; [exact Ecol|reflexivity].
      * right. exists y, d, r. split; [right; exact Hin|exact Hr].
Qed.

Lemma ecf_properties_notna : forall data area props,
  get_ecf_properties data area = Ok props ->
  forall p, In p props -> exists v, EcfProperty.ecf p = Some v.
Proof.
  intros data area props. unfold get_ecf_properties.
  assert (G : forall l acc props,
             (forall p, In p acc -> exists v, EcfProperty.ecf p = Some v) ->
             foldM
               (fun '(year, df) rows_ =>
                  if negb (has_col "ECF_Area_Code" df || has_col "ECF_Area" df)
                  then Ok rows_
                  else
                    let area_df :=
                      select (fun r => cell_eqb (ecf_area_cell df r) area) df in
                    _ <- require_col "ECF" (columns area_df) ;;
                    let area_df := select (fun r => notna (EcfAnalysis.ECF r)) area_df in
                    Ok (rows_ ++ map (ecf_property year df) (rows area_df))%list)
               l acc = Ok props ->
             forall p, In p props -> exists v, EcfProperty.ecf p = Some v).
  { induction l as [|[year df] l IH]; intros acc props' Hacc H; cbn [foldM] in H.
    - injection H as <-. exact Hacc.
    - destruct (negb (has_col "ECF_Area_Code" df || has_col "ECF_Area" df)).
      + cbn [bind] in H. eapply IH; eassumption.
      + unfold require_col in H. cbn [select columns] in H.
        destruct (existsb (String.eqb "ECF") (columns df)); cbn [bind] in H;
          [|discriminate].
        eapply IH; [|exact H]. intros p Hp. apply in_app_or in Hp.
        destruct Hp as [Hp|Hp]; [apply Hacc; exact Hp|].
        apply in_map_iff in Hp. destruct Hp as [r [<- Hr]].
        apply filter_In in Hr. destruct Hr as [_ Hr]. simpl.
        destruct (EcfAnalysis.ECF r) as [v|]; [exists v; reflexivity|discriminate]. }
  apply G. intros p [].
Qed.

(** C4, as stated, fails twice. A per-property cost factor of exactly 5.0
    passes the loader's filter and appears in the per-property list; and
    the trend reports an average cost factor of 7.3, because the summary
    loader applies no filter at all. *)
Lemma C4_counterexample_boundary_and_trend :
  (exists props,
     get_ecf_properties (with_ecf_analysis boundary_ecf_csv no_data) "AR-4" = Ok props /\
     In boundary_property props /\
     ~ properties_in_open_domain props) /\
  (exists summaries trend,
     DataLoader._load_ecf_summaries noisy_summary_csv = Ok summaries /\
     get_ecf_trend (mkData [] [] summaries [] []) "AR-4" = Ok trend /\
     trend = [(2026, Some (73 # 10))] /\
     ~ trend_in_open_domain trend).
Proof.
  split.
  - eexists. split; [vm_compute; reflexivity|]. split; [left; reflexivity|].
    intros H. destruct (H boundary_property 5%Q (or_introl eq_refl) eq_refl) as [_ H5].
    vm_compute in H5. discriminate.
  - eexists. eexists. split; [vm_compute; reflexivity|].
    split; [vm_compute; reflexivity|]. split; [reflexivity|].
    intros H. destruct (H 2026 (73 # 10)%Q (or_introl eq_refl)) as [_ H5].
    vm_compute in H5. discriminate.
Qed.

(** C4, amended. For tables loaded by [_load_ecf_analysis], every entry of
    the per-property list has a cost factor in the closed interval
    [0.1, 5.0], and that factor is the one of a row of the year's file,
    unchanged: the loader keeps a value or discards it, it never clamps. *)
Theorem C4_property_factors_in_closed_domain :
  forall read_csv other area props,
    get_ecf_properties (with_ecf_analysis read_csv other) area = Ok props ->
    (forall p, In p props ->
       exists v,
         EcfProperty.ecf p = Some v /\ in_closed_domain v /\
         exists df r,
           read_csv (EcfProperty.year p) = Some df /\ In r (rows df) /\
           EcfAnalysis.ECF r = Some v) /\
    (forall cell, DataLoader.mask_ecf cell = cell \/ DataLoader.mask_ecf cell = None).
Proof.
  intros read_csv other area props H. split; [|apply mask_ecf_discards].
  intros p Hp.
  destruct (ecf_properties_notna _ _ _ H p Hp) as [v Hv].
  exists v. split; [exact Hv|].
  unfold get_ecf_properties in H.
  destruct (ecf_properties_origin area _ _ _ H p Hp) as [[]|[year [f [r' [Hin [Hr [Hcol ->]]]]]]].
  simpl in Hin. apply loaded_ecf_frames in Hin. destruct Hin as [df [Hcsv ->]].
  rewrite has_col_ECF_loaded in Hcol.
  unfold DataLoader.load_ecf_frame in Hr. simpl in Hr.
  apply in_map_iff in Hr. destruct Hr as [r [<- Hr]].
  simpl in Hv. rewrite Hcol in Hv.
  apply mask_ecf_Some in Hv. destruct Hv as [Hraw Hdom].
  split; [exact Hdom|]. exists df, r. simpl. auto.
Qed.

Lemma C4_witness_boundary_file :
  exists v,
    EcfProperty.ecf boundary_property = Some v /\ in_closed_domain v /\
    exists df r,
      boundary_ecf_csv (EcfProperty.year boundary_property) = Some df /\
      In r (rows df) /\ EcfAnalysis.ECF r = Some v.
Proof.
  assert (H : get_ecf_properties (with_ecf_analysis boundary_ecf_csv no_data) "AR-4"
              = Ok [boundary_property;
                    EcfProperty.mk 2026 "4109 MEADOW CT" "L-12-01-100-003"
                                   (Some 8000%Q) (Some 80000%Q) (Some (1 # 10))])
    by reflexivity.
  destruct (C4_property_factors_in_closed_domain boundary_ecf_csv no_data "AR-4" _ H)
    as [Hall _].
  apply Hall. left. reflexivity.
Defined.

(* ================================================================== *)
(** * Properties of the comparable sales *)
(* ================================================================== *)

Lemma mapM_concat_In : forall (A B : Type) (f : A -> result (list B)) l ys y,
  mapM f l = Ok ys -> In y (List.concat ys) ->
  exists x rs, In x l /\ f x = Ok rs /\ In y rs.
Proof.
  induction l as [|a l IH]; simpl; intros ys y H Hin.
  - injection H as <-. destruct Hin.
  - destruct (f a) as [ra|] eqn:E; [|discriminate].
    destruct (mapM f l) as [rest|] eqn:E2; [|discriminate].
    injection H as <-. simpl in Hin. apply in_app_or in Hin.
    destruct Hin as [Hin|Hin].
    + exists a, ra. auto.
    + destruct (IH _ _ eq_refl Hin) as [x [rs [Hx [Hf Hy]]]].
      exists x, rs. auto.
Qed.

(** A row contributed by a yearly table is the projection of one of its
    rows that matches the area, is at or above the threshold, and, when
    the table has a terms-of-sale column, is an arm's-length sale. *)
Lemma year_sales_spec : forall area df rs r,
  year_sales area df = Ok rs -> In r rs ->
  exists s,
    In s (rows df) /\ r = project s /\
    Sales.ECF_Area s = Some area /\
    (has_col "Terms_of_Sale" df = true -> arms_length s = true) /\
    above_threshold s = true.
Proof.
  intros area df rs r H Hin. unfold year_sales in H.
  destruct (negb (has_col "ECF_Area" df)); [injection H as <-; destruct Hin|].
  cbv zeta in H.
  change (has_col "Terms_of_Sale"
            (select (fun r => cell_eqb (Sales.ECF_Area r) area) df))
    with (has_col "Terms_of_Sale" df) in H.
  assert (Harea : forall s, cell_eqb (Sales.ECF_Area s) area = true ->
                            Sales.ECF_Area s = Some area).
  { intros s Hs. unfold cell_eqb in Hs.
    destruct (Sales.ECF_Area s) as [a|]; [|discriminate].
    apply String.eqb_eq in Hs. subst. reflexivity. }
  destruct (has_col "Terms_of_Sale" df) eqn:Et;
    (destruct (require_col "Adj_Sale" _); cbn [bind] in H; [|discriminate]);
    cbn [select rows columns] in H;
    match type of H with
    | match ?l with [] => _ | _ :: _ => _ end = _ =>
        destruct l as [|x xs] eqn:El; [injection H as <-; destruct Hin|]
    end;
    (match type of H with
     | bind ?m _ = _ => destruct m; cbn [bind] in H; [|discriminate]
     end);
    injection H as <-;
    change (In r (map project (x :: xs))) in Hin;
    apply in_map_iff in Hin; destruct Hin as [s [<- Hs]];
    rewrite <- El in Hs;
    repeat (apply filter_In in Hs; let H' := fresh "Hf" in destruct Hs as [Hs H']);
    exists s; repeat split; auto; discriminate.
Qed.

Section ComparableFacts.
Variable to_datetime : string -> option Timestamp.t.

Lemma dedup_key_key_of : forall r kr,
  dedup_key to_datetime r = Ok kr -> kr = (key_of to_datetime r, r).
Proof.
  intros r kr. unfold dedup_key, norm_date, key_of.
  destruct (Comparable.Sale_Date r) as [s|]; simpl.
  - destruct (to_datetime s) as [ts|]; simpl; [|discriminate].
    intros H. injection H as <-. destruct (Comparable.Parcel_Number r); reflexivity.
  - intros H. injection H as <-. destruct (Comparable.Parcel_Number r); reflexivity.
Qed.

Lemma mapM_dedup_key : forall l keyed,
  mapM (dedup_key to_datetime) l = Ok keyed ->
  keyed = map (fun r => (key_of to_datetime r, r)) l.
Proof.
  induction l as [|r l IH]; simpl; intros keyed H.
  - injection H as <-. reflexivity.
  - destruct (dedup_key to_datetime r) as [kr|] eqn:E; [|discriminate].
    destruct (mapM (dedup_key to_datetime) l) as [rest|]; [|discriminate].
    injection H as <-. rewrite (dedup_key_key_of _ _ E), (IH _ eq_refl). reflexivity.
Qed.

(** The rows of the output: the qualifying rows, deduplicated on the key,
    sorted on the date. *)
Lemma get_comparable_sales_rows : forall data area out,
  get_comparable_sales to_datetime data area = Ok out ->
  rows out =
  sort date_desc
    (map snd (drop_duplicates_last
                (map (fun r => (key_of to_datetime r, r)) (qualifying_rows data area)))).
Proof.
  intros data area out. unfold get_comparable_sales, qualifying_rows.
  destruct (mapM _ (sales data)) as [all_sales|]; cbn [bind]; [|discriminate].
  destruct (List.concat all_sales) as [|c l] eqn:E.
  - intros H. injection H as <-. reflexivity.
  - destruct (mapM (dedup_key to_datetime) (c :: l)) as [keyed|] eqn:Ek;
      cbn [bind]; [|discriminate].
    intros H. injection H as <-. apply mapM_dedup_key in Ek. subst keyed. reflexivity.
Qed.

End ComparableFacts.

Lemma drop_duplicates_last_incl : forall (R : Type) (l : list (option string * R)) x,
  In x (drop_duplicates_last l) -> In x l.
Proof.
  induction l as [|[k r] l IH]; simpl; intros x H; [exact H|].
  destruct (existsb _ l); [right; apply IH; exact H|].
  destruct H as [H|H]; [left; exact H|right; apply IH; exact H].
Qed.

Lemma output_rows_qualify : forall to_datetime data area out r,
  get_comparable_sales to_datetime data area = Ok out ->
  In r (rows out) -> In r (qualifying_rows data area).
Proof.
  intros to_datetime data area out r H Hin.
  rewrite (get_comparable_sales_rows _ _ _ _ H) in Hin.
  apply sort_In in Hin. apply in_map_iff in Hin. destruct Hin as [[k r'] [Hr Hin]].
  simpl in Hr. subst r'. apply drop_duplicates_last_incl in Hin.
  apply in_map_iff in Hin. destruct Hin as [r' [Hr Hin]].
  injection Hr as _ ->. exact Hin.
Qed.

Lemma qualifying_rows_origin : forall data area r,
  In r (qualifying_rows data area) ->
  exists year df s,
    In (year, df) (sales data) /\ In s (rows df) /\ r = project s /\
    Sales.ECF_Area s = Some area /\
    (has_col "Terms_of_Sale" df = true -> arms_length s = true) /\
    above_threshold s = true.
Proof.
  intros data area r. unfold qualifying_rows.
  destruct (mapM _ (sales data)) as [all_sales|] eqn:E; [|intros []].
  intros Hin.
  destruct (mapM_concat_In _ _ _ _ _ _ E Hin) as [[year df] [rs [Hx [Hf Hr]]]].
  destruct (year_sales_spec _ _ _ _ Hf Hr) as [s Hs].
  exists year, df, s. split; [exact Hx|exact Hs].
Qed.

(** C3, as stated, fails: the 2025 table of the sample has no
    terms-of-sale column, so its sale enters the output although no terms
    of sale classify it as arm's length. *)
Lemma C3_counterexample_no_terms_column :
  get_comparable_sales to_datetime_mdy mixed_sales_data "AR-4"
    = Ok (mkFrame comparable_columns [sale_2025]) /\
  ~ comparable_rows_as_stated to_datetime_mdy mixed_sales_data "AR-4".
Proof.
  split; [reflexivity|]. intros H.
  destruct (H _ eq_refl sale_2025 (or_introl eq_refl))
    as [_ [year [df [s [Hin [Hs [Hproj [Hcol Harm]]]]]]]].
  simpl in Hin. destruct Hin as [Hin|[Hin|[]]]; injection Hin as <- <-.
  - simpl in Hs. destruct Hs as [<-|[<-|[<-|[]]]]; discriminate.
  - discriminate.
Qed.

(** C3, amended. Every row of the output of [get_comparable_sales] has an
    adjusted sale price that is present and at least 150,000, and is the
    projection of a row of a yearly table that matches the area code and,
    when that table has a terms-of-sale column, whose terms of sale
    contain "ARM" in any letter case; no sale with an adjusted price
    below the threshold appears. *)
Theorem C3_comparable_rows_filtered : forall to_datetime data area out r,
  get_comparable_sales to_datetime data area = Ok out ->
  In r (rows out) ->
  (exists p, Comparable.Adj_Sale r = Some p /\ (150000 <= p)%Q /\ ~ (p < 150000)%Q) /\
  (exists year df s,
     In (year, df) (sales data) /\ In s (rows df) /\ r = project s /\
     Sales.ECF_Area s = Some area /\
     (has_col "Terms_of_Sale" df = true ->
      exists terms, Sales.Terms_of_Sale s = Some terms /\
                    contains "ARM" (upper terms) = true)).
Proof.
  intros to_datetime data area out r H Hin.
  apply (output_rows_qualify _ _ _ _ _ H) in Hin.
  destruct (qualifying_rows_origin _ _ _ Hin)
    as [year [df [s [Hdf [Hs [-> [Harea [Hterms Hthr]]]]]]]].
  split.
  - unfold above_threshold in Hthr. simpl.
    destruct (Sales.Adj_Sale s) as [p|]; [|discriminate].
    apply Qle_bool_iff in Hthr. exists p. split; [reflexivity|].
    split; [exact Hthr|]. intros Hlt. exact (Qlt_not_le _ _ Hlt Hthr).
  - exists year, df, s. repeat split; auto.
    intros Hcol. specialize (Hterms Hcol). unfold arms_length in Hterms.
    destruct (Sales.Terms_of_Sale s) as [t|]; [|discriminate].
    exists t. auto.
Qed.

Lemma C3_witness_mixed_tables :
  exists p, Comparable.Adj_Sale sale_2025 = Some p /\ (150000 <= p)%Q /\ ~ (p < 150000)%Q.
Proof.
  assert (H : get_comparable_sales to_datetime_mdy mixed_sales_data "AR-4"
              = Ok (mkFrame comparable_columns [sale_2025])) by reflexivity.
  destruct (C3_comparable_rows_filtered to_datetime_mdy mixed_sales_data "AR-4" _
              sale_2025 H (or_introl eq_refl)) as [Hp _].
  exact Hp.
Defined.

(** ** The deduplication key identifies the sale *)

Lemma string_length_app : forall s t,
  String.length (s ++ t) = (String.length s + String.length t)%nat.
Proof. induction s as [|c s IH]; intros t; simpl; [reflexivity|]. rewrite IH. reflexivity. Qed.

Lemma string_app_inj : forall s1 s2 t1 t2,
  s1 ++ t1 = s2 ++ t2 -> String.length t1 = String.length t2 ->
  s1 = s2 /\ t1 = t2.
Proof.
  induction s1 as [|c s1 IH]; intros [|d s2] t1 t2 H Hlen; simpl in H.
  - auto.
  - exfalso. rewrite H in Hlen. simpl in Hlen. rewrite string_length_app in Hlen. lia.
  - exfalso. rewrite <- H in Hlen. simpl in Hlen. rewrite string_length_app in Hlen. lia.
  - injection H as -> H. destruct (IH _ _ _ H Hlen) as [-> ->]. auto.
Qed.

Lemma digit_inj : forall a b, digit a = digit b -> a mod 10 = b mod 10.
Proof.
  intros a b H. unfold digit in H.
  apply (f_equal nat_of_ascii) in H.
  pose proof (Z.mod_pos_bound a 10 ltac:(lia)) as Ha.
  pose proof (Z.mod_pos_bound b 10 ltac:(lia)) as Hb.
  rewrite !nat_ascii_embedding in H by lia. lia.
Qed.

Lemma digits2_inj : forall a b,
  0 <= a < 100 -> 0 <= b < 100 -> digits2 a = digits2 b -> a = b.
Proof.
  intros a b Ha Hb H. unfold digits2 in H. injection H as H1 H0.
  apply digit_inj in H1, H0. Z.div_mod_to_equations. lia.
Qed.

Lemma digits4_inj : forall a b,
  0 <= a < 10000 -> 0 <= b < 10000 -> digits4 a = digits4 b -> a = b.
Proof.
  intros a b Ha Hb H. unfold digits4, digits2 in H. injection H as H3 H2 H1 H0.
  apply digit_inj in H3, H2, H1, H0. Z.div_mod_to_equations. lia.
Qed.

(** Two dates that a Timestamp can hold print differently. *)
Lemma strftime_inj : forall a b,
  valid_timestamp a -> valid_timestamp b -> strftime a = strftime b -> a = b.
Proof.
  intros [ya ma da] [yb mb db] [Hya [Hma Hda]] [Hyb [Hmb Hdb]] H.
  simpl in *. unfold strftime in H. cbn [Timestamp.year Timestamp.month Timestamp.day] in H.
  assert (Hy : digits4 ya = digits4 yb /\ digits2 ma = digits2 mb /\ digits2 da = digits2 db).
  { unfold digits4, digits2 in *. cbn [append] in H.
    injection H as ? ? ? ? ? ? ? ?. repeat split; congruence. }
  destruct Hy as [Hy [Hm Hd]].
  apply digits4_inj in Hy; [|assumption|assumption].
  apply digits2_inj in Hm; [|assumption|assumption].
  apply digits2_inj in Hd; [|assumption|assumption].
  subst. reflexivity.
Qed.

Lemma strftime_length : forall ts, String.length (strftime ts) = 10%nat.
Proof. intros ts. reflexivity. Qed.

Lemma timestamp_eqb_eq : forall a b, timestamp_eqb a b = true <-> a = b.
Proof.
  intros [ya ma da] [yb mb db]. unfold timestamp_eqb. simpl.
  rewrite !andb_true_iff, !Z.eqb_eq. split.
  - intros [[-> ->] ->]. reflexivity.
  - intros H. injection H as -> -> ->. auto.
Qed.

Lemma key_eqb_eq : forall a b, key_eqb a b = true <-> a = b.
Proof.
  intros [x|] [y|]; simpl; split; intros H; try discriminate; try reflexivity.
  - apply String.eqb_eq in H. subst. reflexivity.
  - injection H as ->. apply String.eqb_refl.
Qed.

Section Identity.
Variable to_datetime : string -> option Timestamp.t.
Hypothesis to_datetime_valid :
  forall s ts, to_datetime s = Some ts -> valid_timestamp ts.

(** The key of an identified sale. *)
Lemma sale_id_key : forall r p ts,
  sale_id to_datetime r = Some (p, ts) ->
  key_of to_datetime r = Some (p ++ "_" ++ strftime ts) /\ valid_timestamp ts.
Proof.
  intros r p ts. unfold sale_id, key_of.
  destruct (Comparable.Parcel_Number r) as [pn|]; [|discriminate].
  destruct (Comparable.Sale_Date r) as [s|]; [|discriminate].
  destruct (to_datetime s) as [ts'|] eqn:E; [|discriminate].
  intros H. injection H as <- <-. split; [reflexivity|].
  apply (to_datetime_valid s). exact E.
Qed.

Lemma key_of_sale_id : forall r k,
  key_of to_datetime r = Some k ->
  exists p ts, sale_id to_datetime r = Some (p, ts) /\ k = p ++ "_" ++ strftime ts.
Proof.
  intros r k. unfold sale_id, key_of.
  destruct (Comparable.Parcel_Number r) as [pn|]; [|discriminate].
  destruct (Comparable.Sale_Date r) as [s|]; [|discriminate].
  destruct (to_datetime s) as [ts'|] eqn:E; [|discriminate].
  intros H. injection H as <-. eauto.
Qed.

(** For a valid date, having the identity is having the key. *)
Lemma has_id_key : forall id r,
  valid_timestamp (snd id) ->
  has_id to_datetime id r
  = key_eqb (Some (fst id ++ "_" ++ strftime (snd id))) (key_of to_datetime r).
Proof.
  intros [p ts] r Hvalid. simpl in *. unfold has_id.
  destruct (sale_id to_datetime r) as [[p' ts']|] eqn:Es.
  - destruct (sale_id_key _ _ _ Es) as [Hk Hv]. rewrite Hk. simpl.
    apply eq_true_iff_eq. rewrite andb_true_iff, !String.eqb_eq, timestamp_eqb_eq.
    split.
    + intros [-> ->]. reflexivity.
    + intros H. apply string_app_inj in H; [|reflexivity].
      destruct H as [-> H].
      apply (string_app_inj "_" "_") in H; [|reflexivity]. destruct H as [_ H].
      apply strftime_inj in H; [|assumption|assumption]. subst. auto.
  - destruct (key_of to_datetime r) as [k|] eqn:Ek; [|reflexivity].
    destruct (key_of_sale_id _ _ Ek) as [p' [ts' [H _]]]. congruence.
Qed.

End Identity.

(** ** Keeping the last row of each key *)

Section KeepLast.
Context {R : Type} (f : R -> option string).

Lemma existsb_keyed : forall k l,
  existsb (fun kr : option string * R => key_eqb k (fst kr)) (map (fun r => (f r, r)) l)
  = existsb (fun r => key_eqb k (f r)) l.
Proof.
  induction l as [|r l IH]; simpl; [reflexivity|]. rewrite IH. reflexivity.
Qed.

Lemma existsb_false_filter : forall (p : R -> bool) l,
  existsb p l = false -> filter p l = [].
Proof.
  induction l as [|r l IH]; simpl; intros H; [reflexivity|].
  apply orb_false_iff in H. destruct H as [-> H]. apply IH. exact H.
Qed.

Lemma existsb_true_filter : forall (p : R -> bool) l,
  existsb p l = true -> exists q qs, filter p l = q :: qs.
Proof.
  induction l as [|r l IH]; simpl; intros H; [discriminate|].
  destruct (p r); [eauto|]. apply IH. exact H.
Qed.

(** After [drop_duplicates(keep="last")] the rows of one key are the last
    row of that key alone. *)
Lemma drop_duplicates_last_filter : forall k l,
  filter (fun r => key_eqb k (f r))
         (map snd (drop_duplicates_last (map (fun r => (f r, r)) l)))
  = match filter (fun r => key_eqb k (f r)) l with
    | [] => []
    | q :: qs => [last_of q qs]
    end.
Proof.
  induction l as [|r l IH]; [reflexivity|].
  cbn [map drop_duplicates_last filter]. rewrite existsb_keyed.
  destruct (key_eqb k (f r)) eqn:Ek.
  - apply key_eqb_eq in Ek. subst k.
    destruct (existsb (fun r' => key_eqb (f r) (f r')) l) eqn:Ex.
    + rewrite IH. destruct (existsb_true_filter _ _ Ex) as [q [qs ->]]. reflexivity.
    + cbn [map snd filter]. rewrite (proj2 (key_eqb_eq _ _) eq_refl).
      rewrite IH. rewrite (existsb_false_filter _ _ Ex). reflexivity.
  - destruct (existsb (fun r' => key_eqb (f r) (f r')) l).
    + exact IH.
    + cbn [map snd filter]. rewrite Ek. exact IH.
Qed.

End KeepLast.

Lemma filter_none : forall (A : Type) (p : A -> bool) l l',
  (forall x, In x l' -> In x l) -> filter p l = [] -> filter p l' = [].
Proof.
  intros A p l l' Hincl Hnone.
  induction l' as [|x l' IH]; simpl; [reflexivity|].
  assert (Hx : p x = false).
  { destruct (p x) eqn:E; [|reflexivity].
    assert (Hin : In x (filter p l)) by (apply filter_In; split; [apply Hincl; left|]; auto).
    rewrite Hnone in Hin. destruct Hin. }
  rewrite Hx. apply IH. intros y Hy. apply Hincl. right. exact Hy.
Qed.

Lemma filter_ext_eq : forall (A : Type) (p q : A -> bool) l,
  (forall x, p x = q x) -> filter p l = filter q l.
Proof.
  intros A p q l H. induction l as [|x l IH]; simpl; [reflexivity|].
  rewrite H, IH. reflexivity.
Qed.

Lemma to_datetime_mdy_valid : forall s ts,
  to_datetime_mdy s = Some ts -> valid_timestamp ts.
Proof.
  intros s ts. unfold to_datetime_mdy.
  destruct (split_on "/" (strip s) EmptyString) as [|ms [|ds [|ys [|]]]];
    try discriminate.
  destruct (parse_number ms) as [m|]; [|discriminate].
  destruct (parse_number ds) as [d|]; [|discriminate].
  destruct (parse_number ys) as [y|]; [|discriminate].
  destruct (short_field ms && short_field ds && (String.length ys =? 4)%nat
            && (1 <=? m) && (m <=? 12) && (1 <=? d) && (d <=? days_in_month y m)
            && in_timestamp_range y m d) eqn:E; [|discriminate].
  intros H. injection H as <-.
  repeat (apply andb_true_iff in E; destruct E as [E ?]).
  assert (Hd : days_in_month y m <= 31).
  { unfold days_in_month.
    destruct (m =? 2); [destruct (is_leap y); lia|].
    destruct ((m =? 4) || (m =? 6) || (m =? 9) || (m =? 11)); lia. }
  assert (Hy : 1677 <= y <= 2262).
  { unfold in_timestamp_range in *.
    repeat match goal with
           | H : _ && _ = true |- _ => apply andb_true_iff in H; destruct H
           | H : _ || _ = true |- _ => apply orb_true_iff in H; destruct H
           end; lia. }
  unfold valid_timestamp. simpl. lia.
Qed.

(** The reader refuses the thirtieth of February and reads a leap day. *)
Lemma to_datetime_mdy_days :
  to_datetime_mdy "02/30/2022" = None /\
  to_datetime_mdy "02/29/2023" = None /\
  to_datetime_mdy "02/29/2024" = Some (Timestamp.mk 2024 2 29) /\
  to_datetime_mdy "5/25/2022" = Some (Timestamp.mk 2022 5 25).
Proof. repeat split; reflexivity. Qed.

(** C5, as stated, fails: two rows of another area share their parcel and
    their date (written "05/25/2022" and "5/25/2022"), and the output for
    area AR-4 has no row at all for that sale. *)
Lemma C5_counterexample_other_area :
  List.length (filter (has_id to_datetime_mdy duplicated_id)
                      (input_rows other_area_duplicates)) = 2%nat /\
  get_comparable_sales to_datetime_mdy other_area_duplicates "AR-4"
    = Ok (mkFrame [] []) /\
  ~ dedup_as_stated to_datetime_mdy other_area_duplicates "AR-4".
Proof.
  split; [reflexivity|]. split; [reflexivity|].
  intros H. destruct (H duplicated_id) as [out [Hout Hlen]].
  - apply Nat.eq_le_incl. reflexivity.
  - vm_compute in Hout. injection Hout as <-. discriminate.
Qed.

(** C5, amended. For every sale identity (trimmed parcel number and
    calendar date): when rows that pass the filters of
    [get_comparable_sales] carry it, the output has exactly one row with
    that identity, the one loaded last in year-iteration order; when no
    such row carries it, the output has none. *)
Theorem C5_last_loaded_row_kept : forall to_datetime data area out id,
  (forall s ts, to_datetime s = Some ts -> valid_timestamp ts) ->
  get_comparable_sales to_datetime data area = Ok out ->
  filter (has_id to_datetime id) (rows out)
  = match filter (has_id to_datetime id) (qualifying_rows data area) with
    | [] => []
    | q :: qs => [last_of q qs]
    end.
Proof.
  intros to_datetime data area out id Hvalid H.
  destruct (filter (has_id to_datetime id) (qualifying_rows data area))
    as [|q qs] eqn:Eq.
  - apply (filter_none _ _ (qualifying_rows data area)); [|exact Eq].
    intros r Hr. eapply output_rows_qualify; eassumption.
  - assert (Hid : valid_timestamp (snd id)).
    { assert (Hq : In q (filter (has_id to_datetime id) (qualifying_rows data area)))
        by (rewrite Eq; left; reflexivity).
      apply filter_In in Hq. destruct Hq as [_ Hq]. unfold has_id in Hq.
      destruct (sale_id to_datetime q) as [[p ts]|] eqn:Es; [|discriminate].
      apply andb_true_iff in Hq. destruct Hq as [_ Hq].
      apply timestamp_eqb_eq in Hq. rewrite <- Hq.
      destruct (sale_id_key _ Hvalid _ _ _ Es) as [_ Hv]. exact Hv. }
    set (k := Some (fst id ++ "_" ++ strftime (snd id))).
    assert (Hext : forall r, has_id to_datetime id r = key_eqb k (key_of to_datetime r))
      by (intros r; apply has_id_key; assumption).
    rewrite (filter_ext_eq _ _ _ (qualifying_rows data area) Hext) in Eq.
    rewrite (filter_ext_eq _ _ _ (rows out) Hext).
    rewrite (get_comparable_sales_rows _ _ _ _ H).
    pose proof (drop_duplicates_last_filter (key_of to_datetime) k
                  (qualifying_rows data area)) as Hd.
    rewrite Eq in Hd.
    pose proof (filter_perm _ (fun r => key_eqb k (key_of to_datetime r)) _ _
                  (sort_perm date_desc
                     (map snd (drop_duplicates_last
                                 (map (fun r => (key_of to_datetime r, r))
                                      (qualifying_rows data area)))))) as Hp.
    rewrite Hd in Hp. apply Permutation_sym in Hp.
    apply Permutation_length_1_inv in Hp. exact Hp.
Qed.

Lemma C5_witness_two_date_formats :
  qualifying_rows mixed_sales_data "AR-4"
    = [ Comparable.mk (Some " L-12-01-100-001") (Some "4101 MEADOW CT")
                      (Some "05/25/2022") (Some 380000%Q) (Some 380000%Q) 2024;
        sale_2025 ] /\
  filter (has_id to_datetime_mdy ("L-12-01-100-001", Timestamp.mk 2022 5 25))
         (rows (mkFrame comparable_columns [sale_2025]))
  = [sale_2025].
Proof.
  split; [reflexivity|].
  exact (C5_last_loaded_row_kept to_datetime_mdy mixed_sales_data "AR-4"
           (mkFrame comparable_columns [sale_2025])
           ("L-12-01-100-001", Timestamp.mk 2022 5 25)
           to_datetime_mdy_valid eq_refl).
Defined.

(* ================================================================== *)
(** * Further properties of the valuation and of the sales statistics *)
(* ================================================================== *)

Lemma primary_is_candidate : forall ecf tcv st c cs,
  candidates ecf tcv st = c :: cs ->
  In (fst (_compute_recommended_values ecf tcv st)) (c :: cs).
Proof.
  intros ecf tcv st c cs E. unfold _compute_recommended_values. rewrite E. cbn [fst].
  rewrite <- E. unfold candidates in *.
  destruct (with_sales st) as [s|].
  - apply in_or_app. right. left. reflexivity.
  - destruct (ecf_candidate ecf tcv) as [v|]; [left; reflexivity|discriminate].
Qed.

(** X1. The recommended range is ordered: the low (primary) value that
    [_compute_recommended_values] returns never exceeds the high value. *)
Theorem X1_recommended_range_ordered : forall ecf_2026 user_tcv st,
  (fst (_compute_recommended_values ecf_2026 user_tcv st)
   <= snd (_compute_recommended_values ecf_2026 user_tcv st))%Q.
Proof.
  intros ecf tcv st.
  destruct (candidates ecf tcv st) as [|c cs] eqn:E.
  - unfold _compute_recommended_values. rewrite E. apply Qle_refl.
  - pose proof (primary_is_candidate _ _ _ _ _ E) as Hin.
    unfold _compute_recommended_values in *. rewrite E in *. cbn [fst snd] in *.
    apply Qmax_list_upper. exact Hin.
Qed.










Lemma output_rows_priced : forall to_datetime data area out r,
  get_comparable_sales to_datetime data area = Ok out ->
  In r (rows out) -> exists p, Comparable.Adj_Sale r = Some p.
Proof.
  intros to_datetime data area out r H Hin.
  apply (output_rows_qualify _ _ _ _ _ H) in Hin.
  destruct (qualifying_rows_origin _ _ _ Hin) as [y [df [s [_ [_ [-> [_ [_ Hthr]]]]]]]].
  unfold above_threshold in Hthr. simpl.
  destruct (Sales.Adj_Sale s) as [p|]; [eauto|discriminate].
Qed.

Lemma output_columns : forall to_datetime data area out,
  get_comparable_sales to_datetime data area = Ok out ->
  out = mkFrame [] [] \/ columns out = comparable_columns.
Proof.
  intros to_datetime data area out. unfold get_comparable_sales.
  destruct (mapM _ (sales data)) as [all_sales|]; cbn [bind]; [|discriminate].
  destruct (List.concat all_sales) as [|c l].
  - intros H. injection H as <-. left. reflexivity.
  - destruct (mapM (dedup_key to_datetime) (c :: l)); cbn [bind]; [|discriminate].
    intros H. injection H as <-. right. reflexivity.
Qed.

Lemma somes_all_present : forall (A : Type) (l : list (option A)),
  (forall x, In x l -> exists a, x = Some a) ->
  List.length (DataLoader.somes l) = List.length l.
Proof.
  induction l as [|x l IH]; intros H; [reflexivity|].
  destruct (H x (or_introl eq_refl)) as [a ->]. simpl.
  rewrite IH; [reflexivity|]. intros y Hy. apply H. right. exact Hy.
Qed.

(** X3. [compute_sales_stats] applied to the frame [get_comparable_sales]
    returns never fails, counts every row of the frame (each has an
    adjusted price), never gives the all-missing result, and gives the
    bare [{"count": 0}] exactly when the frame has no rows. *)
Theorem X3_stats_count_is_sales_count :
  forall series_mean to_datetime data area out user_tcv,
  get_comparable_sales to_datetime data area = Ok out ->
  exists st,
    compute_sales_stats series_mean out user_tcv = Ok st /\
    stats_count st = Z.of_nat (List.length (rows out)) /\
    st <> AllMissing /\
    (st = CountOnly <-> rows out = []).
Proof.
  intros mean to_datetime data area out tcv H.
  assert (Hpriced : List.length (DataLoader.somes (map Comparable.Adj_Sale (rows out)))
                    = List.length (rows out)).
  { rewrite somes_all_present; [apply length_map|].
    intros x Hx. apply in_map_iff in Hx. destruct Hx as [r [<- Hr]].
    destruct (output_rows_priced _ _ _ _ _ H Hr) as [p Hp]. eauto. }
  destruct (output_columns _ _ _ _ H) as [->|Hcols].
  - exists CountOnly. repeat split; try reflexivity; discriminate.
  - unfold compute_sales_stats, empty. rewrite Hcols.
    destruct (rows out) as [|r0 rs] eqn:Er.
    + exists CountOnly. repeat split; try reflexivity; discriminate.
    + cbn [comparable_columns]. unfold require_col. cbn [bind].
      change (existsb (String.eqb "Adj_Sale")
                ["Parcel_Number"; "Street_Address"; "Sale_Date"; "Sale_Price";
                 "Adj_Sale"; "_year"]) with true. cbn iota.
      destruct (DataLoader.somes (map Comparable.Adj_Sale (r0 :: rs))) as [|p0 ps] eqn:E;
        [simpl in Hpriced; discriminate|].
      eexists (Stats _). split; [reflexivity|]. cbn [stats_count SalesStats.count].
      split; [rewrite Hpriced; reflexivity|].
      split; [discriminate|]. split; discriminate.
Qed.

Lemma X3_witness_mixed_tables :
  get_comparable_sales to_datetime_mdy mixed_sales_data "AR-4"
    = Ok (mkFrame comparable_columns [sale_2025]) /\
  exists st,
    compute_sales_stats mean_left_to_right
      (mkFrame comparable_columns [sale_2025]) 400000 = Ok st /\
    stats_count st = Z.of_nat (List.length (rows (mkFrame comparable_columns [sale_2025]))) /\
    st <> AllMissing /\
    (st = CountOnly <-> rows (mkFrame comparable_columns [sale_2025]) = []).
Proof.
  split; [vm_compute; reflexivity|].
  apply (X3_stats_count_is_sales_count mean_left_to_right to_datetime_mdy
           mixed_sales_data "AR-4").
  vm_compute. reflexivity.
Defined.


(** X5. With comparable sales, an assessed value that is a multiple of
    5,000 (at most 2^53 in absolute value, so that binary64 holds it) and
    a sales median at or above the true cash value (twice the assessed
    value), the summary is the short "not recommended" form and contains
    the line that says the median is at or above the value. *)
Theorem X5_median_at_or_above_tcv_no_appeal :
  forall ac sd user_sev ecf_trend st lt cov ep sdf pr s k,
    with_sales st = Some s ->
    (user_sev == inject_Z (5000 * k))%Q ->
    Z.abs (5000 * k) <= 2 ^ 53 ->
    (user_sev * 2 <= SalesStats.median s)%Q ->
    generate_appeal_summary ac sd user_sev ecf_trend st lt cov ep sdf pr
      = Ok (join nl (not_recommended_lines ac sd user_sev ecf_trend st pr)) /\
    is_short_form
      (generate_appeal_summary ac sd user_sev ecf_trend st lt cov ep sdf pr) = true /\
    In ("The median sale price ($" ++ money (SalesStats.median s)
          ++ ") is at or above your")
       (not_recommended_lines ac sd user_sev ecf_trend st pr).
Proof.
  intros ac sd user_sev ecf_trend st lt cov ep sdf pr s k Hs Hk Hrange Hmed.
  assert (Hlow : rec_low user_sev ecf_trend st = SalesStats.median s).
  { unfold rec_low, _compute_recommended_values, candidates. rewrite Hs.
    destruct (ecf_candidate _ _); reflexivity. }
  assert (Hno : no_appeal user_sev ecf_trend st = true).
  { unfold no_appeal, rec_sev, round_to_5000. rewrite Hlow.
    apply Qle_bool_iff. rewrite Hk. rewrite <- Zle_Qle.
    assert (Hr : k <= round_half_even
                        (F64.div (F64.div (SalesStats.median s) 2) 5000)).
    { apply round_half_even_ge_int. rewrite Hk in Hmed.
      assert (Ha : (inject_Z (5000 * k) <= F64.div (SalesStats.median s) 2)%Q).
      { unfold F64.div. apply fl_ge_f64; [apply is_f64_Z; exact Hrange|].
        unfold Qdiv. change (/ 2)%Q with (1 # 2)%Q. lra. }
      unfold F64.div at 1. apply fl_ge_f64; [apply is_f64_Z; lia|].
      rewrite inject_Z_mult in Ha. change (inject_Z 5000) with 5000%Q in Ha.
      unfold Qdiv at 1. change (/ 5000)%Q with (1 # 5000)%Q. lra. }
    lia. }
  destruct (no_appeal_short_form ac sd user_sev ecf_trend st lt cov ep sdf pr Hno)
    as [Hout [Hshort _]].
  split; [exact Hout|]. split; [exact Hshort|].
  unfold not_recommended_lines. rewrite Hs.
  unfold user_tcv. apply Qle_bool_iff in Hmed. rewrite Hmed.
  do 6 (apply in_or_app; right). apply in_or_app. left. left. reflexivity.
Qed.

Lemma X5_witness_median_410 :
  with_sales stats_median_410 = Some stats_410 /\
  is_short_form
    (generate_appeal_summary "AR-4" "MEADOWS OF ARBOR RIDGE" 200000 [] stats_median_410
       [] [] [] None None) = true.
Proof.
  split; [reflexivity|].
  apply (X5_median_at_or_above_tcv_no_appeal "AR-4" "MEADOWS OF ARBOR RIDGE" 200000 []
           stats_median_410 [] [] [] None None stats_410 40).
  - reflexivity.
  - reflexivity.
  - vm_compute. discriminate.
  - apply Qle_bool_iff. reflexivity.
Defined.

(** Beyond 2^53 the quotient by 5000 is rounded to a multiple of 4 or
    more: a median of 0x1.e3c5fd7128298p+67 is above twice the assessed
    value 139,438,188,612,712,525,000, and the recommended assessed value
    is 5,000 below the assessed value. *)
Lemma median_above_tcv_beyond_2_53 :
  let user_sev := inject_Z (5000 * 27887637722542505) in
  let median := inject_Z 278876377225425059840 in
  let st := Stats (SalesStats.mk 1 median median median median 0 100
                                 (F64.sub (user_sev * 2) median) 0) in
  F64.is_f64 median /\
  (user_sev * 2 <= median)%Q /\
  rec_sev user_sev [] st = 5000 * 27887637722542505 - 5000 /\
  no_appeal user_sev [] st = false.
Proof. vm_compute. repeat split; discriminate. Qed.

(** X22. When, for a positive true cash value that is a binary64 value,
    [compute_ecf_adjusted_value] and [get_overvaluation_pct] both return a
    value for a cost factor, the factor lies strictly between 0 and 1, the
    adjusted value is the binary64 product, between 0 and the true cash
    value, and the percentage is the binary64 value of (1 - factor) * 100,
    between 0 and 100. *)
Theorem X22_adjusted_value_and_overvaluation : forall ecf user_tcv v pct,
  F64.is_f64 user_tcv -> (0 < user_tcv)%Q ->
  compute_ecf_adjusted_value ecf user_tcv = Some v ->
  get_overvaluation_pct ecf = Some pct ->
  exists e, ecf = Some e /\ (0 < e)%Q /\ (e < 1)%Q /\
    v = F64.mul user_tcv e /\ pct = F64.mul (F64.sub 1 e) 100 /\
    (0 <= pct)%Q /\ (pct <= 100)%Q /\ (0 <= v)%Q /\ (v <= user_tcv)%Q.
Proof.
  intros ecf tcv v pct Hf Htcv Hv Hp.
  unfold compute_ecf_adjusted_value, get_overvaluation_pct in *.
  destruct ecf as [e|]; [|discriminate].
  destruct (Qle_bool e 0) eqn:E0; [discriminate|].
  destruct (Qle_bool 1 e) eqn:E1; [discriminate|].
  injection Hv as <-. injection Hp as <-.
  assert (H0 : (0 < e)%Q).
  { apply Qnot_le_lt. intros H. apply Qle_bool_iff in H. congruence. }
  assert (H1 : (e < 1)%Q).
  { apply Qnot_le_lt. intros H. apply Qle_bool_iff in H. congruence. }
  exists e. split; [reflexivity|]. split; [exact H0|]. split; [exact H1|].
  split; [reflexivity|]. split; [reflexivity|].
  assert (D0 : (0 <= F64.sub 1 e)%Q) by (unfold F64.sub; apply fl_nonneg; lra).
  assert (D1 : (F64.sub 1 e <= 1)%Q).
  { unfold F64.sub. apply fl_le_f64; [apply (is_f64_Z 1); vm_compute; discriminate|lra]. }
  assert (P : (0 <= tcv * e)%Q) by (apply Qmult_le_0_compat; lra).
  assert (P' : (tcv * e <= tcv)%Q).
  { setoid_replace tcv with (tcv * 1)%Q at 2 by ring.
    apply Qmult_le_l; [exact Htcv|lra]. }
  unfold F64.mul. repeat split.
  - apply fl_nonneg. lra.
  - apply fl_le_f64; [apply (is_f64_Z 100); vm_compute; discriminate|lra].
  - apply fl_nonneg. exact P.
  - apply fl_le_f64; [exact Hf|exact P'].
Qed.

(** With the factor 0.85 the percentage is the binary64 value just above
    15; with the binary64 value of 1e-20 it is 100. *)
Lemma X22_witness_factor_085 :
  (exists e, Some f_085 = Some e /\ (0 < e)%Q /\ (e < 1)%Q /\
     F64.mul 400000 f_085 = F64.mul 400000 e /\
     F64.mul (F64.sub 1 f_085) 100 = F64.mul (F64.sub 1 e) 100 /\
     (0 <= F64.mul (F64.sub 1 f_085) 100)%Q /\
     (F64.mul (F64.sub 1 f_085) 100 <= 100)%Q /\
     (0 <= F64.mul 400000 f_085)%Q /\ (F64.mul 400000 f_085 <= 400000)%Q) /\
  (F64.mul 400000 f_085 == 340000)%Q /\
  (F64.mul (F64.sub 1 f_085) 100 == 15 + (1 # 562949953421312))%Q /\
  get_overvaluation_pct (Some (F64.fl (1 # 100000000000000000000))) = Some 100%Q.
Proof.
  split; [|vm_compute; repeat split; reflexivity].
  apply (X22_adjusted_value_and_overvaluation (Some f_085) 400000
           (F64.mul 400000 f_085) (F64.mul (F64.sub 1 f_085) 100));
    reflexivity.
Defined.

(* ================================================================== *)
(** * Further properties of the comparable sales *)
(* ================================================================== *)

Lemma mapM_Raise : forall (A B : Type) (f : A -> result B) l e,
  mapM f l = Raise e -> exists x, In x l /\ f x = Raise e.
Proof.
  induction l as [|x l IH]; intros e H; simpl in H; [discriminate|].
  destruct (f x) as [b|e'] eqn:E.
  - destruct (mapM f l) as [bs|e''] eqn:E'; [discriminate|].
    injection H as ->. destruct (IH e eq_refl) as [y [Hy Hf]].
    exists y. split; [right; exact Hy|exact Hf].
  - injection H as ->. exists x. split; [left; reflexivity|exact E].
Qed.

Lemma require_cols_Raise : forall cols l e,
  foldM (fun c (_ : unit) => require_col c cols) l tt = Raise e ->
  exists c, In c l /\ e = KeyError c /\ existsb (String.eqb c) cols = false.
Proof.
  induction l as [|c l IH]; intros e H; cbn [foldM] in H; [discriminate|].
  unfold require_col at 1 in H.
  destruct (existsb (String.eqb c) cols) eqn:E; cbn [bind] in H.
  - destruct (IH e H) as [c' [Hc' He]]. exists c'. split; [right; exact Hc'|exact He].
  - injection H as <-. exists c. split; [left; reflexivity|]. split; [reflexivity|exact E].
Qed.

Lemma year_sales_Raise : forall area df e,
  year_sales area df = Raise e ->
  has_col "ECF_Area" df = true /\
  exists col, In col comparable_columns /\ e = KeyError col /\ has_col col df = false.
Proof.
  intros area df e H. unfold year_sales in H.
  destruct (has_col "ECF_Area" df); cbn [negb] in H; [|discriminate].
  split; [reflexivity|].
  set (a1 := select (fun r => cell_eqb (Sales.ECF_Area r) area) df) in *.
  set (a2 := if has_col "Terms_of_Sale" a1 then select arms_length a1 else a1) in *.
  assert (Hc : columns a2 = columns df).
  { unfold a2. destruct (has_col "Terms_of_Sale" a1); reflexivity. }
  rewrite Hc in H. unfold require_col at 1 in H.
  destruct (existsb (String.eqb "Adj_Sale") (columns df)) eqn:E; cbn [bind] in H.
  - destruct (rows (select above_threshold a2)); [discriminate|].
    cbn [select columns] in H. rewrite Hc in H.
    destruct (foldM _ comparable_columns tt) as [u|e'] eqn:E'; cbn [bind] in H;
      [discriminate|].
    injection H as ->. apply require_cols_Raise in E'. exact E'.
  - injection H as <-. exists "Adj_Sale". split; [simpl; tauto|].
    split; [reflexivity|exact E].
Qed.

Lemma mapM_dedup_key_cases : forall to_datetime l,
  match mapM (dedup_key to_datetime) l with
  | Ok _ => forall r, In r l -> date_readable to_datetime r
  | Raise e =>
      e = ValueError /\
      exists r s, In r l /\ Comparable.Sale_Date r = Some s /\ to_datetime s = None
  end.
Proof.
  intros to_datetime. induction l as [|x l IH]; cbn [mapM].
  - intros r [].
  - unfold dedup_key at 1, norm_date.
    destruct (Comparable.Sale_Date x) as [s|] eqn:Es.
    + destruct (to_datetime s) as [ts|] eqn:Et; cbn [bind].
      * destruct (mapM (dedup_key to_datetime) l) as [keyed|e].
        -- intros r [<-|Hr]; [|apply IH; exact Hr].
           intros s' Hs'. rewrite Es in Hs'. injection Hs' as <-. congruence.
        -- destruct IH as [-> [r [s' [Hr Hs']]]]. split; [reflexivity|].
           exists r, s'. split; [right; exact Hr|exact Hs'].
      * split; [reflexivity|]. exists x, s. split; [left; reflexivity|]. split; assumption.
    + cbn [bind]. destruct (mapM (dedup_key to_datetime) l) as [keyed|e].
      * intros r [<-|Hr]; [|apply IH; exact Hr].
        intros s' Hs'. rewrite Es in Hs'. discriminate.
      * destruct IH as [-> [r [s' [Hr Hs']]]]. split; [reflexivity|].
        exists r, s'. split; [right; exact Hr|exact Hs'].
Qed.

(** X6. Errors of [get_comparable_sales]. If it returns, the date of every
    row that passed the filters is missing or readable. If it raises, then
    either it is the [ValueError] of a qualifying row whose date cannot be
    read, or it is the [KeyError] of a column among the six selected ones
    that a table with an [ECF_Area] column lacks. *)
Theorem X6_comparable_sales_errors : forall to_datetime data area,
  match get_comparable_sales to_datetime data area with
  | Ok _ => forall r, In r (qualifying_rows data area) -> date_readable to_datetime r
  | Raise e =>
      (e = ValueError /\
       exists r s, In r (qualifying_rows data area) /\
                   Comparable.Sale_Date r = Some s /\ to_datetime s = None) \/
      (exists col year df,
         e = KeyError col /\ In col comparable_columns /\
         In (year, df) (sales data) /\
         has_col "ECF_Area" df = true /\ has_col col df = false)
  end.
Proof.
  intros to_datetime data area. unfold get_comparable_sales, qualifying_rows.
  destruct (mapM _ (sales data)) as [all_sales|e] eqn:E; cbn [bind].
  - destruct (List.concat all_sales) as [|c l] eqn:Ec.
    + intros r [].
    + pose proof (mapM_dedup_key_cases to_datetime (c :: l)) as H.
      destruct (mapM (dedup_key to_datetime) (c :: l)) as [keyed|e]; cbn [bind].
      * exact H.
      * left. exact H.
  - right. apply mapM_Raise in E. destruct E as [[year df] [Hin Hf]].
    apply year_sales_Raise in Hf. destruct Hf as [Harea [col [Hcol [-> Hno]]]].
    exists col, year, df. repeat split; assumption.
Qed.

Section SortedFacts.
Context {A : Type} (leb : A -> A -> bool).
Hypothesis leb_total : forall a b, leb a b = true \/ leb b a = true.

Lemma insert_sorted_Sorted : forall x l,
  Sorted (fun a b => leb a b = true) l ->
  Sorted (fun a b => leb a b = true) (insert_sorted leb x l).
Proof.
  intros x l H. induction H as [|y l Hs IH Hd]; cbn [insert_sorted].
  - constructor; constructor.
  - destruct (leb x y) eqn:E.
    + constructor; [constructor; assumption|constructor; exact E].
    + constructor; [exact IH|].
      assert (Hyx : leb y x = true).
      { destruct (leb_total x y) as [H|H]; [congruence|exact H]. }
      destruct Hd as [|z l' Hyz]; cbn [insert_sorted].
      * constructor. exact Hyx.
      * destruct (leb x z); constructor; assumption.
Qed.

Lemma sort_Sorted : forall l, Sorted (fun a b => leb a b = true) (sort leb l).
Proof.
  induction l as [|x l IH]; cbn [sort fold_right]; [constructor|].
  apply insert_sorted_Sorted. exact IH.
Qed.
End SortedFacts.

Lemma date_desc_total : forall a b, date_desc a b = true \/ date_desc b a = true.
Proof.
  intros a b. unfold date_desc.
  destruct (Comparable.Sale_Date a) as [x|], (Comparable.Sale_Date b) as [y|]; auto.
  destruct (String.leb_total y x) as [H|H]; auto.
Qed.

Lemma date_desc_dates : forall a b, date_desc a b = true <-> dates_descending a b.
Proof.
  intros a b. unfold date_desc, dates_descending.
  destruct (Comparable.Sale_Date a), (Comparable.Sale_Date b);
    split; intros H; try reflexivity; try exact I; try exact H; try discriminate.
  destruct H.
Qed.

Lemma Sorted_impl : forall (A : Type) (R S : A -> A -> Prop) l,
  (forall a b, R a b -> S a b) -> Sorted R l -> Sorted S l.
Proof.
  intros A R S l HRS H. induction H as [|x l Hs IH Hd]; constructor; [exact IH|].
  destruct Hd; constructor. apply HRS. assumption.
Qed.

(** X7. The rows [get_comparable_sales] returns are the deduplicated
    qualifying rows, rearranged so that the [Sale_Date] strings descend
    (compared as text, not as dates), rows without a date last. *)
Theorem X7_comparable_sales_order : forall to_datetime data area out,
  get_comparable_sales to_datetime data area = Ok out ->
  Sorted dates_descending (rows out) /\
  Permutation (rows out)
    (map snd (drop_duplicates_last
                (map (fun r => (key_of to_datetime r, r)) (qualifying_rows data area)))).
Proof.
  intros to_datetime data area out H.
  rewrite (get_comparable_sales_rows _ _ _ _ H). split.
  - eapply Sorted_impl; [intros a b; apply date_desc_dates|].
    apply sort_Sorted. exact date_desc_total.
  - apply sort_perm.
Qed.

(** Four sales: the sale of December 2021 comes first, before those of
    June 2023 and May 2022, and the sale without a date comes last. *)
Lemma X7_witness_unordered_dates :
  get_comparable_sales to_datetime_mdy unordered_sales_data "AR-4"
    = Ok (mkFrame comparable_columns unordered_sales_output) /\
  map Comparable.Sale_Date unordered_sales_output
    = [Some "12/01/2021"; Some "06/30/2023"; Some "05/25/2022"; None] /\
  Sorted dates_descending unordered_sales_output /\
  Permutation unordered_sales_output
    (map snd (drop_duplicates_last
                (map (fun r => (key_of to_datetime_mdy r, r))
                     (qualifying_rows unordered_sales_data "AR-4")))).
Proof.
  split; [vm_compute; reflexivity|]. split; [reflexivity|].
  apply (X7_comparable_sales_order to_datetime_mdy unordered_sales_data "AR-4"
           (mkFrame comparable_columns unordered_sales_output)).
  vm_compute. reflexivity.
Defined.

(* ================================================================== *)
(** * Further properties of the loaders and of the evidence views *)
(* ================================================================== *)

(** ** Normalisation of area codes *)

Lemma lstrip_by_first : forall p s c,
  first_char (lstrip_by p s) = Some c -> p c = false.
Proof.
  induction s as [|a r IH]; intros c H; cbn [lstrip_by] in H; [discriminate|].
  destruct (p a) eqn:E; [apply IH; exact H|].
  cbn [first_char] in H. injection H as <-. exact E.
Qed.

Lemma lstrip_by_last : forall p s c,
  last_char (lstrip_by p s) = Some c -> last_char s = Some c.
Proof.
  induction s as [|a r IH]; intros c H; cbn [lstrip_by] in H; [discriminate|].
  destruct (p a); [|exact H].
  cbn [last_char]. rewrite (IH c H). reflexivity.
Qed.

Lemma rstrip_by_last : forall p s c,
  last_char (rstrip_by p s) = Some c -> p c = false.
Proof.
  induction s as [|a r IH]; intros c H; cbn [rstrip_by] in H; [discriminate|].
  destruct (rstrip_by p r) as [|b r'] eqn:E.
  - destruct (p a) eqn:Ea; cbn [last_char] in H; [discriminate|].
    injection H as <-. exact Ea.
  - apply IH. cbn [last_char] in H |- *.
    destruct (last_char r'); exact H.
Qed.

(** X21. A normalised area code does not begin with an apostrophe and does
    not end in white space. *)
Theorem X21_normalised_area_code : forall v s,
  DataLoader.normalize_area v = Some s ->
  first_char s <> Some "'"%char /\
  forall c, last_char s = Some c -> is_space c = false.
Proof.
  intros v s H. unfold DataLoader.normalize_area in H.
  destruct v as [t|]; [|discriminate]. cbn [option_map] in H. injection H as <-.
  unfold lstrip_char, strip. split.
  - intros Hc. apply lstrip_by_first in Hc. discriminate.
  - intros c Hc. apply lstrip_by_last in Hc. apply rstrip_by_last in Hc. exact Hc.
Qed.

Lemma X21_witness_quoted_code :
  DataLoader.normalize_area (Some "  'AR-4 ") = Some "AR-4" /\
  first_char "AR-4" <> Some "'"%char /\
  forall c, last_char "AR-4" = Some c -> is_space c = false.
Proof.
  split; [reflexivity|].
  apply (X21_normalised_area_code (Some "  'AR-4 ") "AR-4"). reflexivity.
Defined.


(** ** The cost-factor trend of loaded summaries *)

Lemma foldM_pure : forall (A S : Type) (step : A -> S -> result S)
                         (f : S -> A -> S) l s,
  (forall x, In x l -> forall s', step x s' = Ok (f s' x)) ->
  foldM step l s = Ok (fold_left f l s).
Proof.
  induction l as [|x l IH]; intros s H; cbn [foldM fold_left]; [reflexivity|].
  rewrite (H x (or_introl eq_refl)). cbn [bind]. apply IH.
  intros y Hy. apply H. right. exact Hy.
Qed.

(** On tables that have both columns the trend is made without error. *)
Lemma get_ecf_trend_map : forall data area,
  NoDup (map fst (ecf_summaries data)) ->
  Forall (fun p => has_col "ECF_Area" (snd p) = true /\
                   has_col "Ave_ECF" (snd p) = true) (ecf_summaries data) ->
  get_ecf_trend data area
  = Ok (map (fun '(year, df) => (year, area_ecf area df)) (ecf_summaries data)).
Proof.
  intros data area Hnd Hcols. unfold get_ecf_trend.
  rewrite (foldM_pure _ _ _
             (fun d '(k, f) => dict_set Z.eqb k (area_ecf area f) d)).
  - rewrite fold_dict_set_map; [reflexivity|exact Hnd].
  - intros [year df] Hin trend. rewrite Forall_forall in Hcols.
    destruct (Hcols _ Hin) as [H1 H2]. cbn [snd] in H1, H2.
    unfold has_col in H1, H2. unfold require_col. rewrite H1. cbn [bind].
    unfold area_ecf. cbn [select rows columns].
    destruct (filter _ (rows df)); [reflexivity|].
    rewrite H2. reflexivity.
Qed.

(** Without an [ECF_Area] column in one of the tables the trend is not
    made: the [KeyError] of [df["ECF_Area"]]. *)
Lemma get_ecf_trend_KeyError : forall s e l la year df rest area,
  has_col "ECF_Area" df = false ->
  get_ecf_trend (mkData s e ((year, df) :: rest) l la) area
  = Raise (KeyError "ECF_Area").
Proof.
  intros s e l la year df rest area H. unfold get_ecf_trend.
  cbn [ecf_summaries foldM]. unfold require_col. unfold has_col in H.
  rewrite H. reflexivity.
Qed.

Lemma filter_map_comm : forall (A B : Type) (g : A -> B) (p : B -> bool) l,
  filter p (map g l) = map g (filter (fun x => p (g x)) l).
Proof.
  induction l as [|x l IH]; [reflexivity|]. cbn [map filter].
  destruct (p (g x)); cbn [map]; rewrite IH; reflexivity.
Qed.

Lemma first_some_map : forall (A B C : Type) (f : B -> option C) (g : A -> B) l,
  DataLoader.first_some f (map g l) = DataLoader.first_some (fun x => f (g x)) l.
Proof.
  induction l as [|x l IH]; [reflexivity|]. cbn [map DataLoader.first_some].
  rewrite IH. reflexivity.
Qed.

Lemma somes_In : forall (A : Type) (l : list (option A)) a,
  In a (DataLoader.somes l) <-> In (Some a) l.
Proof.
  induction l as [|[x|] l IH]; intros a; cbn [DataLoader.somes In].
  - tauto.
  - rewrite IH. split; intros [H|H]; auto; left; congruence.
  - rewrite IH. split; [auto|intros [H|H]; [discriminate|exact H]].
Qed.

Lemma distinct_In : forall l s, In s (DataLoader.distinct l) <-> In s l.
Proof.
  induction l as [|x l IH]; intros s; cbn [DataLoader.distinct In]; [tauto|].
  rewrite filter_In, IH. split.
  - intros [H|[H _]]; auto.
  - intros [H|H]; [left; exact H|].
    destruct (String.eqb x s) eqn:E.
    + left. apply String.eqb_eq. exact E.
    + right. split; [exact H|reflexivity].
Qed.

Lemma NoDup_filter : forall (A : Type) (p : A -> bool) l, NoDup l -> NoDup (filter p l).
Proof.
  intros A p l H. induction H as [|x l Hx Hnd IH]; cbn [filter]; [constructor|].
  destruct (p x); [|exact IH]. constructor; [|exact IH].
  intros Hin. apply filter_In in Hin. tauto.
Qed.

Lemma distinct_NoDup : forall l, NoDup (DataLoader.distinct l).
Proof.
  induction l as [|x l IH]; cbn [DataLoader.distinct]; constructor.
  - intros Hin. apply filter_In in Hin. destruct Hin as [_ H].
    rewrite String.eqb_refl in H. discriminate.
  - apply NoDup_filter. exact IH.
Qed.

Section GroupFirst.
Variable year : Z.
Variable rs : list EcfSummaries.row.
Variable area : string.

Lemma group_rows_of_area : forall codes,
  (forall r, In r rs -> EcfSummaries.ECF_Area r = Some area -> In area codes) ->
  match filter (fun r => cell_eqb (EcfSummaries.ECF_Area r) area) (map (group_row year rs) codes) with
  | first :: _ => EcfSummaries.Ave_ECF first
  | [] => None
  end
  = DataLoader.first_some EcfSummaries.Ave_ECF
      (filter (fun r => cell_eqb (EcfSummaries.ECF_Area r) area) rs).
Proof.
  induction codes as [|c codes IH]; intros Hall; cbn [map filter].
  - assert (E : filter (fun r => cell_eqb (EcfSummaries.ECF_Area r) area) rs = []).
    { apply existsb_false_filter. apply not_true_is_false. intros Hex.
      apply existsb_exists in Hex. destruct Hex as [r [Hr Hc]].
      unfold cell_eqb in Hc. destruct (EcfSummaries.ECF_Area r) as [x|] eqn:Ex;
        [|discriminate].
      apply String.eqb_eq in Hc. subst x. exact (Hall r Hr Ex). }
    rewrite E. reflexivity.
  - unfold group_row at 1. cbn [EcfSummaries.ECF_Area cell_eqb].
    destruct (String.eqb c area) eqn:E.
    + apply String.eqb_eq in E. subst c. reflexivity.
    + apply IH. intros r Hr Hc. destruct (Hall r Hr Hc) as [->|H]; [|exact H].
      rewrite String.eqb_refl in E. discriminate.
Qed.

Lemma area_ecf_group_first : forall cols,
  area_ecf area (mkFrame cols (DataLoader.group_first year rs))
  = DataLoader.first_some EcfSummaries.Ave_ECF
      (filter (fun r => cell_eqb (EcfSummaries.ECF_Area r) area) rs).
Proof.
  intros cols. unfold area_ecf, DataLoader.group_first. cbn [rows].
  apply group_rows_of_area. intros r Hr Hc.
  apply (sort_In String.leb). apply distinct_In. apply somes_In.
  rewrite <- Hc. apply in_map. exact Hr.
Qed.
End GroupFirst.

Lemma load_summary_frame_Ok : forall year df f,
  DataLoader.load_summary_frame year df = Ok f ->
  f = mkFrame ["ECF_Area"; "Subdivision"; "Ave_ECF"; "_year"]
        (DataLoader.group_first year
           (map (fun r => EcfSummaries.mk
                            (DataLoader.normalize_area (EcfSummaries.ECF_Area r))
                            (EcfSummaries.Subdivision r) (EcfSummaries.Ave_ECF r)
                            (EcfSummaries._year r))
                (rows df))).
Proof.
  intros year df f H. unfold DataLoader.load_summary_frame in H.
  destruct (require_col "ECF_Area" (columns df)); cbn [bind] in H; [|discriminate].
  destruct (require_col "Ave_ECF" (columns df)); cbn [bind] in H; [|discriminate].
  destruct (require_col "Subdivision" (columns df)); cbn [bind] in H; [|discriminate].
  injection H as <-. reflexivity.
Qed.

Lemma area_ecf_loaded : forall read_csv year df f area,
  read_csv year = Some df ->
  DataLoader.load_summary_frame year df = Ok f ->
  area_ecf area f = file_ecf read_csv area year.
Proof.
  intros read_csv year df f area Hr H. apply load_summary_frame_Ok in H. subst f.
  rewrite area_ecf_group_first. unfold file_ecf. rewrite Hr.
  rewrite filter_map_comm, first_some_map. reflexivity.
Qed.

(** X8. [get_ecf_trend] on the summaries [_load_ecf_summaries] loaded
    raises nothing and has one entry per year for which a file exists, in
    the order of [YEARS]; the entry is the first average cost factor that
    reads as a number among the rows of the file whose normalised code is
    the area code, [None] when there is none. *)
Theorem X8_trend_of_loaded_summaries :
  forall read_csv summaries s e l la area,
    DataLoader._load_ecf_summaries read_csv = Ok summaries ->
    get_ecf_trend (mkData s e summaries l la) area
    = Ok (map (fun year => (year, file_ecf read_csv area year)) (years_read read_csv)).
Proof.
  intros read_csv summaries s e l la area H.
  unfold DataLoader._load_ecf_summaries, DataLoader.YEARS in H. cbn [foldM] in H.
  unfold years_read, DataLoader.YEARS. cbn [filter].
  destruct (read_csv 2024) as [d24|] eqn:R24; cbn [bind] in H;
    [destruct (DataLoader.load_summary_frame 2024 d24) as [f24|] eqn:E24;
     cbn [bind] in H; [|discriminate]|];
  (destruct (read_csv 2025) as [d25|] eqn:R25; cbn [bind] in H;
    [destruct (DataLoader.load_summary_frame 2025 d25) as [f25|] eqn:E25;
     cbn [bind] in H; [|discriminate]|]);
  (destruct (read_csv 2026) as [d26|] eqn:R26; cbn [bind] in H;
    [destruct (DataLoader.load_summary_frame 2026 d26) as [f26|] eqn:E26;
     cbn [bind] in H; [|discriminate]|]);
  injection H as <-;
  (rewrite get_ecf_trend_map;
   [|cbn [ecf_summaries]; vm_compute; repeat constructor; simpl; intuition discriminate
    |cbn [ecf_summaries];
     repeat match goal with
            | |- context [dict_set Z.eqb ?k ?v ?d] =>
                let d' := eval vm_compute in (dict_set Z.eqb k v d) in
                change (dict_set Z.eqb k v d) with d'
            end;
     repeat (apply Forall_cons; [cbn [snd]|]); try apply Forall_nil;
     match goal with
     | Hl : DataLoader.load_summary_frame _ _ = Ok ?f |- _ /\ _ =>
         rewrite (load_summary_frame_Ok _ _ _ Hl); split; reflexivity
     end]);
  cbn [ecf_summaries];
  repeat match goal with
         | |- context [dict_set Z.eqb ?k ?v ?d] =>
             let d' := eval vm_compute in (dict_set Z.eqb k v d) in
             change (dict_set Z.eqb k v d) with d'
         end;
  cbn [map];
  repeat match goal with
         | Hr : read_csv ?y = Some ?d, Hl : DataLoader.load_summary_frame ?y ?d = Ok ?f
           |- context [area_ecf area ?f] =>
             rewrite (area_ecf_loaded read_csv y d f area Hr Hl)
         end;
  reflexivity.
Qed.

Lemma X8_witness_first_missing :
  exists summaries,
    DataLoader._load_ecf_summaries summary_csv_first_missing = Ok summaries /\
    get_ecf_trend (mkData [] [] summaries [] []) "AR-4"
    = Ok (map (fun year => (year, file_ecf summary_csv_first_missing "AR-4" year))
              (years_read summary_csv_first_missing)) /\
    map (fun year => (year, file_ecf summary_csv_first_missing "AR-4" year))
        (years_read summary_csv_first_missing) = [(2024, Some (9 # 10))].
Proof.
  eexists. split; [vm_compute; reflexivity|]. split; [|vm_compute; reflexivity].
  apply (X8_trend_of_loaded_summaries summary_csv_first_missing). vm_compute. reflexivity.
Defined.

(** ** The summaries loader *)

Lemma load_summary_frame_Raise : forall year df e,
  DataLoader.load_summary_frame year df = Raise e ->
  exists col, In col summary_columns /\ has_col col df = false /\ e = KeyError col.
Proof.
  intros year df e H. unfold DataLoader.load_summary_frame, require_col in H.
  unfold has_col, summary_columns.
  destruct (existsb (String.eqb "ECF_Area") (columns df)) eqn:E1; cbn [bind] in H.
  - destruct (existsb (String.eqb "Ave_ECF") (columns df)) eqn:E2; cbn [bind] in H.
    + destruct (existsb (String.eqb "Subdivision") (columns df)) eqn:E3; cbn [bind] in H;
        [discriminate|].
      injection H as <-. exists "Subdivision". simpl. tauto.
    + injection H as <-. exists "Ave_ECF". simpl. tauto.
  - injection H as <-. exists "ECF_Area". simpl. tauto.
Qed.

Lemma NoDup_map_Some : forall (A : Type) (l : list A), NoDup l -> NoDup (map Some l).
Proof.
  intros A l H. induction H as [|x l Hx Hnd IH]; cbn [map]; constructor; [|exact IH].
  intros Hin. apply in_map_iff in Hin. destruct Hin as [y [Hy Hin]].
  injection Hy as ->. exact (Hx Hin).
Qed.

Lemma load_summary_frame_columns : forall year df f,
  DataLoader.load_summary_frame year df = Ok f ->
  forall col, In col summary_columns -> has_col col df = true.
Proof.
  intros year df f H. unfold DataLoader.load_summary_frame, require_col in H.
  fold (has_col "ECF_Area" df) in H. fold (has_col "Ave_ECF" df) in H.
  fold (has_col "Subdivision" df) in H.
  destruct (has_col "ECF_Area" df) eqn:E1; cbn [bind] in H; [|discriminate].
  destruct (has_col "Ave_ECF" df) eqn:E2; cbn [bind] in H; [|discriminate].
  destruct (has_col "Subdivision" df) eqn:E3; cbn [bind] in H; [|discriminate].
  intros col [<-|[<-|[<-|[]]]]; assumption.
Qed.

(** X9. The table [_load_ecf_summaries] makes of one file has exactly one
    row for each normalised area code of the file, in ascending order of
    the codes, every row carrying a code and the year; and the loading
    fails, with a [KeyError], exactly on a file that lacks one of the
    columns [ECF_Area], [Ave_ECF], [Subdivision]. *)
Theorem X9_summaries_one_row_per_area : forall year df,
  match DataLoader.load_summary_frame year df with
  | Ok f =>
      (forall col, In col summary_columns -> has_col col df = true) /\
      NoDup (map EcfSummaries.ECF_Area (rows f)) /\
      Sorted (fun a b => String.leb a b = true)
             (DataLoader.somes (map EcfSummaries.ECF_Area (rows f))) /\
      (forall code,
         In (Some code) (map EcfSummaries.ECF_Area (rows f)) <->
         In (Some code)
            (map (fun r => DataLoader.normalize_area (EcfSummaries.ECF_Area r)) (rows df))) /\
      (forall r, In r (rows f) ->
         EcfSummaries.ECF_Area r <> None /\ EcfSummaries._year r = year)
  | Raise e =>
      exists col, In col summary_columns /\ has_col col df = false /\ e = KeyError col
  end.
Proof.
  intros year df.
  destruct (DataLoader.load_summary_frame year df) as [f|e] eqn:E;
    [|apply (load_summary_frame_Raise _ _ _ E)].
  split; [exact (load_summary_frame_columns _ _ _ E)|].
  apply load_summary_frame_Ok in E. subst f. cbn [rows].
  set (rs := map _ (rows df)).
  assert (Hcodes : map EcfSummaries.ECF_Area (DataLoader.group_first year rs)
                   = map Some (sort String.leb
                        (DataLoader.distinct
                           (DataLoader.somes (map EcfSummaries.ECF_Area rs))))).
  { unfold DataLoader.group_first. rewrite map_map. reflexivity. }
  rewrite Hcodes.
  assert (Hsomes : forall l : list string, DataLoader.somes (map Some l) = l).
  { induction l as [|x l IH]; [reflexivity|]. cbn [map DataLoader.somes].
    rewrite IH. reflexivity. }
  split; [|split; [|split]].
  - apply NoDup_map_Some.
    eapply Permutation_NoDup; [apply Permutation_sym; apply sort_perm|].
    apply distinct_NoDup.
  - rewrite Hsomes. apply sort_Sorted. apply String.leb_total.
  - intros code. rewrite in_map_iff. split.
    + intros [x [Hx Hin]]. injection Hx as ->.
      apply (proj1 (sort_In String.leb _ _)) in Hin.
      apply (proj1 (distinct_In _ _)) in Hin.
      apply (proj1 (somes_In _ _ _)) in Hin. unfold rs in Hin. rewrite map_map in Hin. exact Hin.
    + intros Hin. exists code. split; [reflexivity|].
      apply (sort_In String.leb). apply distinct_In. apply somes_In.
      unfold rs. rewrite map_map. exact Hin.
  - intros r Hr. unfold DataLoader.group_first in Hr. apply in_map_iff in Hr.
    destruct Hr as [code [<- _]]. split; [discriminate|reflexivity].
Qed.

(** ** Per-property cost factors: errors *)

Lemma ecf_properties_cases : forall area l acc,
  match
    foldM
      (fun '(year, df) rows_ =>
         if negb (has_col "ECF_Area_Code" df || has_col "ECF_Area" df)
         then Ok rows_
         else
           let area_df := select (fun r => cell_eqb (ecf_area_cell df r) area) df in
           _ <- require_col "ECF" (columns area_df) ;;
           let area_df := select (fun r => notna (EcfAnalysis.ECF r)) area_df in
           Ok (rows_ ++ map (ecf_property year df) (rows area_df))%list)
      l acc
  with
  | Ok _ =>
      forall year df, In (year, df) l ->
        has_col "ECF_Area_Code" df || has_col "ECF_Area" df = true ->
        has_col "ECF" df = true
  | Raise e =>
      e = KeyError "ECF" /\
      exists year df, In (year, df) l /\
        has_col "ECF_Area_Code" df || has_col "ECF_Area" df = true /\
        has_col "ECF" df = false
  end.
Proof.
  intros area. induction l as [|[y d] l IH]; intros acc; cbn [foldM].
  - intros year df [].
  - destruct (has_col "ECF_Area_Code" d || has_col "ECF_Area" d) eqn:Ea; cbn [negb].
    + cbv zeta. cbn [select columns]. unfold require_col at 1.
      fold (has_col "ECF" d). destruct (has_col "ECF" d) eqn:Ee; cbn [bind].
      * match goal with |- context [foldM ?f l ?a] => specialize (IH a) end.
        destruct (foldM _ l _) as [props|e].
        -- intros year df [H|H]; [injection H as <- <-; intros _; exact Ee|].
           exact (IH year df H).
        -- destruct IH as [-> [year [df [Hin H]]]]. split; [reflexivity|].
           exists year, df. split; [right; exact Hin|exact H].
      * split; [reflexivity|]. exists y, d. split; [left; reflexivity|]. split; assumption.
    + cbn [bind]. specialize (IH acc). destruct (foldM _ l acc) as [props|e].
      * intros year df [H|H]; [injection H as <- <-; intros H'; congruence|].
        exact (IH year df H).
      * destruct IH as [-> [year [df [Hin H]]]]. split; [reflexivity|].
        exists year, df. split; [right; exact Hin|exact H].
Qed.

(** X10. Errors of [get_ecf_properties]: it raises only [KeyError("ECF")],
    and does so exactly when some table has an area-code column but no
    [ECF] column, whatever the area code asked for. *)
Theorem X10_ecf_properties_errors : forall data area,
  match get_ecf_properties data area with
  | Ok _ =>
      forall year df, In (year, df) (ecf_analysis data) ->
        has_col "ECF_Area_Code" df || has_col "ECF_Area" df = true ->
        has_col "ECF" df = true
  | Raise e =>
      e = KeyError "ECF" /\
      exists year df, In (year, df) (ecf_analysis data) /\
        has_col "ECF_Area_Code" df || has_col "ECF_Area" df = true /\
        has_col "ECF" df = false
  end.
Proof. intros data area. apply ecf_properties_cases. Qed.

(** ** The sales loader *)

Lemma existsb_add_col : forall c c' cols,
  existsb (String.eqb c) (DataLoader.add_col c' cols)
  = existsb (String.eqb c) cols || String.eqb c c'.
Proof.
  intros c c' cols. unfold DataLoader.add_col.
  destruct (existsb (String.eqb c') cols) eqn:E.
  - destruct (String.eqb c c') eqn:Ec; [|rewrite orb_false_r; reflexivity].
    apply String.eqb_eq in Ec. subst. rewrite E. reflexivity.
  - rewrite existsb_app. cbn [existsb]. rewrite orb_false_r. reflexivity.
Qed.

Lemma has_col_load_sales_frame : forall c year df,
  has_col c (DataLoader.load_sales_frame year df)
  = has_col c df
    || existsb (String.eqb c) DataLoader.numeric_sales_columns || String.eqb c "_year".
Proof.
  intros c year df. unfold has_col, DataLoader.load_sales_frame.
  cbn [columns DataLoader.numeric_sales_columns fold_left existsb].
  rewrite !existsb_add_col. rewrite !orb_false_r, <- !orb_assoc. reflexivity.
Qed.

Lemma loaded_sales_frames : forall read_csv year f,
  In (year, f) (DataLoader._load_sales read_csv) ->
  exists df, read_csv year = Some df /\ f = DataLoader.load_sales_frame year df.
Proof.
  intros read_csv year f. unfold DataLoader._load_sales, DataLoader.YEARS.
  simpl fold_left.
  destruct (read_csv 2024) as [d24|] eqn:E24;
    destruct (read_csv 2025) as [d25|] eqn:E25;
    destruct (read_csv 2026) as [d26|] eqn:E26; simpl; intros H;
    repeat (destruct H as [H|H]; [injection H as <- <-; eauto|]); destruct H.
Qed.

(** X11. A sales file without an [Adj_Sale] column is loaded with that
    column added and empty in every row, and the loaded table contributes
    no comparable sale and no error, for any area. *)
Theorem X11_file_without_adjusted_price : forall year df area,
  has_col "Adj_Sale" df = false ->
  has_col "Adj_Sale" (DataLoader.load_sales_frame year df) = true /\
  (forall r, In r (rows (DataLoader.load_sales_frame year df)) -> Sales.Adj_Sale r = None) /\
  year_sales area (DataLoader.load_sales_frame year df) = Ok [].
Proof.
  intros year df area Hno.
  assert (Hcol : has_col "Adj_Sale" (DataLoader.load_sales_frame year df) = true).
  { rewrite has_col_load_sales_frame. rewrite Hno. reflexivity. }
  assert (Hrows : forall r, In r (rows (DataLoader.load_sales_frame year df)) ->
                            Sales.Adj_Sale r = None).
  { intros r Hr. unfold DataLoader.load_sales_frame in Hr. cbn [rows] in Hr.
    apply in_map_iff in Hr. destruct Hr as [s [<- _]]. cbn [Sales.Adj_Sale].
    rewrite Hno. reflexivity. }
  split; [exact Hcol|]. split; [exact Hrows|].
  unfold year_sales.
  set (f := DataLoader.load_sales_frame year df) in *.
  destruct (has_col "ECF_Area" f); cbn [negb]; [|reflexivity].
  cbv zeta.
  set (a1 := select (fun r => cell_eqb (Sales.ECF_Area r) area) f).
  set (a2 := if has_col "Terms_of_Sale" a1 then select arms_length a1 else a1).
  assert (Hc : columns a2 = columns f).
  { unfold a2. destruct (has_col "Terms_of_Sale" a1); reflexivity. }
  assert (Hsub : forall r, In r (rows a2) -> In r (rows f)).
  { intros r. unfold a2, a1. destruct (has_col "Terms_of_Sale" _); cbn [select rows];
      intros Hr; repeat (apply filter_In in Hr; destruct Hr as [Hr _]); exact Hr. }
  rewrite Hc. unfold require_col. fold (has_col "Adj_Sale" f). rewrite Hcol. cbn [bind].
  assert (E : rows (select above_threshold a2) = []).
  { cbn [select rows]. apply existsb_false_filter. apply not_true_is_false. intros Hex.
    apply existsb_exists in Hex. destruct Hex as [r [Hr Hthr]].
    unfold above_threshold in Hthr. rewrite (Hrows r (Hsub r Hr)) in Hthr. discriminate. }
  rewrite E. reflexivity.
Qed.

Lemma X11_witness_2025_file :
  has_col "Adj_Sale" sales_2025_no_adj = false /\
  year_sales "AR-4" (DataLoader.load_sales_frame 2025 sales_2025_no_adj) = Ok [].
Proof.
  split; [reflexivity|].
  apply (X11_file_without_adjusted_price 2025 sales_2025_no_adj "AR-4"). reflexivity.
Defined.

Lemma year_sales_has_area : forall area df rs r,
  year_sales area df = Ok rs -> In r rs -> has_col "ECF_Area" df = true.
Proof.
  intros area df rs r H Hin. unfold year_sales in H.
  destruct (has_col "ECF_Area" df); [reflexivity|].
  cbn [negb] in H. injection H as <-. destruct Hin.
Qed.

(** X12. Every comparable sale computed from loaded sales files comes from
    a row of the file of the year in its [_year] field; that file has the
    columns [ECF_Area] and [Adj_Sale], the normalised area code of the row
    is the area code asked for, and its adjusted price is at least
    150,000. *)
Theorem X12_comparable_sales_of_loaded_files :
  forall to_datetime read_csv other area out r,
    get_comparable_sales to_datetime (with_loaded_sales read_csv other) area = Ok out ->
    In r (rows out) ->
    exists df s p,
      read_csv (Comparable._year r) = Some df /\ In s (rows df) /\
      has_col "ECF_Area" df = true /\ has_col "Adj_Sale" df = true /\
      DataLoader.normalize_area (Sales.ECF_Area s) = Some area /\
      Sales.Adj_Sale s = Some p /\ (150000 <= p)%Q /\
      r = Comparable.mk (Sales.Parcel_Number s) (Sales.Street_Address s)
                        (Sales.Sale_Date s)
                        (if has_col "Sale_Price" df then Sales.Sale_Price s else None)
                        (Some p) (Comparable._year r).
Proof.
  intros to_datetime read_csv other area out r H Hin.
  apply (output_rows_qualify _ _ _ _ _ H) in Hin.
  unfold qualifying_rows in Hin.
  destruct (mapM _ (sales (with_loaded_sales read_csv other))) as [all_sales|] eqn:E;
    [|destruct Hin].
  destruct (mapM_concat_In _ _ _ _ _ _ E Hin) as [[year f] [rs [Hf [Hys Hr]]]].
  cbn [with_loaded_sales sales] in Hf.
  destruct (loaded_sales_frames _ _ _ Hf) as [df [Hread ->]].
  pose proof (year_sales_has_area _ _ _ _ Hys Hr) as Harea.
  destruct (year_sales_spec _ _ _ _ Hys Hr) as [s' [Hs' [-> [Hcode [_ Hthr]]]]].
  unfold DataLoader.load_sales_frame in Hs'. cbn [rows] in Hs'.
  apply in_map_iff in Hs'. destruct Hs' as [s [<- Hs]].
  rewrite has_col_load_sales_frame in Harea.
  change (existsb (String.eqb "ECF_Area") DataLoader.numeric_sales_columns) with false in Harea.
  change (String.eqb "ECF_Area" "_year") with false in Harea.
  rewrite !orb_false_r in Harea.
  cbn [Sales.ECF_Area] in Hcode. rewrite Harea in Hcode.
  unfold above_threshold in Hthr. cbn [Sales.Adj_Sale] in Hthr.
  destruct (has_col "Adj_Sale" df) eqn:Eadj; [|discriminate].
  destruct (Sales.Adj_Sale s) as [p|] eqn:Ep; [|discriminate].
  exists df, s, p. cbn [project Comparable._year Sales._year Sales.Parcel_Number
                        Sales.Street_Address Sales.Sale_Date Sales.Sale_Price
                        Sales.Adj_Sale].
  rewrite Eadj, Ep.
  repeat split; try assumption; try reflexivity.
  apply Qle_bool_iff in Hthr. exact Hthr.
Qed.

Lemma X12_witness_sample_files :
  get_comparable_sales to_datetime_mdy (with_loaded_sales sales_csv_sample no_data) "AR-4"
    = Ok (mkFrame comparable_columns [loaded_sale_2024]) /\
  exists df s p,
    sales_csv_sample 2024 = Some df /\ In s (rows df) /\
    has_col "ECF_Area" df = true /\ has_col "Adj_Sale" df = true /\
    DataLoader.normalize_area (Sales.ECF_Area s) = Some "AR-4" /\
    Sales.Adj_Sale s = Some p /\ (150000 <= p)%Q /\
    loaded_sale_2024
    = Comparable.mk (Sales.Parcel_Number s) (Sales.Street_Address s) (Sales.Sale_Date s)
                    (if has_col "Sale_Price" df then Sales.Sale_Price s else None)
                    (Some p) 2024.
Proof.
  split; [vm_compute; reflexivity|].
  apply (X12_comparable_sales_of_loaded_files to_datetime_mdy sales_csv_sample no_data "AR-4"
           (mkFrame comparable_columns [loaded_sale_2024]) loaded_sale_2024).
  - vm_compute. reflexivity.
  - left. reflexivity.
Defined.

(** ** Land-value trend *)

Lemma filter_nil_existsb : forall (A : Type) (p : A -> bool) l,
  filter p l = [] -> existsb p l = false.
Proof.
  induction l as [|x l IH]; [reflexivity|]. cbn [filter existsb].
  destruct (p x); [discriminate|]. exact IH.
Qed.

Lemma filter_cons_existsb : forall (A : Type) (p : A -> bool) l x xs,
  filter p l = x :: xs -> existsb p l = true.
Proof.
  intros A p l x xs H. destruct (existsb p l) eqn:E; [reflexivity|].
  apply existsb_false_filter in E. congruence.
Qed.

Lemma land_trend_step_cases : forall data area year rows_ rows',
  land_trend_step data area year rows_ = Ok rows' ->
  (rows' = rows_ /\ ~ area_adjusted data area year) \/
  (exists t, rows' = (rows_ ++ [t])%list /\ LandTrend.year t = year /\
             area_adjusted data area year).
Proof.
  intros data area year rows_ rows' H. unfold land_trend_step in H. unfold area_adjusted.
  destruct (dict_get Z.eqb year (land_adj data)) as [df|].
  - destruct (require_col "Area_Code" (columns df)); cbn [bind] in H; [|discriminate].
    cbn [select rows] in H.
    destruct (filter _ (rows df)) as [|first rest] eqn:Ef.
    + injection H as <-. left. split; [reflexivity|].
      intros [df' [Hd Hex]]. injection Hd as <-.
      apply filter_nil_existsb in Ef. congruence.
    + match type of H with
      | bind ?m _ = _ => destruct m as [lv|e]; cbn [bind] in H; [|discriminate]
      end.
      injection H as <-. right. eexists. split; [reflexivity|]. split; [reflexivity|].
      exists df. split; [reflexivity|]. eapply filter_cons_existsb. exact Ef.
  - injection H as <-. left. split; [reflexivity|]. intros [df [Hd _]]. discriminate.
Qed.

(** X13. When [get_land_value_trends] returns, its rows are in strictly
    ascending order of year, and a year has a row exactly when it is one
    of 2024, 2025, 2026 and the land-adjustment table of that year has a
    row of the area. *)
Theorem X13_land_trend_years : forall data area rows_,
  get_land_value_trends data area = Ok rows_ ->
  ascending (map LandTrend.year rows_) /\
  forall year, In year (map LandTrend.year rows_) <->
               In year [2024; 2025; 2026] /\ area_adjusted data area year.
Proof.
  intros data area rows_ H. unfold get_land_value_trends in H. cbn [foldM] in H.
  destruct (land_trend_step data area 2024 []) as [r1|] eqn:E1; cbn [bind] in H; [|discriminate].
  destruct (land_trend_step data area 2025 r1) as [r2|] eqn:E2; cbn [bind] in H; [|discriminate].
  destruct (land_trend_step data area 2026 r2) as [r3|] eqn:E3; cbn [bind] in H; [|discriminate].
  injection H as <-.
  apply land_trend_step_cases in E1, E2, E3.
  destruct E1 as [[-> N1]|[t1 [-> [Y1 P1]]]], E2 as [[-> N2]|[t2 [-> [Y2 P2]]]],
           E3 as [[-> N3]|[t3 [-> [Y3 P3]]]];
    cbn [app map ascending]; rewrite ?Y1, ?Y2, ?Y3;
    (split; [repeat constructor; lia|]);
    intros year; cbn [In];
    (split;
     [ intros Hy; repeat (destruct Hy as [<-|Hy]; [solve [intuition auto]|]); destruct Hy
     | intros [Hy Hp];
       repeat (destruct Hy as [<-|Hy]; [solve [intuition auto]|]); destruct Hy ]).
Qed.

Lemma X13_witness_tied_land_data :
  get_land_value_trends tied_land_data "AR-4" = Ok tied_trend_rows /\
  ascending (map LandTrend.year tied_trend_rows) /\
  forall year, In year (map LandTrend.year tied_trend_rows) <->
               In year [2024; 2025; 2026] /\ area_adjusted tied_land_data "AR-4" year.
Proof.
  split; [vm_compute; reflexivity|].
  apply (X13_land_trend_years tied_land_data "AR-4" tied_trend_rows).
  vm_compute. reflexivity.
Defined.

(** ** The reported land value *)

Lemma fold_max_ge : forall l n, In n l -> (n <= fold_right Nat.max 0 l)%nat.
Proof.
  induction l as [|x l IH]; intros n []; cbn [fold_right].
  - subst. apply Nat.le_max_l.
  - etransitivity; [apply IH; assumption|apply Nat.le_max_r].
Qed.

Lemma nodup_Q_In : forall l x, In x (nodup_Q l) -> In x l.
Proof.
  induction l as [|y l IH]; intros x H; cbn [nodup_Q] in H; [exact H|].
  destruct H as [->|H]; [left; reflexivity|].
  apply filter_In in H. right. apply IH. tauto.
Qed.

Lemma mode_or_median_most_frequent : forall v vals,
  In (mode_or_median (v :: vals)) (v :: vals) /\
  forall y, In y (v :: vals) ->
    (occurrences y (v :: vals) <= occurrences (mode_or_median (v :: vals)) (v :: vals))%nat.
Proof.
  intros v vals. set (l := v :: vals). unfold mode_or_median.
  pose proof (mode_nonempty v vals) as Hne. fold l in Hne.
  destruct (mode l) as [|m more] eqn:Em; [congruence|].
  assert (Hm : In m (mode l)) by (rewrite Em; left; reflexivity).
  unfold mode in Hm. apply (proj1 (sort_In Qle_bool _ _)) in Hm.
  apply nodup_Q_In in Hm. apply filter_In in Hm. destruct Hm as [Hin Hbest].
  apply Nat.eqb_eq in Hbest. split; [exact Hin|].
  intros y Hy. rewrite Hbest. apply fold_max_ge.
  apply in_map_iff. exists y. split; [reflexivity|exact Hy].
Qed.

(** X14. A land value reported for a column is one of the values of the
    area in that column, and no value of the area occurs more often. *)
Theorem X14_land_value_most_frequent : forall present cells x,
  land_value_of present cells = Some x ->
  present = true /\ In (Some x) cells /\
  forall y, In (Some y) cells ->
    (occurrences y (DataLoader.somes cells) <= occurrences x (DataLoader.somes cells))%nat.
Proof.
  intros present cells x H. unfold land_value_of in H.
  destruct present; [|discriminate]. split; [reflexivity|].
  destruct (DataLoader.somes cells) as [|v vals] eqn:E; [discriminate|].
  injection H as <-.
  destruct (mode_or_median_most_frequent v vals) as [Hin Hmax].
  split.
  - apply somes_In. rewrite E. exact Hin.
  - intros y Hy. apply Hmax. rewrite <- E. apply somes_In. exact Hy.
Qed.

Lemma X14_witness_repeated_value :
  land_value_of true [Some 200000%Q; None; Some 100000%Q; Some 200000%Q] = Some 200000%Q /\
  In (Some 200000%Q) [Some 200000%Q; None; Some 100000%Q; Some 200000%Q].
Proof.
  split; [vm_compute; reflexivity|].
  apply (X14_land_value_most_frequent true
           [Some 200000%Q; None; Some 100000%Q; Some 200000%Q] 200000%Q).
  vm_compute. reflexivity.
Defined.

(** ** Coverage and comparable sales *)

Lemma drop_duplicates_last_length : forall (R : Type) (l : list (option string * R)),
  (List.length (drop_duplicates_last l) <= List.length l)%nat.
Proof.
  induction l as [|[k r] l IH]; [reflexivity|]. cbn [drop_duplicates_last List.length].
  destruct (existsb _ l); cbn [List.length]; lia.
Qed.

Lemma year_sales_length : forall area df rs,
  year_sales area df = Ok rs -> Z.of_nat (List.length rs) <= area_count area df.
Proof.
  intros area df rs H. unfold year_sales in H. unfold area_count.
  destruct (has_col "ECF_Area" df); cbn [negb] in H;
    [|injection H as <-; reflexivity].
  cbv zeta in H.
  set (a1 := select (fun r => cell_eqb (Sales.ECF_Area r) area) df) in *.
  set (a2 := if has_col "Terms_of_Sale" a1 then select arms_length a1 else a1) in *.
  assert (Hlen : (List.length (rows a2) <= List.length (rows a1))%nat).
  { unfold a2. destruct (has_col "Terms_of_Sale" a1); [|lia].
    cbn [select rows]. apply filter_length_le. }
  destruct (require_col "Adj_Sale" (columns a2)); cbn [bind] in H; [|discriminate].
  pose proof (filter_length_le _ above_threshold (rows a2)) as Hlen2.
  cbn [select rows] in H.
  destruct (filter above_threshold (rows a2)) as [|x xs] eqn:Ef.
  - injection H as <-. cbn [List.length]. lia.
  - match type of H with
    | bind ?m _ = _ => destruct m; cbn [bind] in H; [|discriminate]
    end.
    injection H as <-. cbn [map List.length] in *. rewrite length_map.
    unfold a1 in Hlen. cbn [select rows] in Hlen. lia.
Qed.

Lemma mapM_year_sales_length : forall area (l : list (Z * frame Sales.row)) all_sales,
  mapM (fun '(year, df) => year_sales area df) l = Ok all_sales ->
  Z.of_nat (List.length (List.concat all_sales))
  <= fold_right Z.add 0 (map (fun '(year, df) => area_count area df) l).
Proof.
  intros area. induction l as [|[y df] l IH]; intros all_sales H; cbn [mapM] in H.
  - injection H as <-. reflexivity.
  - destruct (year_sales area df) as [rs|] eqn:E; [|discriminate].
    destruct (mapM _ l) as [rest|]; [|discriminate].
    injection H as <-. cbn [List.concat map fold_right].
    rewrite length_app, Nat2Z.inj_add.
    pose proof (year_sales_length _ _ _ E). pose proof (IH rest eq_refl). lia.
Qed.

(** X15. For yearly tables of distinct years, the number of comparable
    sales is at most the sum of the counts [check_sales_coverage] reports
    for the area. *)
Theorem X15_comparable_sales_within_coverage : forall to_datetime data area out,
  NoDup (map fst (sales data)) ->
  get_comparable_sales to_datetime data area = Ok out ->
  Z.of_nat (List.length (rows out))
  <= fold_right Z.add 0 (map snd (check_sales_coverage data area)).
Proof.
  intros to_datetime data area out Hnd H.
  rewrite (get_comparable_sales_rows _ _ _ _ H).
  rewrite (Permutation_length (sort_perm _ _)), length_map.
  etransitivity;
    [apply inj_le; apply drop_duplicates_last_length|].
  rewrite length_map.
  rewrite (check_sales_coverage_counts _ _ Hnd), map_map.
  unfold qualifying_rows.
  destruct (mapM _ (sales data)) as [all_sales|] eqn:E.
  - etransitivity; [apply (mapM_year_sales_length _ _ _ E)|].
    apply Z.eq_le_incl. f_equal. apply map_ext. intros [y df]. reflexivity.
  - cbn [List.length]. clear. induction (sales data) as [|[y df] l IH]; [reflexivity|].
    cbn [map fold_right snd]. unfold area_count at 1.
    destruct (has_col "ECF_Area" df); lia.
Qed.

Lemma X15_witness_mixed_tables :
  NoDup (map fst (sales mixed_sales_data)) /\
  Z.of_nat (List.length (rows (mkFrame comparable_columns [sale_2025])))
  <= fold_right Z.add 0 (map snd (check_sales_coverage mixed_sales_data "AR-4")).
Proof.
  assert (Hnd : NoDup (map fst (sales mixed_sales_data))).
  { repeat constructor; simpl; intuition discriminate. }
  split; [exact Hnd|].
  apply (X15_comparable_sales_within_coverage to_datetime_mdy mixed_sales_data "AR-4"
           (mkFrame comparable_columns [sale_2025]) Hnd).
  vm_compute. reflexivity.
Defined.

(** ** Subdivision name *)

Lemma proper_name_Some : forall present v name,
  proper_name present v = Some name ->
  present = true /\ option_map strip v = Some name /\
  name <> EmptyString /\ name <> "nan".
Proof.
  intros present v name H. unfold proper_name, str_get in H.
  destruct present; [|discriminate].
  destruct v as [s|]; [|discriminate].
  destruct (strip s) as [|c r] eqn:Es; [discriminate|]. cbn [nonempty andb] in H.
  destruct (String.eqb (String c r) "nan") eqn:En; [discriminate|].
  injection H as <-. split; [reflexivity|]. split; [cbn [option_map]; congruence|].
  split; [discriminate|]. intros Hn. rewrite Hn in En. discriminate.
Qed.

Lemma search_name_Some : forall (R : Type) (name_of : frame R -> result (option string))
                                tables years name,
  search_name name_of tables years = Ok (Some name) ->
  exists year df, In year years /\ dict_get Z.eqb year tables = Some df /\
                  name_of df = Ok (Some name).
Proof.
  intros R name_of tables. induction years as [|y years IH]; intros name H;
    cbn [search_name] in H; [discriminate|].
  destruct (dict_get Z.eqb y tables) as [df|] eqn:Ed.
  - destruct (name_of df) as [[n|]|] eqn:En; cbn [bind] in H; [| |discriminate].
    + injection H as ->. exists y, df. split; [left; reflexivity|]. split; assumption.
    + destruct (IH name H) as [y' [df' [Hin H']]]. exists y', df'.
      split; [right; exact Hin|exact H'].
  - destruct (IH name H) as [y' [df' [Hin H']]]. exists y', df'.
    split; [right; exact Hin|exact H'].
Qed.

Lemma search_name_Raise : forall (R : Type) (name_of : frame R -> result (option string))
                                 tables years e,
  search_name name_of tables years = Raise e ->
  exists year df, In year years /\ dict_get Z.eqb year tables = Some df /\
                  name_of df = Raise e.
Proof.
  intros R name_of tables. induction years as [|y years IH]; intros e H;
    cbn [search_name] in H; [discriminate|].
  destruct (dict_get Z.eqb y tables) as [df|] eqn:Ed.
  - destruct (name_of df) as [[n|]|e'] eqn:En; cbn [bind] in H; [discriminate| |].
    + destruct (IH e H) as [y' [df' [Hin H']]]. exists y', df'.
      split; [right; exact Hin|exact H'].
    + injection H as ->. exists y, df. split; [left; reflexivity|]. split; assumption.
  - destruct (IH e H) as [y' [df' [Hin H']]]. exists y', df'.
    split; [right; exact Hin|exact H'].
Qed.

Lemma summary_name_Some : forall area df name,
  summary_name area df = Ok (Some name) ->
  has_col "Subdivision" df = true /\
  first_row_name EcfSummaries.ECF_Area EcfSummaries.Subdivision area df = Some name /\
  name <> EmptyString /\ name <> "nan".
Proof.
  intros area df name H. unfold summary_name in H.
  destruct (require_col "ECF_Area" (columns df)); cbn [bind] in H; [|discriminate].
  injection H as H. unfold first_row_name. cbn [select rows] in H.
  destruct (filter _ (rows df)) as [|first rest]; [discriminate|].
  apply proper_name_Some in H. exact H.
Qed.

Lemma land_adj_name_Some : forall area df name,
  land_adj_name area df = Ok (Some name) ->
  has_col "Subdivision" df = true /\
  first_row_name LandAdj.Area_Code LandAdj.Subdivision area df = Some name /\
  name <> EmptyString /\ name <> "nan".
Proof.
  intros area df name H. unfold land_adj_name in H.
  destruct (require_col "Area_Code" (columns df)); cbn [bind] in H; [|discriminate].
  injection H as H. unfold first_row_name. cbn [select rows] in H.
  destruct (filter _ (rows df)) as [|first rest]; [discriminate|].
  apply proper_name_Some in H. exact H.
Qed.

(** X16. [get_subdivision_name] returns the area code itself, or a name that
    is neither empty nor "nan" and is the trimmed [Subdivision] cell of
    the first row of the area in a summary table or a land-adjustment
    table of 2026, 2025 or 2024. It raises only the [KeyError] of the
    area-code column a table it reads lacks. *)
Theorem X16_subdivision_name_source : forall data area,
  match get_subdivision_name data area with
  | Ok name =>
      name = area \/
      (name <> EmptyString /\ name <> "nan" /\
       exists year, In year [2026; 2025; 2024] /\
         ((exists df, dict_get Z.eqb year (ecf_summaries data) = Some df /\
                      has_col "Subdivision" df = true /\
                      first_row_name EcfSummaries.ECF_Area EcfSummaries.Subdivision
                                     area df = Some name) \/
          (exists df, dict_get Z.eqb year (land_adj data) = Some df /\
                      has_col "Subdivision" df = true /\
                      first_row_name LandAdj.Area_Code LandAdj.Subdivision
                                     area df = Some name)))
  | Raise e =>
      exists year, In year [2026; 2025; 2024] /\
        ((e = KeyError "ECF_Area" /\
          exists df, dict_get Z.eqb year (ecf_summaries data) = Some df /\
                     has_col "ECF_Area" df = false) \/
         (e = KeyError "Area_Code" /\
          exists df, dict_get Z.eqb year (land_adj data) = Some df /\
                     has_col "Area_Code" df = false))
  end.
Proof.
  intros data area. unfold get_subdivision_name.
  destruct (search_name (summary_name area) _ _) as [[name|]|e] eqn:E1; cbn [bind].
  - right. apply search_name_Some in E1. destruct E1 as [year [df [Hin [Hd Hn]]]].
    apply summary_name_Some in Hn. destruct Hn as [Hc [Hf [Hne Hnan]]].
    split; [exact Hne|]. split; [exact Hnan|].
    exists year. split; [exact Hin|]. left. exists df. repeat split; assumption.
  - destruct (search_name (land_adj_name area) _ _) as [[name|]|e] eqn:E2; cbn [bind].
    + right. apply search_name_Some in E2. destruct E2 as [year [df [Hin [Hd Hn]]]].
      apply land_adj_name_Some in Hn. destruct Hn as [Hc [Hf [Hne Hnan]]].
      split; [exact Hne|]. split; [exact Hnan|].
      exists year. split; [exact Hin|]. right. exists df. repeat split; assumption.
    + left. reflexivity.
    + apply search_name_Raise in E2. destruct E2 as [year [df [Hin [Hd Hn]]]].
      exists year. split; [exact Hin|]. right.
      unfold land_adj_name, require_col in Hn. fold (has_col "Area_Code" df) in Hn.
      destruct (has_col "Area_Code" df) eqn:Ec; cbn [bind] in Hn; [discriminate|].
      injection Hn as <-. split; [reflexivity|]. exists df. split; [exact Hd|exact Ec].
  - apply search_name_Raise in E1. destruct E1 as [year [df [Hin [Hd Hn]]]].
    exists year. split; [exact Hin|]. left.
    unfold summary_name, require_col in Hn. fold (has_col "ECF_Area" df) in Hn.
    destruct (has_col "ECF_Area" df) eqn:Ec; cbn [bind] in Hn; [discriminate|].
    injection Hn as <-. split; [reflexivity|]. exists df. split; [exact Hd|exact Ec].
Qed.

(* ================================================================== *)
(** * Further properties of the record-card parser *)
(* ================================================================== *)

Section ParserInvariants.
Context `{RT : PyRuntime}.

Ltac setter2 := let p := fresh "p" in intros ? p; destruct p; reflexivity.

Lemma outside_set_style : forall v p,
  outside_page2 (set_style v p) = outside_page2 p.
Proof. setter2. Qed.

Lemma outside_set_year_built : forall v p,
  outside_page2 (set_year_built v p) = outside_page2 p.
Proof. setter2. Qed.

Lemma outside_set_condition : forall v p,
  outside_page2 (set_condition v p) = outside_page2 p.
Proof. setter2. Qed.

Lemma outside_set_effective_age : forall v p,
  outside_page2 (set_effective_age v p) = outside_page2 p.
Proof. setter2. Qed.

Lemma outside_set_floor_area : forall v p,
  outside_page2 (set_floor_area v p) = outside_page2 p.
Proof. setter2. Qed.

Lemma outside_set_ground_area : forall v p,
  outside_page2 (set_ground_area v p) = outside_page2 p.
Proof. setter2. Qed.

Lemma outside_set_basement_sf : forall v p,
  outside_page2 (set_basement_sf v p) = outside_page2 p.
Proof. setter2. Qed.

Lemma outside_set_total_base_new : forall v p,
  outside_page2 (set_total_base_new v p) = outside_page2 p.
Proof. setter2. Qed.

Lemma outside_set_total_depr_cost : forall v p,
  outside_page2 (set_total_depr_cost v p) = outside_page2 p.
Proof. setter2. Qed.

Lemma outside_set_ecf : forall v p,
  outside_page2 (set_ecf v p) = outside_page2 p.
Proof. setter2. Qed.

Lemma outside_set_estimated_tcv_cost : forall v p,
  outside_page2 (set_estimated_tcv_cost v p) = outside_page2 p.
Proof. setter2. Qed.

Lemma raw1_set_parcel_number : forall v p,
  raw_text_page1 (set_parcel_number v p) = raw_text_page1 p.
Proof. setter2. Qed.

Lemma raw1_set_address : forall v p,
  raw_text_page1 (set_address v p) = raw_text_page1 p.
Proof. setter2. Qed.

Lemma raw1_set_area_code : forall v p,
  raw_text_page1 (set_area_code v p) = raw_text_page1 p.
Proof. setter2. Qed.

Lemma raw1_set_subdivision : forall v p,
  raw_text_page1 (set_subdivision v p) = raw_text_page1 p.
Proof. setter2. Qed.

Lemma raw1_set_sev_2026 : forall v p,
  raw_text_page1 (set_sev_2026 v p) = raw_text_page1 p.
Proof. setter2. Qed.

Lemma raw1_set_tcv_2026 : forall v p,
  raw_text_page1 (set_tcv_2026 v p) = raw_text_page1 p.
Proof. setter2. Qed.

Lemma raw1_set_land_value : forall v p,
  raw_text_page1 (set_land_value v p) = raw_text_page1 p.
Proof. setter2. Qed.

Lemma raw1_set_assessment_history : forall v p,
  raw_text_page1 (set_assessment_history v p) = raw_text_page1 p.
Proof. setter2. Qed.

Create Rewrite HintDb outside2.
#[local] Hint Rewrite outside_set_style outside_set_year_built outside_set_condition outside_set_effective_age outside_set_floor_area outside_set_ground_area outside_set_basement_sf outside_set_total_base_new outside_set_total_depr_cost outside_set_ecf outside_set_estimated_tcv_cost
  : outside2.

Create Rewrite HintDb raw1.
#[local] Hint Rewrite raw1_set_parcel_number raw1_set_address raw1_set_area_code raw1_set_subdivision raw1_set_sev_2026 raw1_set_tcv_2026 raw1_set_land_value raw1_set_assessment_history
  : raw1.

Lemma parse_page2_outside : forall text p,
  keeps outside_page2 (_parse_page2 text p) p.
Proof.
  intros text p. unfold _parse_page2. cbv zeta.
  destruct (search_else (search_else _ _ text NoFlags) _ text NoFlags) as [my|];
    [unfold int_or_raise at 1; destruct (py_int (group my 1)) as [y|];
     cbn [bind]; [|exact I]|cbn [bind]];
    (destruct (re_search "Effec\.\s*Age:\s*(\d+)" text NoFlags) as [ma|];
     [unfold int_or_raise at 1; destruct (py_int (group ma 1)) as [a|];
      cbn [bind]; [|exact I]|cbn [bind]]);
    cbn [keeps];
    repeat first
      [ progress autorewrite with outside2
      | match goal with
        | |- outside_page2 (match ?o with Some m => @?g m | None => ?q end) = _ =>
            transitivity (outside_page2 q);
            [destruct o;
             try match goal with
                 | |- context [py_float ?s] => destruct (py_float s)
                 end;
             autorewrite with outside2; reflexivity|]
        end ];
    reflexivity.
Qed.

Lemma history_step_raw1 : forall m p, keeps raw_text_page1 (history_step m p) p.
Proof.
  intros m p. unfold history_step, int_or_raise.
  destruct (py_int (group m 1)) as [y|]; cbn [bind keeps]; [|exact I].
  destruct (y =? 2026); autorewrite with raw1; reflexivity.
Qed.

Lemma foldM_history_raw1 : forall ms p, keeps raw_text_page1 (foldM history_step ms p) p.
Proof.
  induction ms as [|m ms IH]; intros p; cbn [foldM]; [reflexivity|].
  pose proof (history_step_raw1 m p) as Hm.
  destruct (history_step m p) as [q|e]; cbn [bind keeps] in *; [|exact I].
  specialize (IH q). unfold keeps in *.
  destruct (foldM history_step ms q); [congruence|exact I].
Qed.

Lemma parse_history_raw1 : forall text p,
  keeps raw_text_page1 (_parse_assessment_history text p) p.
Proof.
  intros text p. unfold _parse_assessment_history.
  pose proof (foldM_history_raw1
                (re_finditer history_pattern (_normalize_ocr_numbers text)) p) as H.
  destruct (foldM history_step _ p) as [q|e]; cbn [bind keeps] in *; [|exact I].
  autorewrite with raw1. exact H.
Qed.

Lemma parse_page1_raw1 : forall text p, keeps raw_text_page1 (_parse_page1 text p) p.
Proof.
  intros text p. unfold _parse_page1.
  match goal with
  | |- keeps _ (_parse_assessment_history _ ?q) _ =>
      pose proof (parse_history_raw1 text q) as H;
      assert (Hq : raw_text_page1 q = raw_text_page1 p)
  end.
  { repeat match goal with
           | |- context [match ?x with _ => _ end] => destruct x
           end; autorewrite with raw1; reflexivity. }
  unfold keeps in *.
  destruct (_parse_assessment_history text _); [congruence|exact I].
Qed.

Lemma parse_history_sorted : forall text p,
  match _parse_assessment_history text p with
  | Ok q => history_ascending q
  | Raise _ => True
  end.
Proof.
  intros text p. unfold _parse_assessment_history.
  destruct (foldM history_step _ p) as [q|e]; cbn [bind]; [|exact I].
  unfold history_ascending.
  destruct q; cbn [set_assessment_history assessment_history].
  eapply Sorted_impl; [|apply sort_Sorted].
  - intros a b H. apply Z.leb_le. exact H.
  - intros a b. destruct (Z.leb_spec (AssessmentYear.year a) (AssessmentYear.year b));
      [left; reflexivity|right; apply Z.leb_le; lia].
Qed.

Lemma parse_page1_sorted : forall text p,
  match _parse_page1 text p with
  | Ok q => history_ascending q
  | Raise _ => True
  end.
Proof. intros text p. unfold _parse_page1. apply parse_history_sorted. Qed.

Lemma derive_sev_history : forall p,
  assessment_history (derive_sev_from_tcv p) = assessment_history p.
Proof.
  intros p. unfold derive_sev_from_tcv.
  destruct ((sev_2026 p =? 0) && (tcv_2026 p >? 0)); [|reflexivity].
  destruct p; reflexivity.
Qed.

Lemma derive_sev_raw_texts : forall p,
  raw_text_page1 (derive_sev_from_tcv p) = raw_text_page1 p /\
  raw_text_page2 (derive_sev_from_tcv p) = raw_text_page2 p.
Proof.
  intros p. unfold derive_sev_from_tcv.
  destruct ((sev_2026 p =? 0) && (tcv_2026 p >? 0)); [|split; reflexivity].
  destruct p; split; reflexivity.
Qed.

Lemma derive_sev_page1 : forall a b,
  page1_fields a = page1_fields b ->
  page1_fields (derive_sev_from_tcv a) = page1_fields (derive_sev_from_tcv b).
Proof.
  intros a b H. destruct a, b. unfold page1_fields in H.
  cbn [parcel_number address area_code subdivision sev_2026 tcv_2026 land_value
       assessment_history raw_text_page1] in H.
  injection H as -> -> -> -> -> -> -> -> ->.
  unfold derive_sev_from_tcv. cbn [sev_2026 tcv_2026].
  destruct ((_ =? 0) && (_ >? 0)); reflexivity.
Qed.

Lemma outside_set_raw_text_page2 : forall v p,
  page1_fields (set_raw_text_page2 v p) = page1_fields p.
Proof. setter2. Qed.

Lemma raw2_set_raw_text_page2 : forall v p, raw_text_page2 (set_raw_text_page2 v p) = v.
Proof. setter2. Qed.

Lemma raw1_set_raw_text_page1 : forall v p, raw_text_page1 (set_raw_text_page1 v p) = v.
Proof. setter2. Qed.

(** What a document with two or more readable pages is parsed to, in terms
    of the two page parsers. *)
Lemma parse_rc_pdf_two_pages : forall text1 text2 more,
  parse_rc_pdf (Ok (Ok text1 :: Ok text2 :: more)) =
  (q1 <- _parse_page1 text1 (set_raw_text_page1 text1 default_PropertyData) ;;
   q2 <- _parse_page2 text2 (set_raw_text_page2 text2 q1) ;;
   Ok (derive_sev_from_tcv q2)).
Proof. intros. reflexivity. Qed.

(** X17. Parsing a second page never changes what was read from the first:
    for two readable pages, every page-1 field of the result is that of
    the parse of the first page alone. *)
Theorem X17_second_page_keeps_first : forall text1 text2 more,
  match parse_rc_pdf (Ok (Ok text1 :: Ok text2 :: more)) with
  | Ok q =>
      exists q1, parse_rc_pdf (Ok [Ok text1]) = Ok q1 /\
                 page1_fields q = page1_fields q1
  | Raise _ => True
  end.
Proof.
  intros text1 text2 more. rewrite parse_rc_pdf_two_pages, parse_rc_pdf_one_page.
  cbn [bind].
  destruct (_parse_page1 text1 _) as [q1|e]; cbn [bind]; [|exact I].
  pose proof (parse_page2_outside text2 (set_raw_text_page2 text2 q1)) as H.
  destruct (_parse_page2 text2 _) as [q2|e]; cbn [bind keeps] in *; [|exact I].
  exists (derive_sev_from_tcv q1). split; [reflexivity|].
  apply derive_sev_page1. apply (f_equal fst) in H.
  unfold outside_page2 in H. cbn [fst] in H.
  rewrite H. apply outside_set_raw_text_page2.
Qed.

(** X18. The result of parsing two readable pages holds the text of each
    page as it was read. *)
Theorem X18_raw_texts_kept : forall text1 text2 more,
  match parse_rc_pdf (Ok (Ok text1 :: Ok text2 :: more)) with
  | Ok q => raw_text_page1 q = text1 /\ raw_text_page2 q = text2
  | Raise _ => True
  end.
Proof.
  intros text1 text2 more. rewrite parse_rc_pdf_two_pages.
  pose proof (parse_page1_raw1 text1 (set_raw_text_page1 text1 default_PropertyData)) as H1.
  destruct (_parse_page1 text1 _) as [q1|e]; cbn [bind keeps] in *; [|exact I].
  pose proof (parse_page2_outside text2 (set_raw_text_page2 text2 q1)) as H2.
  destruct (_parse_page2 text2 _) as [q2|e]; cbn [bind keeps] in *; [|exact I].
  destruct (derive_sev_raw_texts q2) as [-> ->].
  pose proof (f_equal (fun t => snd (fst t)) H2) as H2a.
  pose proof (f_equal snd H2) as H2b.
  unfold outside_page2 in H2a, H2b. cbn [page1_fields fst snd] in H2a, H2b.
  rewrite H2b, H2a. split.
  - destruct q1; exact H1.
  - apply raw2_set_raw_text_page2.
Qed.

(** X19. Whatever [parse_rc_pdf] returns, its assessment history is in
    ascending order of year. *)
Theorem X19_history_ascending : forall pdf_bytes,
  match parse_rc_pdf pdf_bytes with
  | Ok q => history_ascending q
  | Raise _ => True
  end.
Proof.
  intros [doc|e]; [|exact I]. unfold parse_rc_pdf. cbn [bind].
  destruct doc as [|pg1 doc]; cbn [List.length Nat.leb bind].
  - unfold history_ascending. rewrite derive_sev_history. constructor.
  - unfold _ocr_page at 1. cbn [nth_error].
    destruct pg1 as [text1|e]; cbn [bind]; [|exact I].
    pose proof (parse_page1_sorted text1 (set_raw_text_page1 text1 default_PropertyData)) as H1.
    destruct (_parse_page1 text1 _) as [q1|e]; cbn [bind]; [|exact I].
    destruct doc as [|pg2 doc]; cbn [List.length Nat.leb bind].
    + unfold history_ascending in *. rewrite derive_sev_history. exact H1.
    + unfold _ocr_page. cbn [nth_error].
      destruct pg2 as [text2|e]; cbn [bind]; [|exact I].
      pose proof (parse_page2_outside text2 (set_raw_text_page2 text2 q1)) as H2.
      destruct (_parse_page2 text2 _) as [q2|e]; cbn [bind keeps] in *; [|exact I].
      unfold history_ascending in *. rewrite derive_sev_history.
      apply (f_equal (fun t => snd (fst (fst t)))) in H2.
      unfold outside_page2 in H2. cbn [page1_fields fst snd] in H2.
      rewrite H2. destruct q1; exact H1.
Qed.

(** X20. [parse_rc_pdf] never returns an assessed value of 0 together with
    an estimated true cash value of 2 or more. *)
Theorem X20_zero_sev_only_without_tcv : forall pdf_bytes,
  match parse_rc_pdf pdf_bytes with
  | Ok q => sev_2026 q <> 0 \/ tcv_2026 q <= 1
  | Raise _ => True
  end.
Proof.
  intros pdf_bytes.
  assert (Hd : forall p, sev_2026 (derive_sev_from_tcv p) <> 0 \/
                         tcv_2026 (derive_sev_from_tcv p) <= 1).
  { intros p. unfold derive_sev_from_tcv.
    destruct (sev_2026 p =? 0) eqn:Es; cbn [andb].
    - destruct (tcv_2026 p >? 0) eqn:Et.
      + destruct p. cbn [set_sev_2026 sev_2026 tcv_2026] in *.
        match goal with |- ?a <> 0 \/ _ => destruct (Z.eq_dec a 0) as [E|E]; [right|left; exact E] end.
        apply Z.gtb_lt in Et. apply Z.div_small_iff in E; lia.
      + right. rewrite Z.gtb_ltb in Et. apply Z.ltb_ge in Et. lia.
    - left. apply Z.eqb_neq. exact Es. }
  unfold parse_rc_pdf.
  destruct pdf_bytes as [doc|e]; cbn [bind]; [|exact I].
  destruct (if (1 <=? List.length doc)%nat then _ else _) as [q1|e]; cbn [bind]; [|exact I].
  destruct (if (2 <=? List.length doc)%nat then _ else _) as [q2|e]; cbn [bind]; [|exact I].
  apply Hd.
Qed.

End ParserInvariants.
